(** * fitness-bot: the date resolver and the booking tools of [src/index.js]

    A shallow embedding of the temporal core of the bot
    ([getTzParts], [zonedDateTimeToUTCISO], [normalizeWhenLocalPair],
    [parseLocalPlainToDate], the late-night policy), of the booking tools
    built on it ([get_upcoming_trial], [book_trial], [reschedule_trial],
    [cancel_trial]), of the rows the bookings are in the sheet, and of the
    choice of the answer sent to the chat.

    JavaScript values are modelled as the code uses them:
    - a string is its list of UTF-16 code units ([jsstring]);
    - a [Date] is its time value, an integer number of milliseconds since
      the epoch ([Z]); an invalid date ([NaN]) is [None];
    - a regular expression literal is a term of [regex], run by a
      backtracking matcher with the priorities of the JavaScript one;
    - the wall clock and the bookings store are fields of a [World] that the
      tools thread through a state monad. *)

From Stdlib Require Import ZArith NArith List Bool Lia String Ascii Setoid.
Import ListNotations.

Local Open Scope Z_scope.

(* ================================================================== *)
(** * Strings as UTF-16 code units *)

Definition jsstring := list N.

(** Source literals are written as Rocq strings (UTF-8 bytes) and decoded to
    code units.  Every character of the program text lies in the Basic
    Multilingual Plane, so one to three bytes per character. *)
Fixpoint utf8_decode (bs : list N) : jsstring :=
  match bs with
  | [] => []
  | b :: t =>
      if (b <? 128)%N then b :: utf8_decode t
      else if (b <? 224)%N then
        match t with
        | c :: t' => ((b - 192) * 64 + (c - 128))%N :: utf8_decode t'
        | [] => []
        end
      else
        match t with
        | c :: d :: t' =>
            ((b - 224) * 4096 + (c - 128) * 64 + (d - 128))%N :: utf8_decode t'
        | _ => []
        end
  end.

Fixpoint bytes_of_string (s : string) : list N :=
  match s with
  | EmptyString => []
  | String a r => N_of_ascii a :: bytes_of_string r
  end.

Definition js (s : string) : jsstring := utf8_decode (bytes_of_string s).

Definition jsstring_eqb (a b : jsstring) : bool :=
  if list_eq_dec N.eq_dec a b then true else false.

(** Character classes of the regular expressions in the source.  Without the
    [u] and [i] flags, [\w] (and so [\b]) knows ASCII letters, digits and the
    underscore only. *)
Definition isDigit (c : N) : bool := ((48 <=? c) && (c <=? 57))%N.

Definition isWordChar (c : N) : bool :=
  (isDigit c || ((65 <=? c) && (c <=? 90)) || ((97 <=? c) && (c <=? 122))
   || (c =? 95))%N.

(** [\s], which is also what [String.prototype.trim] strips: WhiteSpace and
    LineTerminator of ECMAScript. *)
Definition isSpace (c : N) : bool :=
  (((9 <=? c) && (c <=? 13)) || (c =? 32) || (c =? 160) || (c =? 5760)
   || ((8192 <=? c) && (c <=? 8202)) || (c =? 8232) || (c =? 8233)
   || (c =? 8239) || (c =? 8287) || (c =? 12288) || (c =? 65279))%N.

Definition oneOf (cs : jsstring) (c : N) : bool := existsb (N.eqb c) cs.

(** [toLowerCase] on the alphabets the bot meets: ASCII, Latin-1 and the
    Cyrillic block; other code units are left as they are. *)
Definition lowerChar (c : N) : N :=
  (if (65 <=? c) && (c <=? 90) then c + 32
   else if (192 <=? c) && (c <=? 222) && negb (c =? 215) then c + 32
   else if (1024 <=? c) && (c <=? 1039) then c + 80
   else if (1040 <=? c) && (c <=? 1071) then c + 32
   else c)%N.

Definition toLowerCase (s : jsstring) : jsstring := map lowerChar s.

Fixpoint dropWhile (p : N -> bool) (s : jsstring) : jsstring :=
  match s with
  | [] => []
  | c :: t => if p c then dropWhile p t else s
  end.

Definition trim (s : jsstring) : jsstring :=
  rev (dropWhile isSpace (rev (dropWhile isSpace s))).

Fixpoint stripPrefix (p s : jsstring) : option jsstring :=
  match p, s with
  | [], _ => Some s
  | _ :: _, [] => None
  | a :: p', b :: s' => if (a =? b)%N then stripPrefix p' s' else None
  end.

(** [s.replace(pat, rep)] with a string pattern: the first occurrence of
    [pat] in [s], wherever it is, is replaced. *)
Fixpoint replaceFirst (pat rep s : jsstring) : jsstring :=
  match stripPrefix pat s with
  | Some after => rep ++ after
  | None =>
      match s with
      | [] => []
      | c :: t => c :: replaceFirst pat rep t
      end
  end.

(** [s.indexOf(pat)] *)
Fixpoint indexOf (pat s : jsstring) : option nat :=
  match stripPrefix pat s with
  | Some _ => Some 0%nat
  | None =>
      match s with
      | [] => None
      | _ :: t => option_map S (indexOf pat t)
      end
  end.

(** A value used as a condition: the empty string is falsy. *)
Definition truthy (s : jsstring) : bool :=
  match s with [] => false | _ => true end.

(** [a || b] on strings. *)
Definition orElse (a b : jsstring) : jsstring := if truthy a then a else b.

(* ================================================================== *)
(** * Regular expressions *)

(** The fragment of the regular expression syntax the source uses.  A
    quantifier is always applied to a single character class there
    ([\d{1,2}], [\s*], [\s+], [\d{4}]), or is [?] on a group. *)
Inductive regex : Type :=
| Eps
| Chr (c : N)
| Cls (p : N -> bool)
| WordB                                   (* \b *)
| Bos                                     (* ^  *)
| Eos                                     (* $  *)
| Cat (r1 r2 : regex)
| Alt (r1 r2 : regex)                     (* r1|r2, r1 tried first *)
| Opt (r : regex)                         (* (?:r)?, greedy *)
| Rep (p : N -> bool) (lo : nat) (hi : option nat)   (* greedy *)
| Grp (i : nat) (r : regex).              (* capture group number i *)

Fixpoint lit (s : jsstring) : regex :=
  match s with
  | [] => Eps
  | [c] => Chr c
  | c :: t => Cat (Chr c) (lit t)
  end.

Fixpoint alts (rs : list regex) : regex :=
  match rs with
  | [] => Eps
  | [r] => r
  | r :: t => Alt r (alts t)
  end.

Definition cats (rs : list regex) : regex := fold_right Cat Eps rs.

(** The matcher's position: the code unit before it (for [\b] and [^]), the
    rest of the input, the index, and the captures so far. *)
Record cursor : Type := mkCursor {
  prev : option N;
  rest : jsstring;
  pos  : nat;
  caps : list (nat * jsstring)%type
}.

Definition isWordOpt (o : option N) : bool :=
  match o with Some c => isWordChar c | None => false end.

Definition atBoundary (c : cursor) : bool :=
  xorb (isWordOpt (prev c)) (isWordOpt (hd_error (rest c))).

Definition capture (i : nat) (c c' : cursor) : cursor :=
  mkCursor (prev c') (rest c') (pos c')
           ((i, firstn (pos c' - pos c) (rest c)) :: caps c').

Section Matcher.
Context {A : Type}.

(** Greedy repetition of a class: take one more code unit whenever
    allowed, and fall back to stopping here when the rest fails. *)
Fixpoint rep (p : N -> bool) (lo : nat) (hi : option nat)
         (pv : option N) (s : jsstring) (i : nat) (cp : list (nat * jsstring)%type)
         (k : cursor -> option A) {struct s} : option A :=
  let stop := match lo with O => k (mkCursor pv s i cp) | S _ => None end in
  let more := match hi with Some O => false | _ => true end in
  match s with
  | c :: t =>
      if more && p c then
        match rep p (Nat.pred lo) (option_map Nat.pred hi) (Some c) t (S i) cp k with
        | Some a => Some a
        | None => stop
        end
      else stop
  | [] => stop
  end.

Fixpoint run (r : regex) (c : cursor) (k : cursor -> option A) : option A :=
  match r with
  | Eps => k c
  | Chr x =>
      match rest c with
      | y :: t => if (x =? y)%N then k (mkCursor (Some y) t (S (pos c)) (caps c)) else None
      | [] => None
      end
  | Cls p =>
      match rest c with
      | y :: t => if p y then k (mkCursor (Some y) t (S (pos c)) (caps c)) else None
      | [] => None
      end
  | WordB => if atBoundary c then k c else None
  | Bos => match prev c with None => k c | Some _ => None end
  | Eos => match rest c with [] => k c | _ :: _ => None end
  | Cat r1 r2 => run r1 c (fun c' => run r2 c' k)
  | Alt r1 r2 =>
      match run r1 c k with
      | Some a => Some a
      | None => run r2 c k
      end
  | Opt r1 =>
      match run r1 c k with
      | Some a => Some a
      | None => k c
      end
  | Rep p lo hi => rep p lo hi (prev c) (rest c) (pos c) (caps c) k
  | Grp i r1 => run r1 c (fun c' => k (capture i c c'))
  end.
End Matcher.

(** The result of [RegExp.prototype.exec] / [String.prototype.match]. *)
Record MatchResult : Type := mkMatch {
  index   : nat;
  matched : jsstring;                 (* m[0] *)
  mcaps   : list (nat * jsstring)%type
}.

Fixpoint assoc (i : nat) (l : list (nat * jsstring)%type) : option jsstring :=
  match l with
  | [] => None
  | (j, v) :: t => if Nat.eqb i j then Some v else assoc i t
  end.

(** [m[i]]; [None] is [undefined] (the group did not take part). *)
Definition group (m : MatchResult) (i : nat) : option jsstring := assoc i (mcaps m).

Definition matchAt (r : regex) (pv : option N) (s : jsstring) (i : nat)
  : option MatchResult :=
  run r (mkCursor pv s i [])
      (fun c' => Some (mkMatch i (firstn (pos c' - i) s) (caps c'))).

(** The leftmost match: every start index in turn. *)
Fixpoint searchFrom (r : regex) (pv : option N) (s : jsstring) (i : nat)
  : option MatchResult :=
  match matchAt r pv s i with
  | Some m => Some m
  | None =>
      match s with
      | [] => None
      | c :: t => searchFrom r (Some c) t (S i)
      end
  end.

Definition exec (r : regex) (s : jsstring) : option MatchResult :=
  searchFrom r None s 0.

Definition test (r : regex) (s : jsstring) : bool :=
  match exec r s with Some _ => true | None => false end.

(** [s.replace(/\D+/g, '')]: every run of non-digits is deleted. *)
Definition stripNonDigits (s : jsstring) : jsstring := filter isDigit s.

(* ================================================================== *)
(** * Numbers and their decimal text *)

Definition digitChar (d : Z) : N := (48 + Z.to_N d)%N.

Definition digitVal (c : N) : Z := Z.of_N c - 48.

(** [parseInt(s, 10)] on a run of decimal digits (what the capture groups
    hold). *)
Definition parseInt (s : jsstring) : Z :=
  fold_left (fun acc c => acc * 10 + digitVal c) s 0.

Fixpoint digitsFuel (fuel : nat) (n : Z) (acc : jsstring) : jsstring :=
  match fuel with
  | O => acc
  | S f =>
      let acc' := digitChar (n mod 10) :: acc in
      if n <? 10 then acc' else digitsFuel f (n / 10) acc'
  end.

Definition digitsOf (n : Z) : jsstring :=
  digitsFuel (S (Z.to_nat (Z.log2 n))) n [].

(** [String(n)] / a template literal hole, for an integer [n]. *)
Definition numToString (n : Z) : jsstring :=
  if n <? 0 then 45%N :: digitsOf (- n) else digitsOf n.

(** [s.padStart(w, '0')]. *)
Definition padStart (w : nat) (s : jsstring) : jsstring :=
  repeat 48%N (w - List.length s) ++ s.

Definition pad2 (n : Z) : jsstring := padStart 2 (numToString n).

(** [Math.min(hi, Math.max(lo, n))]. *)
Definition clamp (lo hi n : Z) : Z := Z.min hi (Z.max lo n).

(** [Math.round(a / b)] for integers [a] and [b > 0]: the nearest integer,
    a tie going up. *)
Definition roundDiv (a b : Z) : Z := (2 * a + b) / (2 * b).

(* ================================================================== *)
(** * The calendar of [Date] *)

Definition msPerDay : Z := 86400000.

(** Days since 1970-01-01 of the proleptic Gregorian date [y]-[m]-[d], for a
    month in 1..12 and any day number (a day past the end of the month runs
    into the next one, as [MakeDay] has it). *)
Definition daysFromCivil (y m d : Z) : Z :=
  let y' := if m <=? 2 then y - 1 else y in
  let era := y' / 400 in
  let yoe := y' mod 400 in
  let mp := if 2 <? m then m - 3 else m + 9 in
  let doy := (153 * mp + 2) / 5 + d - 1 in
  let doe := yoe * 365 + yoe / 4 - yoe / 100 + doy in
  era * 146097 + doe - 719468.

(** The inverse: the date of a day number. *)
Definition civilFromDays (z : Z) : Z * Z * Z :=
  let z' := z + 719468 in
  let era := z' / 146097 in
  let doe := z' mod 146097 in
  let yoe := (doe - doe / 1460 + doe / 36524 - doe / 146096) / 365 in
  let doy := doe - (365 * yoe + yoe / 4 - yoe / 100) in
  let mp := (5 * doy + 2) / 153 in
  let d := doy - (153 * mp + 2) / 5 + 1 in
  let m := if mp <? 10 then mp + 3 else mp - 9 in
  let y := yoe + era * 400 in
  (if m <=? 2 then y + 1 else y, m, d).

(** [MakeDay(year, month, date)]: the month is zero-based and may overflow
    into the years. *)
Definition MakeDay (year month date : Z) : Z :=
  daysFromCivil (year + month / 12) (month mod 12 + 1) 1 + date - 1.

(** [Date.UTC(year, month, day, hour, minute, second, ms)]; a year from 0
    to 99 means 1900 + year. *)
Definition Date_UTC (year month day hour minute second ms : Z) : Z :=
  let yr := if (0 <=? year) && (year <=? 99) then 1900 + year else year in
  MakeDay yr month day * msPerDay
  + hour * 3600000 + minute * 60000 + second * 1000 + ms.

(** The fields [getTzParts] returns. *)
Record TzParts : Type := mkParts {
  year : Z; month : Z; day : Z; hour : Z; minute : Z; second : Z
}.

(** The civil reading of an instant at a given UTC offset in seconds. *)
Definition civilAt (offsetSec : Z) (t : Z) : TzParts :=
  let localSec := t / 1000 + offsetSec in
  let sod := localSec mod 86400 in
  let '(y, m, d) := civilFromDays (localSec / 86400) in
  mkParts y m d (sod / 3600) (sod mod 3600 / 60) (sod mod 60).

(** [Date.prototype.toISOString]: [YYYY-MM-DDTHH:mm:ss.sssZ], with the
    expanded six-digit year outside 0..9999. *)
Definition pad3 (n : Z) : jsstring := padStart 3 (numToString n).

Definition isoYear (y : Z) : jsstring :=
  if (0 <=? y) && (y <=? 9999) then padStart 4 (numToString y)
  else (if y <? 0 then 45%N else 43%N) :: padStart 6 (numToString (Z.abs y)).

Definition toISOString (t : Z) : jsstring :=
  let p := civilAt 0 t in
  isoYear (year p) ++ js "-" ++ pad2 (month p) ++ js "-" ++ pad2 (day p)
  ++ js "T" ++ pad2 (hour p) ++ js ":" ++ pad2 (minute p) ++ js ":"
  ++ pad2 (second p) ++ js "." ++ pad3 (t mod 1000) ++ js "Z".

(* ================================================================== *)
(** * The regular expressions of the source *)

Definition digits (lo hi : nat) : regex := Rep isDigit lo (Some hi).
Definition dot : regex := Cls (oneOf (js ".")).          (* [.] *)
Definition spaces0 : regex := Rep isSpace 0 None.        (* \s* *)
Definition spaces1 : regex := Rep isSpace 1 None.        (* \s+ *)

(** [/\bв\s*(\d{1,2})(?::(\d{2}))?\b/] *)
Definition re_timeAt : regex :=
  cats [WordB; lit (js "в"); spaces0; Grp 1 (digits 1 2);
        Opt (Cat (lit (js ":")) (Grp 2 (digits 2 2))); WordB].

(** [/\b(\d{1,2}):(\d{2})\b/] *)
Definition re_timeColon : regex :=
  cats [WordB; Grp 1 (digits 1 2); lit (js ":"); Grp 2 (digits 2 2); WordB].

(** [/\bW\b|\bP\s+A\b/]: the shape of every entry of [weekdayDefs], with [W]
    and [A] a stem followed by an optional class of endings. *)
Definition re_weekday (stem : string) (ends : string) (prep : string) (ends' : string)
  : regex :=
  let word e := match e with
                | EmptyString => lit (js stem)
                | _ => Cat (lit (js stem)) (Cls (oneOf (js e)))
                end in
  Alt (cats [WordB; word ends; WordB])
      (cats [WordB; lit (js prep); spaces1; word ends'; WordB]).

(** The table [weekdayDefs], in its order, with [getDay]'s numbering.  The
    last class of the Saturday line holds a Latin [a], as the source does. *)
Definition weekdayDefs : list (regex * Z)%type :=
  [ (re_weekday "понедельник" "" "в" "", 1);
    (re_weekday "вторник" "" "во" "", 2);
    (re_weekday "сред" "ауы" "в" "ау", 3);
    (re_weekday "четверг" "" "в" "", 4);
    (re_weekday "пятниц" "ауы" "в" "ау", 5);
    (re_weekday "суббот" "ауы" "в" "уa", 6);
    (re_weekday "воскресенье" "" "в" "", 0) ].

(** [/(послезавтра)/], [/(завтра)/], [/(сегодня)/] *)
Definition re_poslezavtra : regex := Grp 1 (lit (js "послезавтра")).
Definition re_zavtra : regex := Grp 1 (lit (js "завтра")).
Definition re_segodnya : regex := Grp 1 (lit (js "сегодня")).

(** [/\b(\d{1,2})[.](\d{1,2})(?:[.](\d{4}))?\b/] *)
Definition re_dm : regex :=
  cats [WordB; Grp 1 (digits 1 2); dot; Grp 2 (digits 1 2);
        Opt (Cat dot (Grp 3 (digits 4 4))); WordB].

(** [/^(\d{4})-(\d{2})-(\d{2})T(\d{2}):(\d{2}):(\d{2})$/] *)
Definition re_localPlain : regex :=
  cats [Bos; Grp 1 (digits 4 4); lit (js "-"); Grp 2 (digits 2 2); lit (js "-");
        Grp 3 (digits 2 2); lit (js "T"); Grp 4 (digits 2 2); lit (js ":");
        Grp 5 (digits 2 2); lit (js ":"); Grp 6 (digits 2 2); Eos].

(** [/\b\d{4}-\d{2}-\d{2}\b/] *)
Definition re_isoDate : regex :=
  cats [WordB; digits 4 4; lit (js "-"); digits 2 2; lit (js "-"); digits 2 2; WordB].

(** [/\b\d{1,2}[.]\d{1,2}([.]\d{2,4})?\b/] *)
Definition re_dmLoose : regex :=
  cats [WordB; digits 1 2; dot; digits 1 2;
        Opt (Grp 1 (Cat dot (digits 2 4))); WordB].

(** [/(сегодня|завтра|послезавтра)/] *)
Definition re_relative : regex :=
  Grp 1 (alts [lit (js "сегодня"); lit (js "завтра"); lit (js "послезавтра")]).

(** [/(понедельник|вторник|среда|четверг|пятница|суббота|воскресенье)/] *)
Definition re_weekdayName : regex :=
  Grp 1 (alts [lit (js "понедельник"); lit (js "вторник"); lit (js "среда");
               lit (js "четверг"); lit (js "пятница"); lit (js "суббота");
               lit (js "воскресенье")]).

(* ================================================================== *)
(** * The temporal core *)

Record ExtractedTime : Type := mkTime { found : bool; t_h : Z; t_m : Z }.

Record WhenPair : Type := mkPair { utcISO : jsstring; localPlain : jsstring }.

(** The capture [m[i]] of a group that took part in the match. *)
Definition grp (m : MatchResult) (i : nat) : jsstring :=
  match group m i with Some s => s | None => [] end.

(** [extractTime] of [normalizeWhenLocalPair]. *)
Definition extractTime (source : jsstring) : ExtractedTime :=
  match exec re_timeAt source with
  | Some m1 =>
      mkTime true (clamp 0 23 (parseInt (grp m1 1)))
             (match group m1 2 with
              | Some s => clamp 0 59 (parseInt s)
              | None => 0
              end)
  | None =>
      match exec re_timeColon source with
      | Some m2 =>
          mkTime true (clamp 0 23 (parseInt (grp m2 1)))
                 (clamp 0 59 (parseInt (grp m2 2)))
      | None => mkTime false 12 0
      end
  end.

(** The first entry of [weekdayDefs] whose expression matches: what the
    [for] loop with its [return] selects. *)
Fixpoint firstWeekday (defs : list (regex * Z)%type) (lower : jsstring) : option Z :=
  match defs with
  | [] => None
  | (re, idx) :: more => if test re lower then Some idx else firstWeekday more lower
  end.

(** The canonical local string, [YYYY-MM-DDTHH:MM:00], as [build] writes it. *)
Definition canonical (y mo d h mi : Z) : jsstring :=
  numToString y ++ js "-" ++ pad2 mo ++ js "-" ++ pad2 d ++ js "T"
  ++ pad2 h ++ js ":" ++ pad2 mi ++ js ":00".

(** [normalizePhone(phone)] *)
Definition normalizePhone (phone : jsstring) : jsstring :=
  if negb (truthy phone) then []
  else
    let digits := stripNonDigits phone in
    if Nat.eqb (List.length digits) 11
       && match digits with
          | c :: _ => (c =? 56)%N || (c =? 55)%N
          | [] => false
          end
    then 55%N :: tl digits
    else if Nat.eqb (List.length digits) 10 then 55%N :: digits
    else digits.

(* ================================================================== *)
(** * The world of a tool call *)

(** A booking, with the columns of [SHEET_HEADER]; a column that is not set
    reads as the empty string, as [sheetLoadBookings] returns it. *)
Record Booking : Type := mkBooking {
  userId : Z;
  name : jsstring;
  phone : jsstring;
  phoneNormalized : jsstring;
  when : jsstring;
  createdAt : jsstring;
  updatedAt : jsstring;
  status : jsstring;
  canceledAt : jsstring
}.

(** What a tool call can read and change: the wall clock, as the values
    its successive [new Date()] return, the stored bookings (the sheet, or
    the file when there is no sheet: one store here), and the messages sent
    to the administrator. *)
Record World : Type := mkWorld {
  clock : nat -> Z;
  reads : nat;
  bookings : list Booking;
  adminInbox : list jsstring
}.

(** The value the next [new Date()] yields. *)
Definition timeNow (w : World) : Z := clock w (reads w).

Definition M (A : Type) : Type := World -> A * World.

Definition ret {A : Type} (a : A) : M A := fun w => (a, w).

Definition bind {A B : Type} (m : M A) (f : A -> M B) : M B :=
  fun w => let '(a, w') := m w in f a w'.

Notation "x <- m ;; k" := (bind m (fun x => k))
  (at level 61, m at next level, right associativity).
Notation "m ;;; k" := (bind m (fun _ => k))
  (at level 61, right associativity).

(** [new Date()] *)
Definition newDate : M Z :=
  fun w => (timeNow w, mkWorld (clock w) (S (reads w)) (bookings w) (adminInbox w)).

(** [loadBookings()] *)
Definition loadBookings : M (list Booking) := fun w => (bookings w, w).

(** [appendBooking(record)] *)
Definition appendBooking (record : Booking) : M unit :=
  fun w => (tt, mkWorld (clock w) (reads w) (bookings w ++ [record]) (adminInbox w)).

(** [saveBookings(list)] *)
Definition saveBookings (stored : list Booking) : M unit :=
  fun w => (tt, mkWorld (clock w) (reads w) stored (adminInbox w)).

(** [bot.api.sendMessage(ADMIN_CHAT_ID, text)] *)
Definition sendAdmin (text : jsstring) : M unit :=
  fun w => (tt, mkWorld (clock w) (reads w) (bookings w) (adminInbox w ++ [text])).

(** What a tool answers; [render] gives the text. *)
Inductive Reply : Type :=
| ClarifyDate (ddmmyyyy : jsstring)
| ClarifyPlain
| AlreadyBooked
| Created (name phone human : jsstring)
| NothingToReschedule
| Rescheduled (oldHuman human : jsstring)
| NoActiveBookings
| NotFound
| TooLate
| Canceled (human : jsstring).

Definition render (r : Reply) : jsstring :=
  match r with
  | ClarifyDate d =>
      js "Уточню: вы имеете в виду " ++ d
      ++ js "? Ответьте полной датой в формате ДД.ММ.ГГГГ."
  | ClarifyPlain => js "Уточните, пожалуйста, точную дату в формате ДД.ММ.ГГГГ."
  | AlreadyBooked =>
      js "Похоже, у вас уже есть запись на пробную тренировку. "
      ++ js "Если нужно изменить дату/время — напишите, я помогу."
  | Created n p h =>
      js "Запись создана: " ++ n ++ js ", " ++ p ++ js ", " ++ h
      ++ js ". Мы свяжемся для подтверждения."
  | NothingToReschedule =>
      js "Не нашёл существующую пробную запись для переноса. "
      ++ js "Если у вас её ещё нет — могу оформить новую."
  | Rescheduled o h =>
      js "Перенос выполнен: было «" ++ o ++ js "», стало «" ++ h ++ js "»."
  | NoActiveBookings => js "Не нашёл активных записей для отмены."
  | NotFound =>
      js "Не удалось найти запись с указанной датой/временем. Уточните, пожалуйста."
  | TooLate => js "Эту запись уже нельзя отменить (кажется, время прошло)."
  | Canceled h =>
      js "Запись отменена: " ++ h ++ js ". Могу помочь выбрать новую дату."
  end.

Definition isClarification (r : Reply) : bool :=
  match r with
  | ClarifyDate _ | ClarifyPlain => true
  | _ => false
  end.

Definition canceled : jsstring := js "canceled".

(** [b.status !== 'canceled'] *)
Definition notCanceled (b : Booking) : bool := negb (jsstring_eqb (status b) canceled).

(** A list with the index of each element: the tools change a booking in
    place, inside the list they loaded, and save that list. *)
Definition indexed {A : Type} (l : list A) : list (nat * A)%type :=
  combine (seq 0 (List.length l)) l.

Fixpoint updateAt {A : Type} (i : nat) (f : A -> A) (l : list A) : list A :=
  match l, i with
  | [], _ => []
  | x :: t, O => f x :: t
  | x :: t, S j => x :: updateAt j f t
  end.

(* ------------------------------------------------------------------ *)
(** ** The sheet: rows and objects *)

(** [SHEET_HEADER] *)
Definition SHEET_HEADER : list jsstring :=
  map js ["userId"; "name"; "phone"; "phoneNormalized"; "when"; "createdAt";
          "updatedAt"; "status"; "canceledAt"]%string.

(** [record[k]] as the cell [String(v)], the empty cell for a column that
    is not set or not known.  (An id is an integer below 10^21, which
    [String] writes in plain decimal digits.) *)
Definition cellOf (record : Booking) (k : jsstring) : jsstring :=
  if jsstring_eqb k (js "userId") then numToString (userId record)
  else if jsstring_eqb k (js "name") then name record
  else if jsstring_eqb k (js "phone") then phone record
  else if jsstring_eqb k (js "phoneNormalized") then phoneNormalized record
  else if jsstring_eqb k (js "when") then when record
  else if jsstring_eqb k (js "createdAt") then createdAt record
  else if jsstring_eqb k (js "updatedAt") then updatedAt record
  else if jsstring_eqb k (js "status") then status record
  else if jsstring_eqb k (js "canceledAt") then canceledAt record
  else [].

(** The row [sheetAppendBooking] and [sheetSaveBookings] write for a
    record: [SHEET_HEADER.map(k => ...)]. *)
Definition recordToRow (record : Booking) : list jsstring :=
  map (cellOf record) SHEET_HEADER.

(** A value of a property of a loaded row: a number or a string. *)
Inductive jsvalue : Type :=
| VNum (n : Z)
| VStr (s : jsstring).

(** An object as its properties, in the order they were first set. *)
Definition jsobject : Type := list (jsstring * jsvalue)%type.

(** [obj[k] = v] *)
Fixpoint setProp (k : jsstring) (v : jsvalue) (obj : jsobject) : jsobject :=
  match obj with
  | [] => [(k, v)]
  | (k', v') :: more =>
      if jsstring_eqb k k' then (k, v) :: more else (k', v') :: setProp k v more
  end.

(** [obj[k]], [None] for [undefined]. *)
Fixpoint getProp (k : jsstring) (obj : jsobject) : option jsvalue :=
  match obj with
  | [] => None
  | (k', v') :: more => if jsstring_eqb k k' then Some v' else getProp k more
  end.

Section SheetRows.

(** [Number(s)] when it is an integer, [None] when it is [NaN]: part of
    the runtime. *)
Variable toNumber : jsstring -> option Z.

(** The inner loop of [sheetLoadBookings]:
    [obj[header[c]] = row[c] ?? ''] for every column [c] of the header. *)
Fixpoint fillObject (header row : list jsstring) (obj : jsobject) : jsobject :=
  match header with
  | [] => obj
  | k :: header' =>
      fillObject header' (tl row) (setProp k (VStr (hd [] row)) obj)
  end.

(** The object [sheetLoadBookings] makes of a row: the cells by the names
    of the header, and [userId] turned into a number when it is one. *)
Definition rowToObject (header row : list jsstring) : jsobject :=
  let obj := fillObject header row [] in
  match getProp (js "userId") obj with
  | Some (VStr s) =>
      if truthy s then
        match toNumber s with
        | Some n => setProp (js "userId") (VNum n) obj
        | None => obj
        end
      else obj
  | _ => obj
  end.

(** [sheetLoadBookings] on the values the sheet returned: the first row is
    the header, the others are the bookings. *)
Definition rowsToObjects (values : list (list jsstring)) : list jsobject :=
  match values with
  | [] => []
  | header :: rows => map (rowToObject header) rows
  end.

End SheetRows.

(** The object a booking is when it comes from the sheet. *)
Definition objectOf (b : Booking) : jsobject :=
  [ (js "userId", VNum (userId b)); (js "name", VStr (name b));
    (js "phone", VStr (phone b)); (js "phoneNormalized", VStr (phoneNormalized b));
    (js "when", VStr (when b)); (js "createdAt", VStr (createdAt b));
    (js "updatedAt", VStr (updatedAt b)); (js "status", VStr (status b));
    (js "canceledAt", VStr (canceledAt b)) ].

(* ------------------------------------------------------------------ *)
(** ** The answer sent to the chat *)

(** [parts.join(sep)] *)
Fixpoint join (sep : jsstring) (parts : list jsstring) : jsstring :=
  match parts with
  | [] => []
  | [x] => x
  | x :: more => x ++ sep ++ join sep more
  end.

(** [toolResultsToText(toolResults)]; a result is the string its tool
    returned, or [None] when it holds none (what [JSON.stringify] then
    gives, [filter(Boolean)] drops). *)
Definition toolResultsToText (toolResults : list (option jsstring)) : jsstring :=
  join [10%N]
       (filter truthy
               (map (fun r => match r with Some v => v | None => [] end) toolResults)).

(** [(toolOut && toolOut.trim()) || modelOut || 'Готово!'] of the message
    handlers, with [modelOut = (text && text.trim()) ? text.trim() : '']. *)
Definition chooseReply (toolOut text : jsstring) : jsstring :=
  let modelOut := if truthy text && truthy (trim text) then trim text else [] in
  orElse (if truthy toolOut then trim toolOut else toolOut)
         (orElse modelOut (js "Готово!")).

(* ------------------------------------------------------------------ *)
(** ** [get_upcoming_trial]: its answers and its sort *)

Inductive UpcomingReply : Type :=
| NoUpcoming
| Upcoming (human : jsstring).

Definition renderUpcoming (r : UpcomingReply) : jsstring :=
  match r with
  | NoUpcoming => js "Будущих записей не найдено."
  | Upcoming h => js "Ваша ближайшая запись: " ++ h ++ js ". Хотите отменить?"
  end.

(** [candidates.sort((a, b) => a.dt.getTime() - b.dt.getTime())]: the sort
    is stable, so it is the insertion of each candidate, from the last to the
    first, before the first one that is not earlier. *)
Fixpoint insertByTime (x : Booking * Z) (sorted : list (Booking * Z)%type)
  : list (Booking * Z)%type :=
  match sorted with
  | [] => [x]
  | y :: more => if snd x <=? snd y then x :: sorted else y :: insertByTime x more
  end.

Definition sortByTime (l : list (Booking * Z)%type) : list (Booking * Z)%type :=
  fold_right insertByTime [] l.

(** What the program takes from the JavaScript runtime and the environment
    it runs in:
    - [zoneOffset t]: the offset from UTC, in seconds, that the time zone
      database gives the configured [TIME_ZONE] at the instant [t] (what
      [Intl.DateTimeFormat] formats with);
    - [systemOffset t]: the same for the zone of the process itself, which
      [Date.prototype.getDay] reads;
    - [Date_parse s]: the time value of [new Date(s)], [None] for an
      invalid date.  The formats it accepts beyond the ISO one depend on
      the engine;
    - [ADMIN_CHAT_ID]: the chat of the administrator, when configured.
    Time values are taken in the range a [Date] can hold and in the common
    era, and [hour] in 0..23 (a formatter that writes midnight as 24 is
    outside the model). *)
Record Runtime : Type := mkRuntime {
  zoneOffset : Z -> Z;
  systemOffset : Z -> Z;
  Date_parse : jsstring -> option Z;
  ADMIN_CHAT_ID : option Z
}.

Section Runtime.

Variable rt : Runtime.

(** [getTzParts(date, TIME_ZONE)] *)
Definition getTzParts (date : Z) : TzParts := civilAt (zoneOffset rt date) date.

(** [getTzOffsetMinutes(date, TIME_ZONE)] *)
Definition getTzOffsetMinutes (date : Z) : Z :=
  let p := getTzParts date in
  let asUTC := Date_UTC (year p) (month p - 1) (day p) (hour p) (minute p) (second p) 0 in
  roundDiv (asUTC - date) 60000.

(** [formatLocalPlain(date, TIME_ZONE)] *)
Definition formatLocalPlain (date : Z) : jsstring :=
  let p := getTzParts date in
  numToString (year p) ++ js "-" ++ pad2 (month p) ++ js "-" ++ pad2 (day p)
  ++ js "T" ++ pad2 (hour p) ++ js ":" ++ pad2 (minute p) ++ js ":"
  ++ pad2 (second p).

(** [formatLocalRFC3339(date, TIME_ZONE)] *)
Definition formatLocalRFC3339 (date : Z) : jsstring :=
  let p := getTzParts date in
  let offMin := getTzOffsetMinutes date in
  let sign := if 0 <=? offMin then js "+" else js "-" in
  let abs := Z.abs offMin in
  let offH := abs / 60 in
  let offM := abs mod 60 in
  let offset := sign ++ pad2 offH ++ js ":" ++ pad2 offM in
  numToString (year p) ++ js "-" ++ pad2 (month p) ++ js "-" ++ pad2 (day p)
  ++ js "T" ++ pad2 (hour p) ++ js ":" ++ pad2 (minute p) ++ js ":"
  ++ pad2 (second p) ++ offset.

(** One turn of the loop of [zonedDateTimeToUTCISO]: the new guess, and
    whether it is within a minute of the old one. *)
Definition refineGuess (y mo d h mi : Z) (guessMs : Z) : Z * bool :=
  let offsetMin := getTzOffsetMinutes guessMs in
  let targetMs := Date_UTC y (mo - 1) d h mi 0 0 - offsetMin * 60000 in
  (targetMs, Z.abs (targetMs - guessMs) <? 60000).

(** The time value [zonedDateTimeToUTCISO] reaches after its two turns. *)
Definition zonedDateTimeToUTC (y mo d h mi : Z) : Z :=
  let guess0 := Date_UTC y (mo - 1) d h mi 0 0 in
  let '(guess1, close) := refineGuess y mo d h mi guess0 in
  if close then guess1 else fst (refineGuess y mo d h mi guess1).

(** [zonedDateTimeToUTCISO(y, mo, d, h, mi, TIME_ZONE)] *)
Definition zonedDateTimeToUTCISO (y mo d h mi : Z) : jsstring :=
  toISOString (zonedDateTimeToUTC y mo d h mi).

(** [new Date(iso).getDay()]: the weekday in the zone of the process,
    0 for Sunday. *)
Definition getDay (t : Z) : Z := ((t / 1000 + systemOffset rt t) / 86400 + 4) mod 7.

(** [addDaysLocalParts(parts, days)]; the result has no seconds in the
    source, [second] is 0 here and never read. *)
Definition addDaysLocalParts (parts : TzParts) (days : Z) : TzParts :=
  let guess := zonedDateTimeToUTC (year parts) (month parts) (day parts)
                                  (hour parts) (minute parts) in
  let next := guess + days * 24 * 60 * 60 * 1000 in
  let p := getTzParts next in
  mkParts (year p) (month p) (day p) (hour parts) (minute parts) 0.

(** [build] of [normalizeWhenLocalPair]. *)
Definition build (y mo d h mi : Z) : WhenPair :=
  mkPair (zonedDateTimeToUTCISO y mo d h mi) (canonical y mo d h mi).

(** The weekday branch, for the weekday number [idx] of the matching
    entry. *)
Definition weekdayBranch (nowParts : TzParts) (lower : jsstring) (idx : Z) : WhenPair :=
  let nowDate := zonedDateTimeToUTC (year nowParts) (month nowParts) (day nowParts)
                                    (hour nowParts) (minute nowParts) in
  let nowDOW := getDay nowDate in
  let t := extractTime lower in
  let h := if found t then t_h t else 12 in
  let m := if found t then t_m t else 0 in
  let delta := if idx - nowDOW <? 0 then idx - nowDOW + 7 else idx - nowDOW in
  let target :=
    addDaysLocalParts (mkParts (year nowParts) (month nowParts) (day nowParts) h m
                               (second nowParts)) delta in
  let targetDate := zonedDateTimeToUTC (year target) (month target) (day target) h m in
  let target' :=
    if targetDate <=? nowDate then addDaysLocalParts target 7 else target in
  build (year target') (month target') (day target') h m.

(** A relative day word: [days] civil days after today. *)
Definition relativeBranch (nowParts : TzParts) (lower : jsstring) (days : Z) : WhenPair :=
  let t := extractTime lower in
  let h := if found t then t_h t else 12 in
  let m := if found t then t_m t else 0 in
  let target :=
    addDaysLocalParts (mkParts (year nowParts) (month nowParts) (day nowParts) h m
                               (second nowParts)) days in
  build (year target) (month target) (day target) h m.

Definition todayBranch (nowParts : TzParts) (lower : jsstring) : WhenPair :=
  let t := extractTime lower in
  let h := if found t then t_h t else 12 in
  let m := if found t then t_m t else 0 in
  build (year nowParts) (month nowParts) (day nowParts) h m.

(** The numeric date branch, for the match [dm] of [re_dm]. *)
Definition numericBranch (nowParts : TzParts) (lower : jsstring) (dm : MatchResult)
  : WhenPair :=
  let day := parseInt (grp dm 1) in
  let month := parseInt (grp dm 2) in
  let year := match group dm 3 with
              | Some s => parseInt s
              | None => year nowParts
              end in
  let remainder := replaceFirst (matched dm) (js " ") lower in
  let t := extractTime remainder in
  let h := if found t then t_h t else 12 in
  let m := if found t then t_m t else 0 in
  build year month day h m.

(** The fallback: the text read as a timestamp, or handed back. *)
Definition fallbackBranch (src : jsstring) : WhenPair :=
  match Date_parse rt src with
  | Some parsed =>
      let p := getTzParts parsed in
      build (year p) (month p) (day p) (hour p) (minute p)
  | None => mkPair src src
  end.

(** [normalizeWhenLocalPair(input)], with the value [now] that its
    [new Date()] read. *)
Definition normalizeAt (now : Z) (input : jsstring) : WhenPair :=
  let src := trim input in
  let lower := toLowerCase src in
  let nowParts := getTzParts now in
  match firstWeekday weekdayDefs lower with
  | Some idx => weekdayBranch nowParts lower idx
  | None =>
      if test re_poslezavtra lower then relativeBranch nowParts lower 2
      else if test re_zavtra lower then relativeBranch nowParts lower 1
      else if test re_segodnya lower then todayBranch nowParts lower
      else
        match exec re_dm lower with
        | Some dm => numericBranch nowParts lower dm
        | None => fallbackBranch src
        end
  end.

(** [parseLocalPlainToDate(localPlain)]; the seconds of the string are
    matched and not used. *)
Definition parseLocalPlainToDate (s : jsstring) : option Z :=
  match exec re_localPlain s with
  | None => Date_parse rt s
  | Some m =>
      Some (zonedDateTimeToUTC (parseInt (grp m 1)) (parseInt (grp m 2))
                               (parseInt (grp m 3)) (parseInt (grp m 4))
                               (parseInt (grp m 5)))
  end.

(** [isLateNightLocal(TIME_ZONE)], with the value [now] of its
    [new Date()]. *)
Definition isLateNightAt (now : Z) : bool :=
  let h := hour (getTzParts now) in
  (22 <=? h) || (h <? 4).

(** [hasExplicitCalendarDate(input)] *)
Definition hasExplicitCalendarDate (input : jsstring) : bool :=
  let s := toLowerCase input in
  if test re_isoDate s then true
  else if test re_dmLoose s then true
  else false.

(** [containsRelativeOrWeekday(input)] *)
Definition containsRelativeOrWeekday (input : jsstring) : bool :=
  let s := toLowerCase input in
  if test re_relative s then true
  else if test re_weekdayName s then true
  else false.

(** [formatDateDDMMYYYY(date)] *)
Definition formatDateDDMMYYYY (date : jsstring) : jsstring :=
  match parseLocalPlainToDate date with
  | None => []
  | Some d =>
      let parts := getTzParts d in
      pad2 (day parts) ++ js "." ++ pad2 (month parts) ++ js "."
      ++ numToString (year parts)
  end.

(* ---------------------------------------------------------------- *)
(** ** The tools of [buildTools(telegramUserId)] *)

Variable telegramUserId : Z.

(** [normalizeWhenLocalPair(input)]: reads the clock, then resolves. *)
Definition normalizeWhenLocalPair (input : jsstring) : M WhenPair :=
  now <- newDate ;; ret (normalizeAt now input).

(** [isLateNightLocal(TIME_ZONE)] *)
Definition isLateNightLocal : M bool :=
  now <- newDate ;; ret (isLateNightAt now).

(** [isFutureDate(dt)]: the clock is read for a date only. *)
Definition isFutureDate (dt : option Z) : M bool :=
  match dt with
  | None => ret false
  | Some t => now <- newDate ;; ret (now <? t)
  end.

(** [parseWhenToDate(when)] *)
Definition parseWhenToDate (s : jsstring) : option Z := Date_parse rt s.

(** [d.toLocaleDateString('ru-RU', {timeZone, year, month, day})] of the
    parsed string, or the string itself when it is not a date. *)
Definition humanDate (s : jsstring) : jsstring :=
  match parseLocalPlainToDate s with
  | Some d =>
      let p := getTzParts d in
      pad2 (day p) ++ js "." ++ pad2 (month p) ++ js "." ++ numToString (year p)
  | None => s
  end.

Definition newline : jsstring := [10%N].

Definition adminLines (title : string) (record : Booking) (middle : list jsstring)
  : jsstring :=
  List.concat (map (fun l => l ++ newline)
              ([js title; js "Имя: " ++ name record; js "Телефон: " ++ phone record]
               ++ middle))
  ++ js "Telegram id: " ++ numToString (userId record).

Definition whenAdmin (text : jsstring) : M unit :=
  match ADMIN_CHAT_ID rt with
  | None => ret tt
  | Some _ => sendAdmin text
  end.

(** [notifyAdmin(record)] *)
Definition notifyAdmin (record : Booking) : M unit :=
  whenAdmin (adminLines "Новая запись на пробное занятие:" record
                        [js "Когда: " ++ when record]).

(** [notifyAdminReschedule(record, oldWhen)] *)
Definition notifyAdminReschedule (record : Booking) (oldWhen : jsstring) : M unit :=
  whenAdmin (adminLines "Перенос пробной тренировки:" record
                        [js "Было: " ++ oldWhen; js "Стало: " ++ when record]).

(** The condition of the late-night branch, evaluated left to right: the
    clock is read only when the text asks for it. *)
Definition lateNightCheck (text : jsstring) : M bool :=
  if containsRelativeOrWeekday text && negb (hasExplicitCalendarDate text)
  then isLateNightLocal
  else ret false.

(** The body of the late-night branch. *)
Definition clarify (text : jsstring) : M Reply :=
  p <- normalizeWhenLocalPair text ;;
  let ddmmyyyy := formatDateDDMMYYYY (localPlain p) in
  ret (if truthy ddmmyyyy then ClarifyDate ddmmyyyy else ClarifyPlain).

(** The test of [existing.some(...)] in [book_trial]. *)
Definition blocksBooking (phoneNorm : jsstring) (b : Booking) : bool :=
  let bPhone := normalizePhone (orElse (phoneNormalized b) (phone b)) in
  let isSameUserOrPhone :=
    (userId b =? telegramUserId)
    || (truthy phoneNorm && truthy bPhone && jsstring_eqb bPhone phoneNorm) in
  isSameUserOrPhone && notCanceled b.

(** [book_trial.execute({ name, phone, when })] *)
Definition book_trial (name phone when : jsstring) : M Reply :=
  late <- lateNightCheck when ;;
  if late then clarify when
  else
    let phoneNorm := normalizePhone phone in
    existing <- loadBookings ;;
    if existsb (blocksBooking phoneNorm) existing then ret AlreadyBooked
    else
      p <- normalizeWhenLocalPair when ;;
      created <- newDate ;;
      let record := mkBooking telegramUserId name phone phoneNorm (localPlain p)
                              (toISOString created) [] [] [] in
      appendBooking record ;;;
      notifyAdmin record ;;;
      ret (Created name phone (humanDate (localPlain p))).

(** The bookings of the user that are not canceled, with their places in
    the list. *)
Definition candidatesOf (stored : list Booking) : list (nat * Booking)%type :=
  filter (fun ib => (userId (snd ib) =? telegramUserId) && notCanceled (snd ib))
         (indexed stored).

(** [new Date(b.createdAt || 0).getTime()] *)
Definition createdTime (b : Booking) : option Z :=
  if truthy (createdAt b) then Date_parse rt (createdAt b) else Some 0.

(** [tCur >= tAcc], false when either is [NaN]. *)
Definition geTime (tCur tAcc : option Z) : bool :=
  match tCur, tAcc with
  | Some c, Some a => a <=? c
  | _, _ => false
  end.

(** [candidates.reduce((acc, cur) => tCur >= tAcc ? cur : acc)] *)
Definition freshest (first : nat * Booking) (others : list (nat * Booking)%type)
  : nat * Booking :=
  fold_left (fun acc cur =>
               if geTime (createdTime (snd cur)) (createdTime (snd acc))
               then cur else acc)
            others first.

(** [reschedule_trial.execute({ newWhen })] *)
Definition reschedule_trial (newWhen : jsstring) : M Reply :=
  stored <- loadBookings ;;
  match candidatesOf stored with
  | [] => ret NothingToReschedule
  | first :: others =>
      let target := freshest first others in
      let oldWhen := when (snd target) in
      late <- lateNightCheck newWhen ;;
      if late then clarify newWhen
      else
        p <- normalizeWhenLocalPair newWhen ;;
        updated <- newDate ;;
        let change b :=
          mkBooking (userId b) (name b) (phone b) (phoneNormalized b) (localPlain p)
                    (createdAt b) (toISOString updated) (status b) (canceledAt b) in
        saveBookings (updateAt (fst target) change stored) ;;;
        notifyAdminReschedule (change (snd target)) oldWhen ;;;
        ret (Rescheduled (humanDate oldWhen) (humanDate (localPlain p)))
  end.

(** [Math.abs(bd.getTime() - targetDt.getTime()) < 5 * 60 * 1000], false
    when either date is invalid. *)
Definition within5min (bd targetDt : option Z) : bool :=
  match bd, targetDt with
  | Some b, Some t => Z.abs (b - t) <? 5 * 60 * 1000
  | _, _ => false
  end.

Definition exactMatch (localPlain : jsstring) (b : Booking) : bool :=
  jsstring_eqb (trim (when b)) (trim localPlain).

Definition fuzzyMatch (localPlain : jsstring) (b : Booking) : bool :=
  within5min (parseLocalPlainToDate (when b)) (parseLocalPlainToDate localPlain).

(** The booking [cancel_trial] settles on: the first candidate with the
    same string, or else the first one within five minutes. *)
Definition findTarget (candidates : list (nat * Booking)%type) (localPlain : jsstring)
  : option (nat * Booking)%type :=
  match find (fun ib => exactMatch localPlain (snd ib)) candidates with
  | Some t => Some t
  | None => find (fun ib => fuzzyMatch localPlain (snd ib)) candidates
  end.

(** [cancel_trial.execute({ when })] *)
Definition cancel_trial (text : jsstring) : M Reply :=
  stored <- loadBookings ;;
  match candidatesOf stored with
  | [] => ret NoActiveBookings
  | candidates =>
      p <- normalizeWhenLocalPair text ;;
      match findTarget candidates (localPlain p) with
      | None => ret NotFound
      | Some target =>
          future <- isFutureDate (parseWhenToDate (when (snd target))) ;;
          if negb future then ret TooLate
          else
            at_ <- newDate ;;
            let change b :=
              mkBooking (userId b) (name b) (phone b) (phoneNormalized b) (when b)
                        (createdAt b) (updatedAt b) canceled (toISOString at_) in
            saveBookings (updateAt (fst target) change stored) ;;;
            whenAdmin (adminLines "Отмена пробной тренировки:" (snd target)
                                  [js "Когда: " ++ when (snd target)]) ;;;
            ret (Canceled (humanDate (when (snd target))))
      end
  end.

(** The second filter of [get_upcoming_trial]: each booking with its parsed
    date, kept when [isFutureDate] says so (one look at the clock for every
    date that parsed). *)
Fixpoint keepFuture (l : list Booking) : M (list (Booking * Z)%type) :=
  match l with
  | [] => ret []
  | b :: more =>
      let dt := parseWhenToDate (when b) in
      future <- isFutureDate dt ;;
      kept <- keepFuture more ;;
      ret (match dt with
           | Some t => if future then (b, t) :: kept else kept
           | None => kept
           end)
  end.

(** [get_upcoming_trial.execute()] *)
Definition get_upcoming_trial : M UpcomingReply :=
  stored <- loadBookings ;;
  candidates <- keepFuture (map snd (candidatesOf stored)) ;;
  match sortByTime candidates with
  | [] => ret NoUpcoming
  | target :: _ => ret (Upcoming (humanDate (when (fst target))))
  end.

End Runtime.

(* ================================================================== *)
(** * A concrete runtime for the examples *)

(** Asia/Omsk, the default [TIME_ZONE]: UTC+6 all year. *)
Definition omsk : Z -> Z := fun _ => 21600.

(** A process that runs in UTC. *)
Definition utc : Z -> Z := fun _ => 0.

(** [/^(\d{4})-(\d{2})-(\d{2})(?:T(\d{2}):(\d{2})(?::(\d{2})(?:[.](\d{3}))?)?(Z|[+-]\d{2}:\d{2})?)?$/]:
    the date-time format of the standard. *)
Definition re_isoDateTime : regex :=
  cats [Bos; Grp 1 (digits 4 4); lit (js "-"); Grp 2 (digits 2 2); lit (js "-");
        Grp 3 (digits 2 2);
        Opt (cats [lit (js "T"); Grp 4 (digits 2 2); lit (js ":"); Grp 5 (digits 2 2);
                   Opt (cats [lit (js ":"); Grp 6 (digits 2 2);
                              Opt (Cat dot (Grp 7 (digits 3 3)))]);
                   Opt (Grp 8 (Alt (lit (js "Z"))
                                   (cats [Cls (oneOf (js "+-")); digits 2 2;
                                          lit (js ":"); digits 2 2])))]);
        Eos].

Definition groupInt (m : MatchResult) (i : nat) : Z :=
  match group m i with Some s => parseInt s | None => 0 end.

(** A [Date.parse] that reads the date-time format of the standard, and
    nothing else: a date alone is UTC, a date and time without an offset is
    local time, at the fixed offset [localSec].  Engines read more formats;
    none reads a word. *)
Definition isoParse (localSec : Z) (s : jsstring) : option Z :=
  match exec re_isoDateTime s with
  | None => None
  | Some m =>
      let mo := groupInt m 2 in
      let d := groupInt m 3 in
      let h := groupInt m 4 in
      let mi := groupInt m 5 in
      let sec := groupInt m 6 in
      if (1 <=? mo) && (mo <=? 12) && (1 <=? d) && (d <=? 31) && (h <=? 23)
         && (mi <=? 59) && (sec <=? 59)
      then
        let fields :=
          MakeDay (groupInt m 1) (mo - 1) d * msPerDay
          + h * 3600000 + mi * 60000 + sec * 1000 + groupInt m 7 in
        let offsetSec :=
          match group m 8, group m 4 with
          | Some (sign :: h1 :: h2 :: _ :: m1 :: m2 :: _), _ =>
              (if (sign =? 45)%N then -1 else 1)
              * (parseInt [h1; h2] * 3600 + parseInt [m1; m2] * 60)
          | Some _, _ => 0
          | None, Some _ => localSec
          | None, None => 0
          end in
        Some (fields - offsetSec * 1000)
      else None
  end.

(** The bot in Omsk, on a server that runs in UTC, with no administrator
    chat. *)
Definition omskRuntime : Runtime := mkRuntime omsk utc (isoParse 0) None.

(** A world whose clock stands at [t], with the given bookings. *)
Definition worldAt (t : Z) (stored : list Booking) : World :=
  mkWorld (fun _ => t) 0 stored [].

(** 2025-10-04T23:10:00 in Omsk (17:10:00Z), a Saturday. *)
Definition saturdayNight : Z := Date_UTC 2025 9 4 17 10 0 0.

(** 2025-10-04T10:00:00 in Omsk. *)
Definition saturdayMorning : Z := Date_UTC 2025 9 4 4 0 0 0.

(** The first weekday phrases a user writes: "on Monday", ..., "on Sunday",
    and the bare names. *)
Definition weekdayPhrases : list jsstring :=
  map js ["в понедельник"; "во вторник"; "в среду"; "в четверг"; "в пятницу";
          "в субботу"; "в воскресенье"; "понедельник"; "вторник"; "среда";
          "четверг"; "пятница"; "суббота"; "воскресенье"]%string.

(** An expression every match of which starts at a word boundary. *)
Fixpoint startsAtBoundary (r : regex) : bool :=
  match r with
  | Cat WordB _ => true
  | Alt a b => startsAtBoundary a && startsAtBoundary b
  | _ => false
  end.

Definition noWordChars (s : jsstring) : bool := forallb (fun c => negb (isWordChar c)) s.

(* ================================================================== *)
(** * Definitions the statements use *)

(** Only the count of clock reads has moved from [w] to [w']. *)
Definition sameStore (w w' : World) : Prop :=
  bookings w' = bookings w /\ adminInbox w' = adminInbox w /\ clock w' = clock w.

(** The candidate date the late-night branch shows, for the clock value
    [now] that its [normalizeWhenLocalPair] read. *)
Definition candidateDate (rt : Runtime) (now : Z) (text : jsstring) : jsstring :=
  formatDateDDMMYYYY rt (localPlain (normalizeAt rt now text)).

(** A booking of user 42, not canceled. *)
Definition ivanBooking : Booking :=
  mkBooking 42 (js "Иван") (js "+7 999 123-45-67") (js "79991234567")
            (js "2025-10-10T12:00:00") (js "2025-10-01T08:00:00.000Z") [] [] [].

(** A booking whose phone holds no digit. *)
Definition annaBooking : Booking :=
  mkBooking 42 (js "Анна") (js "ааааа") [] (js "2025-10-10T12:00:00")
            (js "2025-10-01T08:00:00.000Z") [] [] [].

(** The rule of the data model: the stored string and the resolved string
    are equal once trimmed, or the instants re-derived from the two strings
    are less than five minutes apart. *)
Definition refersTo (rt : Runtime) (localPlain : jsstring) (b : Booking) : Prop :=
  trim (when b) = trim localPlain
  \/ exists x y,
      parseLocalPlainToDate rt (when b) = Some x
      /\ parseLocalPlainToDate rt localPlain = Some y
      /\ Z.abs (x - y) < 5 * 60 * 1000.

(** Whether a match was found. *)
Definition isSome {A : Type} (o : option A) : bool :=
  match o with Some _ => true | None => false end.

(** Two positions that the matcher cannot tell apart. *)
Definition sameView (c c' : cursor) : Prop := prev c = prev c' /\ rest c = rest c'.

(** Two continuations that succeed on the same positions. *)
Definition agree {A B : Type} (k : cursor -> option A) (k' : cursor -> option B) : Prop :=
  forall d d', sameView d d' -> isSome (k d) = isSome (k' d').

(** [r] matches at the start of [s], after the code unit [pv]. *)
Definition accepts (r : regex) (pv : option N) (s : jsstring) : bool :=
  isSome (matchAt r pv s 0).

(** [r] matches somewhere in [s]. *)
Fixpoint anyFrom (r : regex) (pv : option N) (s : jsstring) : bool :=
  accepts r pv s
  || match s with
     | [] => false
     | c :: t => anyFrom r (Some c) t
     end.

(** What a literal consumes. *)
Fixpoint eat (w : jsstring) (c : cursor) : option cursor :=
  match w with
  | [] => Some c
  | x :: w' =>
      match rest c with
      | y :: t =>
          if (x =? y)%N then eat w' (mkCursor (Some y) t (S (pos c)) (caps c)) else None
      | [] => None
      end
  end.

(** The weekday names as the table of the parser spells them, endings
    included, and anywhere in the text. *)
Definition re_weekdayForms : regex :=
  alts [lit (js "понедельник"); lit (js "вторник");
        Cat (lit (js "сред")) (Cls (oneOf (js "ауы")));
        lit (js "четверг");
        Cat (lit (js "пятниц")) (Cls (oneOf (js "ауы")));
        Cat (lit (js "суббот")) (Cls (oneOf (js "ауы")));
        lit (js "воскресенье")].

(** A relative day word, or a weekday name in any of those forms. *)
Definition namesRelativeOrWeekday (text : jsstring) : bool :=
  let s := toLowerCase text in
  test re_relative s || test re_weekdayForms s.

(** The forms of Wednesday, Friday and Saturday that differ from the
    dictionary form. *)
Definition re_declined : regex :=
  alts [Cat (lit (js "сред")) (Cls (oneOf (js "уы")));
        Cat (lit (js "пятниц")) (Cls (oneOf (js "уы")));
        Cat (lit (js "суббот")) (Cls (oneOf (js "уы")))].

(** The text holds one of them. *)
Definition hasDeclinedWeekday (text : jsstring) : bool :=
  test re_declined (toLowerCase text).

(** The position after the code units [ds]. *)
Definition after (c : cursor) (ds rest' : jsstring) : cursor :=
  mkCursor (fold_left (fun _ x => Some x) ds (prev c)) rest'
           (pos c + List.length ds) (caps c).

(** A match of the numeric date expression: one or two digits, a dot, one or
    two digits and, when it is there, a dot and four digits. *)
Definition isNumericDate (dm : MatchResult) : Prop :=
  exists D M,
    group dm 1 = Some D /\ group dm 2 = Some M
    /\ forallb isDigit D = true /\ (1 <= List.length D <= 2)%nat
    /\ forallb isDigit M = true /\ (1 <= List.length M <= 2)%nat
    /\ ((group dm 3 = None /\ matched dm = D ++ js "." ++ M)
        \/ exists Y, group dm 3 = Some Y /\ forallb isDigit Y = true
                     /\ List.length Y = 4%nat
                     /\ matched dm = D ++ js "." ++ M ++ js "." ++ Y).

(** The instant at which a zone [o] minutes east of UTC reads the time
    [h]:[mi] on the day number [z] (days since 1970-01-01). *)
Definition instantAt (o z h mi : Z) : Z :=
  (z * 86400 + h * 3600 + mi * 60) * 1000 - 60000 * o.

(** The day number of the local date of the instant [t] in that zone. *)
Definition localDay (o t : Z) : Z := (t / 1000 + 60 * o) / 86400.

(** The configured zone keeps the offset of [o] whole minutes at every
    instant. *)
Definition constantZone (rt : Runtime) (o : Z) : Prop :=
  forall u, zoneOffset rt u = 60 * o.

(** The process runs in a zone with that offset too. *)
Definition constantSystemZone (rt : Runtime) (o : Z) : Prop :=
  forall u, systemOffset rt u = 60 * o.

(** The hour and the minute a branch of the resolver settles on: the time
    found in the text, or 12:00. *)
Definition hourOf (text : jsstring) : Z :=
  if found (extractTime text) then t_h (extractTime text) else 12.

Definition minuteOf (text : jsstring) : Z :=
  if found (extractTime text) then t_m (extractTime text) else 0.

(** The days a relative word adds: the first of "послезавтра", "завтра",
    "сегодня" that the text holds. *)
Definition relativeDays (lower : jsstring) : option Z :=
  if test re_poslezavtra lower then Some 2
  else if test re_zavtra lower then Some 1
  else if test re_segodnya lower then Some 0
  else None.

(** The booking [b] moved to [newWhen], stamped [stamp]: what
    [reschedule_trial] writes in the place of [b]. *)
Definition moved (newWhen stamp : jsstring) (b : Booking) : Booking :=
  mkBooking (userId b) (name b) (phone b) (phoneNormalized b) newWhen
            (createdAt b) stamp (status b) (canceledAt b).

(** The booking [b] canceled at [stamp]: what [cancel_trial] writes in the
    place of [b]. *)
Definition canceledAtStamp (stamp : jsstring) (b : Booking) : Booking :=
  mkBooking (userId b) (name b) (phone b) (phoneNormalized b) (when b)
            (createdAt b) (updatedAt b) canceled stamp.

(** The answers of the tools that report a change of the store. *)
Definition reportsChange (r : Reply) : bool :=
  match r with
  | Created _ _ _ | Rescheduled _ _ | Canceled _ => true
  | _ => false
  end.

(** The outcome of a tool call keeps the administrator informed: an answer
    that reports no change leaves the bookings and the messages as they
    were, and one that reports a change comes with exactly one more message
    when an administrator chat is configured, and with none otherwise. *)
Definition notifiesOnChange (rt : Runtime) (w : World) (res : Reply * World) : Prop :=
  (reportsChange (fst res) = false ->
   bookings (snd res) = bookings w /\ adminInbox (snd res) = adminInbox w)
  /\ (reportsChange (fst res) = true ->
      exists msg,
        adminInbox (snd res)
        = adminInbox w ++ match ADMIN_CHAT_ID rt with Some _ => [msg] | None => [] end).

(** A booking that [get_upcoming_trial] may show when the clock reads
    [now]: one of the user's, not canceled, whose [when] reads as a date
    [t] after [now]. *)
Definition upcomingOf (rt : Runtime) (uid : Z) (w : World) (now : Z)
           (b : Booking) (t : Z) : Prop :=
  In b (bookings w) /\ userId b = uid /\ status b <> canceled
  /\ parseWhenToDate rt (when b) = Some t /\ now < t.

(** A [Number] that reads a run of decimal digits and takes anything else
    for [NaN].  (Engines read more: signs, exponents, white space around.) *)
Definition decimalNumber (s : jsstring) : option Z :=
  if truthy s && forallb isDigit s then Some (parseInt s) else None.

(** The row of a booking as the sheet returns it: the cells written, with
    or without the empty cells at the end of the row. *)
Definition rowOf (b : Booking) (row : list jsstring) : Prop :=
  exists k, recordToRow b = row ++ repeat [] k.

(** The code unit before the position that follows [pre], when the one
    before [pre] was [pv]. *)
Definition prevAfter (pv : option N) (pre : jsstring) : option N :=
  fold_left (fun _ x => Some x) pre pv.

(** A word boundary between the code unit [pv] and the text [s]. *)
Definition boundaryAt (pv : option N) (s : jsstring) : bool :=
  xorb (isWordOpt pv) (isWordOpt (hd_error s)).

(** What a match of the numeric date expression needs of the text [s] that
    follows the code unit [pv]: a word boundary, one or two digits, a dot,
    one or two digits, and then a word boundary, or else a dot, four digits
    and a word boundary. *)
Definition numericDateAt (pv : option N) (s : jsstring) : Prop :=
  boundaryAt pv s = true
  /\ exists D M r,
      s = D ++ 46%N :: M ++ r
      /\ forallb isDigit D = true /\ (1 <= List.length D <= 2)%nat
      /\ forallb isDigit M = true /\ (1 <= List.length M <= 2)%nat
      /\ (boundaryAt (prevAfter (Some 46%N) M) r = true
          \/ exists Y r',
              r = 46%N :: Y ++ r' /\ forallb isDigit Y = true
              /\ List.length Y = 4%nat
              /\ boundaryAt (prevAfter (Some 46%N) Y) r' = true).

(** The preposition "в" stands right after an ASCII word character
    somewhere in the text [s] that follows the code unit [pv]: the only
    places where [/\bв.../] can start. *)
Fixpoint prepositionAfterWord (pv : option N) (s : jsstring) : bool :=
  match s with
  | [] => false
  | c :: t => (isWordOpt pv && (c =? 1074)%N) || prepositionAfterWord (Some c) t
  end.

(** Proof steps for closed examples: every conjunct is settled by running
    the definitions. *)
Ltac split_all := repeat match goal with |- _ /\ _ => split end.
Ltac by_computation := vm_compute; reflexivity.
Ltac differ := let H := fresh in intro H; vm_compute in H; discriminate.
Ltac run_example :=
  cbv zeta; split_all;
  match goal with
  | |- _ <> _ => differ
  | |- _ => by_computation
  end.

(* ================================================================== *)
(** * Strings and the matcher: basic facts *)

Lemma jsstring_eqb_eq (a b : jsstring) : jsstring_eqb a b = true <-> a = b.
Proof.
  unfold jsstring_eqb. destruct (list_eq_dec N.eq_dec a b); split; congruence.
Qed.

Lemma jsstring_eqb_refl (a : jsstring) : jsstring_eqb a a = true.
Proof. now apply jsstring_eqb_eq. Qed.

Lemma jsstring_eqb_neq (a b : jsstring) : jsstring_eqb a b = false <-> a <> b.
Proof.
  unfold jsstring_eqb. destruct (list_eq_dec N.eq_dec a b); split; congruence.
Qed.

Lemma run_boundary_fails {A} (r : regex) (c : cursor) (k : cursor -> option A) :
  startsAtBoundary r = true -> atBoundary c = false -> run r c k = None.
Proof.
  induction r; simpl; try discriminate.
  - destruct r1; try discriminate. intros _ Hb. simpl. now rewrite Hb.
  - intros H Hb. apply andb_prop in H as [H1 H2].
    now rewrite IHr1, IHr2.
Qed.

Lemma search_boundary_fails (r : regex) (s : jsstring) :
  startsAtBoundary r = true ->
  forall pv i, isWordOpt pv = false -> noWordChars s = true ->
  searchFrom r pv s i = None.
Proof.
  intros Hr. induction s as [|c t IH]; intros pv i Hpv Hs; simpl.
  - unfold matchAt. rewrite run_boundary_fails; auto.
    unfold atBoundary. simpl. now rewrite Hpv.
  - simpl in Hs. apply andb_prop in Hs as [Hc Ht].
    apply negb_true_iff in Hc.
    assert (Hb : atBoundary (mkCursor pv (c :: t) i []) = false).
    { unfold atBoundary. simpl. now rewrite Hpv, Hc. }
    unfold matchAt. rewrite (run_boundary_fails _ _ _ Hr Hb).
    apply IH; auto.
Qed.

Lemma test_boundary_fails (r : regex) (s : jsstring) :
  startsAtBoundary r = true -> noWordChars s = true -> test r s = false.
Proof.
  intros Hr Hs. unfold test, exec. now rewrite search_boundary_fails.
Qed.

(** No line of [weekdayDefs] can match a text without ASCII letters, digits
    or underscores: each alternative opens with [\b], and a Cyrillic letter
    is not a word character, so there is no boundary around it. *)
Lemma firstWeekday_needs_word_chars (lower : jsstring) :
  noWordChars lower = true -> firstWeekday weekdayDefs lower = None.
Proof.
  intros H. unfold weekdayDefs, firstWeekday.
  repeat (rewrite test_boundary_fails; [ | reflexivity | exact H ]).
  reflexivity.
Qed.

Section RuntimeFacts.
Variable rt : Runtime.

Lemma normalizeAt_fallback (now : Z) (input : jsstring) :
  let lower := toLowerCase (trim input) in
  firstWeekday weekdayDefs lower = None ->
  test re_poslezavtra lower = false ->
  test re_zavtra lower = false ->
  test re_segodnya lower = false ->
  exec re_dm lower = None ->
  normalizeAt rt now input = fallbackBranch rt (trim input).
Proof.
  intros lower Hw H2 H1 H0 Hdm. unfold normalizeAt.
  fold lower. now rewrite Hw, H2, H1, H0, Hdm.
Qed.

End RuntimeFacts.

(** C1 (the code at the failing inputs).  Whatever the clock and the zones,
    a weekday phrase such as "в пятницу" reaches none of the rules of
    [normalizeWhenLocalPair]: the answer is the fallback's, which hands the
    text back unless [new Date(text)] is a date, and no weekday arithmetic
    is done.  The same holds of every text without ASCII letters, digits and
    underscores. *)
Theorem weekday_phrases_fall_through :
  forall rt : Runtime,
    Forall (fun phrase =>
              firstWeekday weekdayDefs (toLowerCase (trim phrase)) = None
              /\ forall now,
                  normalizeAt rt now phrase
                  = match Date_parse rt phrase with
                    | None => mkPair phrase phrase
                    | Some _ => fallbackBranch rt phrase
                    end)
           weekdayPhrases
    /\ (forall text,
          noWordChars (toLowerCase (trim text)) = true ->
          firstWeekday weekdayDefs (toLowerCase (trim text)) = None).
Proof.
  intros rt. split; [|intros text; apply firstWeekday_needs_word_chars].
  unfold weekdayPhrases. simpl map.
  repeat (apply Forall_cons;
          [ split;
            [ apply firstWeekday_needs_word_chars; by_computation
            | intros now; rewrite normalizeAt_fallback;
              [ | apply firstWeekday_needs_word_chars; by_computation
                | by_computation .. ];
              match goal with
              | |- fallbackBranch _ (trim ?p) = _ =>
                  replace (trim p) with p by by_computation
              end;
              unfold fallbackBranch; destruct (Date_parse rt _); reflexivity ]
          | ]).
  apply Forall_nil.
Qed.

(** The weekday branch is reached when ASCII word characters touch the
    name.  The weekday of now is then the one [getDay] gives in the zone of
    the process: at 02:00 on Saturday in Omsk, Friday evening in UTC, a
    request for Saturday resolves to Sunday the 5th. *)
Lemma weekday_is_read_in_the_process_zone :
  let now := Date_UTC 2025 9 3 20 0 0 0 in
  firstWeekday weekdayDefs (js "1субботу1") = Some 6
  /\ (year (getTzParts omskRuntime now), month (getTzParts omskRuntime now),
      day (getTzParts omskRuntime now), hour (getTzParts omskRuntime now))
     = (2025, 10, 4, 2)
  /\ getDay omskRuntime now = 5
  /\ localPlain (normalizeAt omskRuntime now (js "1субботу1")) = js "2025-10-05T12:00:00".
Proof.
  run_example.
Qed.

(** A time written as "в 9" after a space is not read either, for the same
    reason: [/\bв.../] needs a word character before the preposition. *)
Lemma time_after_a_space_is_not_read :
  found (extractTime (js "завтра в 9")) = false
  /\ localPlain (normalizeAt omskRuntime saturdayMorning (js "завтра в 9"))
     = js "2025-10-05T12:00:00".
Proof.
  run_example.
Qed.

(* ================================================================== *)
(** * The tools and the world: what a call can change *)

Section ToolFacts.
Variable rt : Runtime.
Variable uid : Z.

Lemma sameStore_refl w : sameStore w w.
Proof. repeat split. Qed.

Lemma sameStore_trans w1 w2 w3 :
  sameStore w1 w2 -> sameStore w2 w3 -> sameStore w1 w3.
Proof. unfold sameStore. intros (a & b & c) (d & e & f). repeat split; congruence. Qed.

Lemma newDate_run w :
  newDate w = (timeNow w, mkWorld (clock w) (S (reads w)) (bookings w) (adminInbox w)).
Proof. reflexivity. Qed.

Lemma normalizeWhenLocalPair_run text w :
  normalizeWhenLocalPair rt text w
  = (normalizeAt rt (timeNow w) text,
     mkWorld (clock w) (S (reads w)) (bookings w) (adminInbox w)).
Proof. reflexivity. Qed.

Lemma lateNightCheck_value text w :
  fst (lateNightCheck rt text w)
  = containsRelativeOrWeekday text && negb (hasExplicitCalendarDate text)
    && isLateNightAt rt (timeNow w).
Proof.
  unfold lateNightCheck.
  destruct (containsRelativeOrWeekday text && negb (hasExplicitCalendarDate text));
    reflexivity.
Qed.

Lemma lateNightCheck_store text w : sameStore w (snd (lateNightCheck rt text w)).
Proof.
  unfold lateNightCheck.
  destruct (containsRelativeOrWeekday text && negb (hasExplicitCalendarDate text));
    repeat split.
Qed.

Lemma clarify_value text w :
  fst (clarify rt text w)
  = if truthy (candidateDate rt (timeNow w) text)
    then ClarifyDate (candidateDate rt (timeNow w) text) else ClarifyPlain.
Proof. reflexivity. Qed.

Lemma clarify_store text w : sameStore w (snd (clarify rt text w)).
Proof. repeat split. Qed.

Lemma clarify_isClarification text w : isClarification (fst (clarify rt text w)) = true.
Proof. rewrite clarify_value. destruct (truthy _); reflexivity. Qed.

(** [book_trial], branch by branch. *)
Lemma book_trial_late name phone text w :
  fst (lateNightCheck rt text w) = true ->
  book_trial rt uid name phone text w = clarify rt text (snd (lateNightCheck rt text w)).
Proof.
  intros H. unfold book_trial, bind.
  destruct (lateNightCheck rt text w) as [late w1]. simpl in H. now subst.
Qed.

Lemma book_trial_blocked name phone text w :
  fst (lateNightCheck rt text w) = false ->
  existsb (blocksBooking uid (normalizePhone phone)) (bookings w) = true ->
  book_trial rt uid name phone text w = (AlreadyBooked, snd (lateNightCheck rt text w)).
Proof.
  intros H Hex. unfold book_trial, bind.
  pose proof (lateNightCheck_store text w) as (Hb & _).
  destruct (lateNightCheck rt text w) as [late w1]. simpl in *. subst late.
  unfold loadBookings. rewrite Hb, Hex. reflexivity.
Qed.

Lemma book_trial_free name phone text w :
  fst (lateNightCheck rt text w) = false ->
  existsb (blocksBooking uid (normalizePhone phone)) (bookings w) = false ->
  exists record human w',
    book_trial rt uid name phone text w = (Created name phone human, w')
    /\ bookings w' = bookings w ++ [record]
    /\ userId record = uid /\ phoneNormalized record = normalizePhone phone
    /\ status record = [].
Proof.
  intros H Hex. unfold book_trial, bind.
  pose proof (lateNightCheck_store text w) as (Hb & _).
  destruct (lateNightCheck rt text w) as [late w1]. simpl in *. subst late.
  unfold loadBookings. rewrite Hb, Hex.
  unfold notifyAdmin, whenAdmin, sendAdmin, ret.
  destruct (ADMIN_CHAT_ID rt); simpl; do 3 eexists;
    (split; [reflexivity|]); simpl; rewrite Hb; repeat split.
Qed.

Lemma blocksBooking_same_user phoneNorm b :
  userId b = uid -> status b <> canceled -> blocksBooking uid phoneNorm b = true.
Proof.
  intros Hu Hs. unfold blocksBooking, notCanceled.
  apply Z.eqb_eq in Hu. rewrite Hu. simpl.
  apply jsstring_eqb_neq in Hs. now rewrite Hs.
Qed.

Lemma blocksBooking_same_phone phoneNorm b :
  normalizePhone (orElse (phoneNormalized b) (phone b)) = phoneNorm ->
  phoneNorm <> [] -> status b <> canceled ->
  blocksBooking uid phoneNorm b = true.
Proof.
  intros Hp Hne Hs. unfold blocksBooking, notCanceled.
  rewrite Hp, jsstring_eqb_refl.
  apply jsstring_eqb_neq in Hs. rewrite Hs.
  destruct phoneNorm; [congruence|]. simpl. now rewrite orb_true_r.
Qed.

Lemma book_trial_reply_cases name phone text w :
  let r := fst (book_trial rt uid name phone text w) in
  (fst (lateNightCheck rt text w) = true /\ isClarification r = true)
  \/ (fst (lateNightCheck rt text w) = false
      /\ (r = AlreadyBooked \/ exists human, r = Created name phone human)).
Proof.
  simpl. destruct (fst (lateNightCheck rt text w)) eqn:Hl.
  - left. split; [reflexivity|]. rewrite book_trial_late by exact Hl.
    apply clarify_isClarification.
  - right. split; [reflexivity|].
    destruct (existsb (blocksBooking uid (normalizePhone phone)) (bookings w)) eqn:Hex.
    + left. now rewrite book_trial_blocked.
    + right. destruct (book_trial_free name phone text w Hl Hex) as (rec & human & w' & E & _).
      exists human. now rewrite E.
Qed.

(** [reschedule_trial], up to its late-night branch. *)
Lemma reschedule_trial_none text w :
  candidatesOf uid (bookings w) = [] ->
  reschedule_trial rt uid text w = (NothingToReschedule, w).
Proof.
  intros H. unfold reschedule_trial, bind, loadBookings. now rewrite H.
Qed.

Lemma reschedule_trial_late text w :
  candidatesOf uid (bookings w) <> [] ->
  fst (lateNightCheck rt text w) = true ->
  reschedule_trial rt uid text w = clarify rt text (snd (lateNightCheck rt text w)).
Proof.
  intros Hc H. unfold reschedule_trial, bind, loadBookings.
  destruct (candidatesOf uid (bookings w)) as [|first others]; [congruence|].
  destruct (lateNightCheck rt text w) as [late w1]. simpl in H. now subst.
Qed.

Lemma reschedule_trial_day text w :
  candidatesOf uid (bookings w) <> [] ->
  fst (lateNightCheck rt text w) = false ->
  exists o h, fst (reschedule_trial rt uid text w) = Rescheduled o h.
Proof.
  intros Hc H. unfold reschedule_trial, bind, loadBookings.
  destruct (candidatesOf uid (bookings w)) as [|first others]; [congruence|].
  destruct (lateNightCheck rt text w) as [late w1]. simpl in H. subst.
  rewrite normalizeWhenLocalPair_run, newDate_run. simpl.
  unfold notifyAdminReschedule, whenAdmin, sendAdmin, ret.
  destruct (ADMIN_CHAT_ID rt); simpl; eauto.
Qed.

End ToolFacts.

(* ================================================================== *)
(** * The claims about the tools *)

(** C9 (amended).  A text that matches no weekday, relative-word or
    numeric-date rule and that [new Date] does not read as a timestamp comes
    back as both outputs with its leading and trailing white space trimmed
    (so unchanged when it has none). *)
Theorem unmatched_text_comes_back_trimmed (rt : Runtime) (now : Z) (input : jsstring) :
  let src := trim input in
  let lower := toLowerCase src in
  firstWeekday weekdayDefs lower = None ->
  test re_poslezavtra lower = false ->
  test re_zavtra lower = false ->
  test re_segodnya lower = false ->
  exec re_dm lower = None ->
  Date_parse rt src = None ->
  normalizeAt rt now input = mkPair src src
  /\ (trim input = input -> normalizeAt rt now input = mkPair input input).
Proof.
  intros src lower Hw H2 H1 H0 Hdm Hp.
  assert (E : normalizeAt rt now input = mkPair src src).
  { rewrite normalizeAt_fallback by assumption.
    unfold fallbackBranch. fold src. now rewrite Hp. }
  split; [exact E|]. intros Ht. rewrite E. unfold src. now rewrite Ht.
Qed.

Lemma unmatched_text_comes_back_trimmed_witness :
  normalizeAt omskRuntime saturdayNight (js "  как-нибудь потом ")
  = mkPair (trim (js "  как-нибудь потом ")) (trim (js "  как-нибудь потом ")).
Proof.
  refine (proj1 (unmatched_text_comes_back_trimmed omskRuntime saturdayNight
                   (js "  как-нибудь потом ") _ _ _ _ _ _));
    vm_compute; reflexivity.
Defined.

(** C9 as stated fails on a text with white space around it: " позже"
    matches no rule and is no timestamp, and what comes back is "позже". *)
Lemma untrimmed_text_is_not_returned_unchanged :
  let input := js " позже" in
  let lower := toLowerCase (trim input) in
  (firstWeekday weekdayDefs lower = None
   /\ test re_poslezavtra lower = false /\ test re_zavtra lower = false
   /\ test re_segodnya lower = false /\ exec re_dm lower = None
   /\ Date_parse omskRuntime input = None
   /\ Date_parse omskRuntime (trim input) = None)
  /\ normalizeAt omskRuntime saturdayNight input = mkPair (js "позже") (js "позже")
  /\ localPlain (normalizeAt omskRuntime saturdayNight input) <> input
  /\ utcISO (normalizeAt omskRuntime saturdayNight input) <> input.
Proof.
  run_example.
Qed.

(** C4 (amended).  The resolver and the late-night test take no "now": each
    reads the wall clock itself, once, by [new Date()].  They are functions
    of the text and of that reading: two calls that read the same clock
    value give the same instant string and the same local string, and a call
    changes neither the bookings nor the administrator's inbox. *)
Theorem resolver_is_a_function_of_text_and_clock
        (rt : Runtime) (input : jsstring) (w1 w2 : World) :
  timeNow w1 = timeNow w2 ->
  fst (normalizeWhenLocalPair rt input w1) = fst (normalizeWhenLocalPair rt input w2)
  /\ fst (isLateNightLocal rt w1) = fst (isLateNightLocal rt w2)
  /\ fst (normalizeWhenLocalPair rt input w1) = normalizeAt rt (timeNow w1) input
  /\ sameStore w1 (snd (normalizeWhenLocalPair rt input w1))
  /\ sameStore w1 (snd (isLateNightLocal rt w1)).
Proof.
  intros H. unfold normalizeWhenLocalPair, isLateNightLocal, bind, ret, newDate.
  simpl. rewrite H. repeat split.
Qed.

Lemma resolver_is_a_function_of_text_and_clock_witness :
  fst (normalizeWhenLocalPair omskRuntime (js "завтра в 9") (worldAt saturdayMorning []))
  = fst (normalizeWhenLocalPair omskRuntime (js "завтра в 9")
           (mkWorld (fun _ => saturdayMorning) 5 [] [])).
Proof.
  refine (proj1 (resolver_is_a_function_of_text_and_clock omskRuntime (js "завтра в 9")
                   (worldAt saturdayMorning [])
                   (mkWorld (fun _ => saturdayMorning) 5 [] []) _)).
  reflexivity.
Defined.

(** C4 as stated fails: the function does read the ambient clock.  The same
    text, in two worlds that differ in the wall clock only (one day apart),
    resolves to two different pairs. *)
Lemma resolver_reads_the_wall_clock :
  let today := worldAt saturdayNight [] in
  let nextDay := worldAt (saturdayNight + msPerDay) [] in
  localPlain (fst (normalizeWhenLocalPair omskRuntime (js "сегодня") today))
  = js "2025-10-04T12:00:00"
  /\ localPlain (fst (normalizeWhenLocalPair omskRuntime (js "сегодня") nextDay))
     = js "2025-10-05T12:00:00"
  /\ fst (normalizeWhenLocalPair omskRuntime (js "сегодня") today)
     <> fst (normalizeWhenLocalPair omskRuntime (js "сегодня") nextDay).
Proof.
  run_example.
Qed.

(** C8 (amended).  When the stored bookings already hold one of the same
    user that is not canceled, [book_trial] appends no record, sends nothing
    and leaves the bookings as they are; its answer is the already-booked
    message, unless the late-night branch, which comes first, fires: then
    the answer is the clarification prompt. *)
Theorem book_trial_keeps_one_booking_per_user
        (rt : Runtime) (uid : Z) (name phone text : jsstring) (w : World) :
  (exists b, In b (bookings w) /\ userId b = uid /\ status b <> canceled) ->
  sameStore w (snd (book_trial rt uid name phone text w))
  /\ (fst (lateNightCheck rt text w) = false ->
      fst (book_trial rt uid name phone text w) = AlreadyBooked)
  /\ (fst (lateNightCheck rt text w) = true ->
      isClarification (fst (book_trial rt uid name phone text w)) = true).
Proof.
  intros (b & Hin & Hu & Hs).
  assert (Hex : existsb (blocksBooking uid (normalizePhone phone)) (bookings w) = true).
  { apply existsb_exists. exists b. split; [exact Hin|].
    now apply blocksBooking_same_user. }
  destruct (fst (lateNightCheck rt text w)) eqn:Hl.
  - rewrite book_trial_late by exact Hl. split; [|split].
    + eapply sameStore_trans; [apply lateNightCheck_store | apply clarify_store].
    + discriminate.
    + intros _. apply clarify_isClarification.
  - rewrite book_trial_blocked by assumption. simpl. split; [|split].
    + apply lateNightCheck_store.
    + reflexivity.
    + discriminate.
Qed.

Lemma book_trial_keeps_one_booking_per_user_witness :
  fst (book_trial omskRuntime 42 (js "Иван") (js "89991234567") (js "12.10.2025")
                  (worldAt saturdayMorning [ivanBooking]))
  = AlreadyBooked.
Proof.
  refine (proj1 (proj2 (book_trial_keeps_one_booking_per_user
                          omskRuntime 42 (js "Иван") (js "89991234567") (js "12.10.2025")
                          (worldAt saturdayMorning [ivanBooking]) _)) _).
  - exists ivanBooking. split; [left; reflexivity|]. split; [reflexivity|].
    intro H. vm_compute in H. discriminate.
  - vm_compute. reflexivity.
Defined.

(** C8 as stated fails late at night: user 42 has a booking and asks for
    "завтра" at 23:10; the answer is the clarification prompt, not the
    already-booked message. *)
Lemma book_trial_late_night_answers_before_the_check :
  let w := worldAt saturdayNight [ivanBooking] in
  (In ivanBooking (bookings w) /\ userId ivanBooking = 42
   /\ jsstring_eqb (status ivanBooking) canceled = false)
  /\ fst (book_trial omskRuntime 42 (js "Иван") (js "89991234567") (js "завтра") w)
     = ClarifyDate (js "05.10.2025")
  /\ fst (book_trial omskRuntime 42 (js "Иван") (js "89991234567") (js "завтра") w)
     <> AlreadyBooked.
Proof.
  cbv zeta. split; [split; [left; reflexivity|]|]; run_example.
Qed.

Lemma normalizePhone_digits (d : jsstring) :
  forallb isDigit d = true -> stripNonDigits d = d.
Proof.
  unfold stripNonDigits. induction d as [|c t IH]; simpl; [reflexivity|].
  intros H. apply andb_prop in H as [Hc Ht]. rewrite Hc. now rewrite IH.
Qed.

(** C10 (amended).  [book_trial] creates no booking when a stored booking
    that is not canceled has the same normalized phone as the request and
    that normalized phone is not empty, whoever its user is.  The
    normalization sends the eleven digits [8XXXXXXXXXX], the eleven digits
    [7XXXXXXXXXX] and the ten digits [XXXXXXXXXX] to the same
    [7XXXXXXXXXX]. *)
Theorem book_trial_refuses_a_known_phone
        (rt : Runtime) (uid : Z) (reqName reqPhone text : jsstring) (w : World) :
  ((exists b, In b (bookings w) /\ status b <> canceled
              /\ normalizePhone (orElse (phoneNormalized b) (phone b))
                 = normalizePhone reqPhone
              /\ normalizePhone reqPhone <> []) ->
   sameStore w (snd (book_trial rt uid reqName reqPhone text w))
   /\ (fst (book_trial rt uid reqName reqPhone text w) = AlreadyBooked
       \/ isClarification (fst (book_trial rt uid reqName reqPhone text w)) = true))
  /\ (forall d : jsstring,
        List.length d = 10%nat -> forallb isDigit d = true ->
        normalizePhone (56%N :: d) = 55%N :: d
        /\ normalizePhone (55%N :: d) = 55%N :: d
        /\ normalizePhone d = 55%N :: d).
Proof.
  split.
  - intros (b & Hin & Hs & Hp & Hne).
    assert (Hex : existsb (blocksBooking uid (normalizePhone reqPhone)) (bookings w) = true).
    { apply existsb_exists. exists b. split; [exact Hin|].
      now apply blocksBooking_same_phone. }
    destruct (fst (lateNightCheck rt text w)) eqn:Hl.
    + rewrite book_trial_late by exact Hl. split.
      * eapply sameStore_trans; [apply lateNightCheck_store | apply clarify_store].
      * right. apply clarify_isClarification.
    + rewrite book_trial_blocked by assumption. simpl. split.
      * apply lateNightCheck_store.
      * now left.
  - intros d Hlen Hd. unfold normalizePhone.
    assert (H8 : stripNonDigits (56%N :: d) = 56%N :: d).
    { apply normalizePhone_digits. simpl. now rewrite Hd. }
    assert (H7 : stripNonDigits (55%N :: d) = 55%N :: d).
    { apply normalizePhone_digits. simpl. now rewrite Hd. }
    rewrite H8, H7, (normalizePhone_digits d Hd). simpl List.length. rewrite Hlen.
    destruct d; [discriminate|]. repeat split.
Qed.

Lemma book_trial_refuses_a_known_phone_witness :
  fst (book_trial omskRuntime 7 (js "Пётр") (js "8 (999) 123-45-67") (js "12.10.2025")
                  (worldAt saturdayMorning [ivanBooking]))
  = AlreadyBooked
  \/ isClarification
       (fst (book_trial omskRuntime 7 (js "Пётр") (js "8 (999) 123-45-67")
                        (js "12.10.2025") (worldAt saturdayMorning [ivanBooking])))
     = true.
Proof.
  refine (proj2 (proj1 (book_trial_refuses_a_known_phone
                          omskRuntime 7 (js "Пётр") (js "8 (999) 123-45-67")
                          (js "12.10.2025") (worldAt saturdayMorning [ivanBooking])) _)).
  exists ivanBooking. split; [left; reflexivity|].
  split; [intro H; vm_compute in H; discriminate|].
  split; [vm_compute; reflexivity|].
  intro H; vm_compute in H; discriminate.
Defined.

(** C10 as stated fails when the normalized phones are equal and empty: the
    test asks for both to be non-empty.  User 7 with the phone "абвгд" is
    booked although the booking of user 42 has the same normalized phone. *)
Lemma book_trial_ignores_an_empty_phone :
  let w := worldAt saturdayMorning [annaBooking] in
  let after := book_trial omskRuntime 7 (js "Пётр") (js "абвгд") (js "12.10.2025") w in
  (jsstring_eqb (status annaBooking) canceled = false
   /\ normalizePhone (orElse (phoneNormalized annaBooking) (phone annaBooking))
      = normalizePhone (js "абвгд"))
  /\ fst after = Created (js "Пётр") (js "абвгд") (js "12.10.2025")
  /\ List.length (bookings (snd after)) = 2%nat
  /\ map userId (bookings (snd after)) = [42; 7].
Proof.
  run_example.
Qed.





(* ================================================================== *)
(** * [cancel_trial]: which booking a request refers to *)

Section CancelFacts.
Variable rt : Runtime.
Variable uid : Z.

Lemma exactMatch_spec lp b : exactMatch lp b = true <-> trim (when b) = trim lp.
Proof. apply jsstring_eqb_eq. Qed.

Lemma fuzzyMatch_spec lp b :
  fuzzyMatch rt lp b = true
  <-> exists x y,
      parseLocalPlainToDate rt (when b) = Some x
      /\ parseLocalPlainToDate rt lp = Some y
      /\ Z.abs (x - y) < 5 * 60 * 1000.
Proof.
  unfold fuzzyMatch, within5min. split.
  - destruct (parseLocalPlainToDate rt (when b)) as [x|]; [|discriminate].
    destruct (parseLocalPlainToDate rt lp) as [y|]; [|discriminate].
    intros H. exists x, y. repeat split. now apply Z.ltb_lt.
  - intros (x & y & -> & -> & H). now apply Z.ltb_lt.
Qed.

Lemma refersTo_spec lp b :
  refersTo rt lp b <-> exactMatch lp b = true \/ fuzzyMatch rt lp b = true.
Proof. unfold refersTo. now rewrite exactMatch_spec, fuzzyMatch_spec. Qed.

Lemma findTarget_sound cands lp t :
  findTarget rt cands lp = Some t -> In t cands /\ refersTo rt lp (snd t).
Proof.
  unfold findTarget.
  destruct (find (fun ib => exactMatch lp (snd ib)) cands) as [e|] eqn:He.
  - intros [= <-]. apply find_some in He as [Hin Hm].
    split; [exact Hin|]. apply refersTo_spec. now left.
  - intros Hf. apply find_some in Hf as [Hin Hm].
    split; [exact Hin|]. apply refersTo_spec. now right.
Qed.

Lemma findTarget_complete cands lp c :
  In c cands -> refersTo rt lp (snd c) -> exists t, findTarget rt cands lp = Some t.
Proof.
  intros Hin Hr. unfold findTarget.
  destruct (find (fun ib => exactMatch lp (snd ib)) cands) as [e|] eqn:He; [eauto|].
  destruct (find (fun ib => fuzzyMatch rt lp (snd ib)) cands) as [f|] eqn:Hf; [eauto|].
  exfalso. apply refersTo_spec in Hr as [Hr|Hr].
  - pose proof (find_none _ _ He c Hin) as Hn. simpl in Hn. congruence.
  - pose proof (find_none _ _ Hf c Hin) as Hn. simpl in Hn. congruence.
Qed.

(** The exact match has priority over the approximate one. *)
Lemma findTarget_prefers_exact cands lp c :
  In c cands -> exactMatch lp (snd c) = true ->
  exists t, findTarget rt cands lp = Some t /\ exactMatch lp (snd t) = true.
Proof.
  intros Hin Hm. unfold findTarget.
  destruct (find (fun ib => exactMatch lp (snd ib)) cands) as [e|] eqn:He.
  - exists e. split; [reflexivity|]. now apply find_some in He.
  - pose proof (find_none _ _ He c Hin) as Hn. simpl in Hn. congruence.
Qed.

Lemma cancel_trial_no_candidates text w :
  candidatesOf uid (bookings w) = [] ->
  cancel_trial rt uid text w = (NoActiveBookings, w).
Proof.
  intros H. unfold cancel_trial, bind, loadBookings. now rewrite H.
Qed.

Lemma cancel_trial_no_target text w :
  candidatesOf uid (bookings w) <> [] ->
  findTarget rt (candidatesOf uid (bookings w))
             (localPlain (normalizeAt rt (timeNow w) text)) = None ->
  fst (cancel_trial rt uid text w) = NotFound
  /\ sameStore w (snd (cancel_trial rt uid text w)).
Proof.
  intros Hc Hf. unfold cancel_trial, bind, loadBookings.
  destruct (candidatesOf uid (bookings w)) as [|c cs] eqn:E; [congruence|].
  rewrite normalizeWhenLocalPair_run. rewrite Hf. simpl. repeat split.
Qed.

Lemma cancel_trial_target text w t :
  findTarget rt (candidatesOf uid (bookings w))
             (localPlain (normalizeAt rt (timeNow w) text)) = Some t ->
  fst (cancel_trial rt uid text w) = TooLate
  \/ (fst (cancel_trial rt uid text w) = Canceled (humanDate rt (when (snd t)))
      /\ exists stamp,
          bookings (snd (cancel_trial rt uid text w))
          = updateAt (fst t)
                     (fun b => mkBooking (userId b) (name b) (phone b)
                                         (phoneNormalized b) (when b) (createdAt b)
                                         (updatedAt b) canceled stamp)
                     (bookings w)).
Proof.
  intros Hf. unfold cancel_trial, bind, loadBookings.
  destruct (candidatesOf uid (bookings w)) as [|c cs] eqn:E.
  - unfold findTarget in Hf. simpl in Hf. discriminate.
  - rewrite normalizeWhenLocalPair_run. rewrite Hf.
    unfold isFutureDate, parseWhenToDate.
    destruct (Date_parse rt (when (snd t))) as [dt|]; simpl; [|now left].
    destruct (clock w (S (reads w)) <? dt); simpl; [|now left].
    right. unfold whenAdmin, sendAdmin, ret.
    destruct (ADMIN_CHAT_ID rt); simpl; split; try reflexivity; eexists; reflexivity.
Qed.

End CancelFacts.

Lemma In_indexed_from {A} (l : list A) :
  forall s i b,
    In (i, b) (combine (seq s (List.length l)) l)
    <-> (s <= i)%nat /\ nth_error l (i - s) = Some b.
Proof.
  induction l as [|x l IH]; intros s i b; simpl.
  - split; [tauto|]. intros [_ H]. now destruct (i - s)%nat.
  - rewrite IH. split.
    + intros [E | [Hs Hn]].
      * injection E as -> ->. split; [lia|]. now rewrite Nat.sub_diag.
      * split; [lia|]. replace (i - s)%nat with (S (i - S s)) by lia. exact Hn.
    + intros [Hs Hn]. destruct (Nat.eq_dec s i) as [->|Hne].
      * left. rewrite Nat.sub_diag in Hn. simpl in Hn. now injection Hn as ->.
      * right. split; [lia|]. replace (i - s)%nat with (S (i - S s)) in Hn by lia.
        exact Hn.
Qed.

(** The candidates are the stored bookings of the user that are not
    canceled, each with its place in the list. *)
Lemma candidatesOf_spec (uid : Z) (stored : list Booking) (i : nat) (b : Booking) :
  In (i, b) (candidatesOf uid stored)
  <-> nth_error stored i = Some b /\ userId b = uid /\ status b <> canceled.
Proof.
  unfold candidatesOf, indexed. rewrite filter_In, In_indexed_from. cbn [snd].
  rewrite andb_true_iff, Z.eqb_eq. unfold notCanceled.
  rewrite negb_true_iff, jsstring_eqb_neq, Nat.sub_0_r.
  split; [intros [[_ H] [H1 H2]] | intros (H & H1 & H2)]; repeat split; auto; lia.
Qed.

(** C7.  [cancel_trial] goes on with a booking of the user exactly when one
    of the user's bookings that are not canceled refers to the requested
    moment: its stored string equals the resolved one (both trimmed), or the
    instants re-derived from the two strings are strictly less than five
    minutes apart; the booking it goes on with is such a one.  When none
    does, the tool answers that it found no record and every booking stays
    as it was. *)
Theorem cancel_trial_matches_by_string_or_five_minutes
        (rt : Runtime) (uid : Z) (text : jsstring) (w : World) :
  let lp := localPlain (normalizeAt rt (timeNow w) text) in
  let cands := candidatesOf uid (bookings w) in
  (forall i b, In (i, b) cands
               <-> nth_error (bookings w) i = Some b /\ userId b = uid
                   /\ status b <> canceled)
  /\ (forall b, exactMatch lp b = true <-> trim (when b) = trim lp)
  /\ (forall b, refersTo rt lp b <-> exactMatch lp b = true \/ fuzzyMatch rt lp b = true)
  /\ (forall t, findTarget rt cands lp = Some t -> In t cands /\ refersTo rt lp (snd t))
  /\ ((exists c, In c cands /\ refersTo rt lp (snd c))
      <-> exists t, findTarget rt cands lp = Some t)
  /\ (forall t, findTarget rt cands lp = Some t ->
        fst (cancel_trial rt uid text w) = TooLate
        \/ fst (cancel_trial rt uid text w) = Canceled (humanDate rt (when (snd t))))
  /\ ((forall c, In c cands -> ~ refersTo rt lp (snd c)) ->
      (fst (cancel_trial rt uid text w) = NotFound
       \/ fst (cancel_trial rt uid text w) = NoActiveBookings)
      /\ bookings (snd (cancel_trial rt uid text w)) = bookings w
      /\ adminInbox (snd (cancel_trial rt uid text w)) = adminInbox w).
Proof.
  intros lp cands.
  split; [intros i b; apply candidatesOf_spec|].
  split; [intros b; apply exactMatch_spec|].
  split; [intros b; apply refersTo_spec|].
  split; [intros t; apply findTarget_sound|].
  split; [|split].
  - split.
    + intros (c & Hin & Hr). eapply findTarget_complete; eauto.
    + intros (t & Hf). exists t. now apply findTarget_sound.
  - intros t Hf. destruct (cancel_trial_target rt uid text w t Hf) as [H|[H _]]; auto.
  - intros Hnone.
    assert (Hf : findTarget rt cands lp = None).
    { destruct (findTarget rt cands lp) as [t|] eqn:Hf; [|reflexivity].
      exfalso. apply findTarget_sound in Hf as [Hin Hr]. exact (Hnone t Hin Hr). }
    clear Hnone. subst cands lp.
    remember (candidatesOf uid (bookings w)) as cs0 eqn:E.
    destruct cs0 as [|c cs].
    + rewrite cancel_trial_no_candidates by (symmetry; exact E). simpl. auto.
    + assert (Hne : candidatesOf uid (bookings w) <> []) by (rewrite <- E; discriminate).
      rewrite E in Hf.
      destruct (cancel_trial_no_target rt uid text w Hne Hf) as (Hr & Hb & Ha & _).
      auto.
Qed.

(** Three minutes from the stored time the booking is found and canceled;
    five minutes from it, it is not found. *)
Lemma cancel_trial_matches_by_string_or_five_minutes_witness :
  fst (cancel_trial omskRuntime 42 (js "10.10.2025 12:03")
                    (worldAt saturdayNight [ivanBooking]))
  = Canceled (js "10.10.2025")
  /\ fst (cancel_trial omskRuntime 42 (js "10.10.2025 12:05")
                       (worldAt saturdayNight [ivanBooking]))
     = NotFound.
Proof.
  split.
  - destruct (proj1 (proj2 (proj2 (proj2 (proj2 (proj2
              (cancel_trial_matches_by_string_or_five_minutes
                 omskRuntime 42 (js "10.10.2025 12:03")
                 (worldAt saturdayNight [ivanBooking])))))))
              (0%nat, ivanBooking) ltac:(by_computation)) as [H | H].
    + vm_compute in H. discriminate.
    + rewrite H. by_computation.
  - by_computation.
Defined.

(* ================================================================== *)
(** * What the matcher accepts: [test] position by position *)

Lemma rep_some_congr {A B} p s :
  forall lo hi pv i i' cp cp' (k : cursor -> option A) (k' : cursor -> option B),
    agree k k' ->
    isSome (rep p lo hi pv s i cp k) = isSome (rep p lo hi pv s i' cp' k').
Proof.
  induction s as [|c t IH]; intros lo hi pv i i' cp cp' k k' Hk; simpl.
  - destruct lo; [apply Hk; split; reflexivity | reflexivity].
  - assert (Hstop : isSome (match lo with O => k (mkCursor pv (c :: t) i cp) | S _ => None end)
                    = isSome (match lo with O => k' (mkCursor pv (c :: t) i' cp') | S _ => None end)).
    { destruct lo; [apply Hk; split; reflexivity | reflexivity]. }
    destruct (match hi with Some 0%nat => false | _ => true end && p c); [|exact Hstop].
    specialize (IH (Nat.pred lo) (option_map Nat.pred hi) (Some c) (S i) (S i') cp cp' k k' Hk).
    destruct (rep p (Nat.pred lo) (option_map Nat.pred hi) (Some c) t (S i) cp k);
      destruct (rep p (Nat.pred lo) (option_map Nat.pred hi) (Some c) t (S i') cp' k');
      simpl in IH; try discriminate; auto.
Qed.

Lemma run_some_congr {A B} (r : regex) :
  forall c c' (k : cursor -> option A) (k' : cursor -> option B),
    sameView c c' -> agree k k' -> isSome (run r c k) = isSome (run r c' k').
Proof.
  induction r as [ | x | p | | | | r1 IHr1 r2 IHr2 | r1 IHr1 r2 IHr2 | r IHr | p lo hi | i r IHr];
    intros c c' k k' Hv Hk; simpl.
  - now apply Hk.
  - destruct Hv as [Hp Hr]. rewrite <- Hr. destruct (rest c) as [|y t]; [reflexivity|].
    destruct (x =? y)%N; [|reflexivity]. apply Hk. split; reflexivity.
  - destruct Hv as [Hp Hr]. rewrite <- Hr. destruct (rest c) as [|y t]; [reflexivity|].
    destruct (p y); [|reflexivity]. apply Hk. split; reflexivity.
  - unfold atBoundary. destruct Hv as [Hp Hr]. rewrite <- Hp, <- Hr.
    destruct (xorb _ _); [|reflexivity]. apply Hk. split; assumption.
  - pose proof (Hk c c' Hv) as Hcc. destruct Hv as [Hp Hr]. rewrite <- Hp.
    destruct (prev c); [reflexivity | exact Hcc].
  - pose proof (Hk c c' Hv) as Hcc. destruct Hv as [Hp Hr]. rewrite <- Hr.
    destruct (rest c); [exact Hcc | reflexivity].
  - apply IHr1; [exact Hv|]. intros d d' Hd. now apply IHr2.
  - specialize (IHr1 c c' k k' Hv Hk). specialize (IHr2 c c' k k' Hv Hk).
    destruct (run r1 c k); destruct (run r1 c' k'); simpl in IHr1; try discriminate; auto.
  - specialize (IHr c c' k k' Hv Hk). specialize (Hk c c' Hv).
    destruct (run r c k); destruct (run r c' k'); simpl in IHr; try discriminate; auto.
  - destruct Hv as [Hp Hr]. rewrite <- Hp, <- Hr. now apply rep_some_congr.
  - apply IHr; [exact Hv|]. intros d d' [Hp Hr]. apply Hk. split; assumption.
Qed.

Lemma agree_total {A B} (k : cursor -> option A) (k' : cursor -> option B) :
  (forall d, isSome (k d) = true) -> (forall d, isSome (k' d) = true) -> agree k k'.
Proof. intros H H' d d' _. now rewrite H, H'. Qed.

Lemma matchAt_index (r : regex) pv s i : isSome (matchAt r pv s i) = accepts r pv s.
Proof.
  unfold accepts, matchAt. apply run_some_congr; [split; reflexivity|].
  apply agree_total; reflexivity.
Qed.

Lemma searchFrom_anyFrom (r : regex) s :
  forall pv i, isSome (searchFrom r pv s i) = anyFrom r pv s.
Proof.
  induction s as [|c t IH]; intros pv i; simpl;
    rewrite <- (matchAt_index r pv _ i); destruct (matchAt r pv _ i); simpl; auto.
Qed.

Lemma test_anyFrom (r : regex) (s : jsstring) : test r s = anyFrom r None s.
Proof.
  unfold test, exec. rewrite <- (searchFrom_anyFrom r s None 0).
  now destruct (searchFrom r None s 0).
Qed.

Lemma anyFrom_ext (r r' : regex) :
  (forall pv s, accepts r pv s = accepts r' pv s) ->
  forall s pv, anyFrom r pv s = anyFrom r' pv s.
Proof.
  intros H. induction s as [|c t IH]; intros pv; simpl; rewrite H; [reflexivity|].
  now rewrite IH.
Qed.

Lemma accepts_Alt a b pv s : accepts (Alt a b) pv s = accepts a pv s || accepts b pv s.
Proof.
  unfold accepts, matchAt. simpl. destruct (run a _ _); reflexivity.
Qed.

Lemma accepts_Grp i r pv s : accepts (Grp i r) pv s = accepts r pv s.
Proof.
  unfold accepts, matchAt. simpl. apply run_some_congr; [split; reflexivity|].
  apply agree_total; reflexivity.
Qed.

Lemma anyFrom_Alt a b : forall s pv,
  anyFrom (Alt a b) pv s = anyFrom a pv s || anyFrom b pv s.
Proof.
  induction s as [|c t IH]; intros pv; simpl; rewrite accepts_Alt.
  - now rewrite !orb_false_r.
  - rewrite IH.
    destruct (accepts a pv (c :: t)), (accepts b pv (c :: t)),
      (anyFrom a (Some c) t), (anyFrom b (Some c) t); reflexivity.
Qed.

Lemma anyFrom_Grp i r s pv : anyFrom (Grp i r) pv s = anyFrom r pv s.
Proof. apply anyFrom_ext. intros. apply accepts_Grp. Qed.

Lemma run_lit {A} (w : jsstring) : forall c (k : cursor -> option A),
  run (lit w) c k = match eat w c with Some c' => k c' | None => None end.
Proof.
  induction w as [|x w IH]; intros c k; [reflexivity|].
  destruct w as [|y w'].
  - simpl. destruct (rest c) as [|z t]; [reflexivity|]. now destruct (x =? z)%N.
  - change (lit (x :: y :: w')) with (Cat (Chr x) (lit (y :: w'))).
    cbn [run]. cbn [eat]. destruct (rest c) as [|z t]; [reflexivity|].
    destruct (x =? z)%N; [|reflexivity]. apply IH.
Qed.

Lemma eat_app (w v : jsstring) : forall c,
  eat (w ++ v) c = match eat w c with Some c' => eat v c' | None => None end.
Proof.
  induction w as [|x w IH]; intros c; simpl; [reflexivity|].
  destruct (rest c) as [|z t]; [reflexivity|]. destruct (x =? z)%N; [apply IH|reflexivity].
Qed.

Lemma accepts_lit_snoc (w : jsstring) (x : N) pv s :
  accepts (lit (w ++ [x])) pv s
  = match eat w (mkCursor pv s 0 []) with
    | Some c' => match rest c' with y :: _ => (y =? x)%N | [] => false end
    | None => false
    end.
Proof.
  unfold accepts, matchAt. rewrite run_lit, eat_app.
  destruct (eat w _) as [c'|]; [|reflexivity]. simpl.
  destruct (rest c') as [|y t]; [reflexivity|]. rewrite (N.eqb_sym x y).
  now destruct (y =? x)%N.
Qed.

Lemma accepts_lit_class (w xs : jsstring) pv s :
  accepts (Cat (lit w) (Cls (oneOf xs))) pv s
  = existsb (fun x => accepts (lit (w ++ [x])) pv s) xs.
Proof.
  transitivity (match eat w (mkCursor pv s 0 []) with
                | Some c' => match rest c' with y :: _ => oneOf xs y | [] => false end
                | None => false
                end).
  - unfold accepts, matchAt. cbn [run]. rewrite run_lit.
    destruct (eat w _) as [c'|]; [|reflexivity]. simpl.
    destruct (rest c') as [|y t]; [reflexivity|]. now destruct (oneOf xs y).
  - induction xs as [|x xs IH]; simpl.
    + destruct (eat w _) as [c'|]; [|reflexivity]. now destruct (rest c').
    + rewrite accepts_lit_snoc, <- IH. destruct (eat w _) as [c'|]; [|reflexivity].
      destruct (rest c') as [|y t]; reflexivity.
Qed.

Lemma existsb_orb {X} (f g : X -> bool) (l : list X) :
  existsb f l || existsb g l = existsb (fun x => f x || g x) l.
Proof.
  induction l as [|x l IH]; simpl; [reflexivity|]. rewrite <- IH.
  destruct (f x), (g x), (existsb f l), (existsb g l); reflexivity.
Qed.

Lemma existsb_pointwise {X} (f g : X -> bool) (l : list X) :
  (forall x, f x = g x) -> existsb f l = existsb g l.
Proof. intros H. induction l as [|x l IH]; simpl; [reflexivity|]. now rewrite H, IH. Qed.

Lemma anyFrom_lit_class (w xs : jsstring) : forall s pv,
  anyFrom (Cat (lit w) (Cls (oneOf xs))) pv s
  = existsb (fun x => anyFrom (lit (w ++ [x])) pv s) xs.
Proof.
  induction s as [|c t IH]; intros pv; simpl; rewrite accepts_lit_class.
  - rewrite orb_false_r. apply existsb_pointwise. intros x. now rewrite orb_false_r.
  - rewrite IH. apply existsb_orb.
Qed.

Lemma names_agree_on_dictionary_forms (text : jsstring) :
  hasDeclinedWeekday text = false ->
  namesRelativeOrWeekday text = containsRelativeOrWeekday text.
Proof.
  unfold hasDeclinedWeekday, namesRelativeOrWeekday, containsRelativeOrWeekday.
  set (s := toLowerCase text). rewrite !test_anyFrom.
  unfold re_declined, re_weekdayForms, re_weekdayName. cbn [alts].
  rewrite anyFrom_Grp. rewrite !anyFrom_Alt, !anyFrom_lit_class.
  change (js "уы") with [1091%N; 1099%N]. change (js "ауы") with [1072%N; 1091%N; 1099%N].
  cbn [existsb].
  change (js "среда") with (js "сред" ++ [1072%N]).
  change (js "пятница") with (js "пятниц" ++ [1072%N]).
  change (js "суббота") with (js "суббот" ++ [1072%N]).
  rewrite !orb_false_r. intros H.
  repeat match type of H with
         | _ || _ = false => apply orb_false_elim in H; destruct H as [? H]
         end.
  repeat match goal with
         | E : anyFrom _ _ _ = false |- _ => rewrite E; clear E
         | E : _ || _ = false |- _ =>
             apply orb_false_elim in E; let E1 := fresh in destruct E as [E1 E]
         end.
  rewrite ?orb_false_r.
  destruct (anyFrom re_relative None s); [reflexivity|]. simpl.
  destruct (anyFrom _ None s || _); reflexivity.
Qed.

(* ================================================================== *)
(** * The late-night policy *)

Section PolicyFacts.
Variable rt : Runtime.
Variable uid : Z.

Lemma isLateNightAt_spec now :
  isLateNightAt rt now = true
  <-> 22 <= hour (getTzParts rt now) \/ hour (getTzParts rt now) < 4.
Proof.
  unfold isLateNightAt. cbv zeta. rewrite orb_true_iff, Z.leb_le, Z.ltb_lt. reflexivity.
Qed.

Lemma lateNightCheck_spec text w :
  fst (lateNightCheck rt text w) = true
  <-> (22 <= hour (getTzParts rt (timeNow w)) \/ hour (getTzParts rt (timeNow w)) < 4)
      /\ containsRelativeOrWeekday text = true
      /\ hasExplicitCalendarDate text = false.
Proof.
  rewrite lateNightCheck_value, !andb_true_iff, negb_true_iff, isLateNightAt_spec.
  tauto.
Qed.

Lemma book_trial_clarifies_iff name phone text w :
  isClarification (fst (book_trial rt uid name phone text w)) = true
  <-> fst (lateNightCheck rt text w) = true.
Proof.
  destruct (book_trial_reply_cases rt uid name phone text w)
    as [[Hl Hr] | [Hl [Hr | [human Hr]]]]; rewrite Hl.
  - rewrite Hr. tauto.
  - rewrite Hr. simpl. split; discriminate.
  - rewrite Hr. simpl. split; discriminate.
Qed.

Lemma reschedule_trial_clarifies_iff text w :
  isClarification (fst (reschedule_trial rt uid text w)) = true
  <-> candidatesOf uid (bookings w) <> [] /\ fst (lateNightCheck rt text w) = true.
Proof.
  destruct (candidatesOf uid (bookings w)) as [|c cs] eqn:E.
  - rewrite reschedule_trial_none by exact E. simpl. split; [discriminate|].
    intros [H _]. congruence.
  - assert (Hne : candidatesOf uid (bookings w) <> []) by (rewrite E; discriminate).
    destruct (fst (lateNightCheck rt text w)) eqn:Hl.
    + rewrite reschedule_trial_late by assumption. rewrite clarify_isClarification.
      split; [|reflexivity]. intros _. split; [discriminate | reflexivity].
    + destruct (reschedule_trial_day rt uid text w Hne Hl) as (o & h & Hr).
      rewrite Hr. simpl. split; [discriminate|]. intros [_ H]. discriminate.
Qed.

End PolicyFacts.

(** C2 (amended).  For a text whose weekday names, if any, stand in their
    dictionary form: the late-night branch of [book_trial] fires if and only
    if the local hour in the configured zone is in the late-night window
    (hour >= 22 or hour < 4), the text holds a relative word or a weekday
    name, and no calendar date pattern (YYYY-MM-DD, or D.M with an optional
    year) occurs in it.  The branch of [reschedule_trial] fires if and only
    if, besides, the user has a booking that is not canceled: without one
    the tool answers that there is nothing to move. *)
Theorem late_night_branch_fires_iff
        (rt : Runtime) (uid : Z) (name phone text : jsstring) (w : World) :
  hasDeclinedWeekday text = false ->
  let h := hour (getTzParts rt (timeNow w)) in
  let required :=
    (22 <= h \/ h < 4)
    /\ namesRelativeOrWeekday text = true
    /\ hasExplicitCalendarDate text = false in
  (isClarification (fst (book_trial rt uid name phone text w)) = true <-> required)
  /\ (isClarification (fst (reschedule_trial rt uid text w)) = true
      <-> candidatesOf uid (bookings w) <> [] /\ required).
Proof.
  intros Hd h required. unfold required, h.
  rewrite (names_agree_on_dictionary_forms text Hd).
  rewrite book_trial_clarifies_iff, reschedule_trial_clarifies_iff, lateNightCheck_spec.
  split; reflexivity.
Qed.

Lemma late_night_branch_fires_iff_witness :
  isClarification
    (fst (book_trial omskRuntime 42 (js "Иван") (js "89991234567") (js "завтра")
                     (worldAt saturdayNight []))) = true
  /\ isClarification
       (fst (book_trial omskRuntime 42 (js "Иван") (js "89991234567") (js "05.10.2025")
                        (worldAt saturdayNight []))) = false.
Proof.
  split.
  - apply (proj2 (proj1 (late_night_branch_fires_iff
                           omskRuntime 42 (js "Иван") (js "89991234567") (js "завтра")
                           (worldAt saturdayNight []) ltac:(by_computation)))).
    split; [left; apply Z.leb_le; by_computation | split; by_computation].
  - apply not_true_is_false. intros H.
    apply (proj1 (proj1 (late_night_branch_fires_iff
                           omskRuntime 42 (js "Иван") (js "89991234567") (js "05.10.2025")
                           (worldAt saturdayNight []) ltac:(by_computation)))) in H.
    destruct H as (_ & _ & H). vm_compute in H. discriminate.
Defined.

(** The declined forms are outside the theorem above: "в пятницу" names a
    weekday in the forms of the parser's table and is not noticed by
    [containsRelativeOrWeekday]. *)
Lemma declined_weekday_is_not_noticed :
  hasDeclinedWeekday (js "в пятницу") = true
  /\ namesRelativeOrWeekday (js "в пятницу") = true
  /\ containsRelativeOrWeekday (js "в пятницу") = false
  /\ fst (lateNightCheck omskRuntime (js "в пятницу") (worldAt saturdayNight [])) = false.
Proof.
  run_example.
Qed.

(** C2 as stated fails for [reschedule_trial]: at 23:10, for "завтра" and
    a user without a booking, the three conditions hold and the branch does
    not fire. *)
Lemma reschedule_without_a_booking_does_not_clarify :
  let w := worldAt saturdayNight [] in
  (hour (getTzParts omskRuntime (timeNow w)) = 23
   /\ containsRelativeOrWeekday (js "завтра") = true
   /\ hasExplicitCalendarDate (js "завтра") = false)
  /\ fst (reschedule_trial omskRuntime 42 (js "завтра") w) = NothingToReschedule
  /\ isClarification (fst (reschedule_trial omskRuntime 42 (js "завтра") w)) = false.
Proof.
  run_example.
Qed.

(* ================================================================== *)
(** * The calendar: dates and day numbers *)

(** Goals with divisions by constants. *)
Ltac zdiv := Z.div_mod_to_equations; lia.

(* day-of-era facts *)
Lemma doe_facts (doe : Z) :
  0 <= doe < 146097 ->
  let yoe := (doe - doe / 1460 + doe / 36524 - doe / 146096) / 365 in
  let doy := doe - (365 * yoe + yoe / 4 - yoe / 100) in
  0 <= yoe <= 399 /\ 0 <= doy <= 365.
Proof.
  intros H. cbv zeta.
  zdiv.
Qed.

Lemma civilFromDays_fields (z : Z) :
  let '(y, m, d) := civilFromDays z in
  1 <= m <= 12 /\ 1 <= d <= 31 /\ daysFromCivil y m d = z
  /\ ((z + 719468) / 146097) * 400 <= y <= ((z + 719468) / 146097) * 400 + 400.
Proof.
  unfold civilFromDays.
  set (z' := z + 719468).
  set (era := z' / 146097).
  set (doe := z' mod 146097).
  assert (Hdoe : 0 <= doe < 146097) by (apply Z.mod_pos_bound; lia).
  pose proof (doe_facts doe Hdoe) as Hf. cbv zeta in Hf.
  set (yoe := (doe - doe / 1460 + doe / 36524 - doe / 146096) / 365) in *.
  set (doy := doe - (365 * yoe + yoe / 4 - yoe / 100)) in *.
  set (mp := (5 * doy + 2) / 153).
  destruct Hf as [Hyoe Hdoy].
  assert (Hmp : 0 <= mp <= 11) by (unfold mp; zdiv).
  assert (Hd : 1 <= doy - (153 * mp + 2) / 5 + 1 <= 31) by (unfold mp; zdiv).
  assert (Hz : z = era * 146097 + doe - 719468).
  { unfold era, doe. pose proof (Z.div_mod z' 146097). unfold z' in *. lia. }
  destruct (mp <? 10) eqn:Hlt.
  - apply Z.ltb_lt in Hlt.
    replace (mp + 3 <=? 2) with false by (symmetry; apply Z.leb_gt; lia).
    split; [lia|]. split; [exact Hd|]. split; [|lia].
    unfold daysFromCivil.
    replace (mp + 3 <=? 2) with false by (symmetry; apply Z.leb_gt; lia).
    replace (2 <? mp + 3) with true by (symmetry; apply Z.ltb_lt; lia).
    replace (mp + 3 - 3) with mp by lia.
    replace ((yoe + era * 400) / 400) with era by zdiv.
    replace ((yoe + era * 400) mod 400) with yoe by zdiv.
    unfold doy in *. lia.
  - apply Z.ltb_ge in Hlt.
    replace (mp - 9 <=? 2) with true by (symmetry; apply Z.leb_le; lia).
    split; [lia|]. split; [exact Hd|]. split; [|lia].
    unfold daysFromCivil.
    replace (mp - 9 <=? 2) with true by (symmetry; apply Z.leb_le; lia).
    replace (2 <? mp - 9) with false by (symmetry; apply Z.ltb_ge; lia).
    replace (mp - 9 + 9) with mp by lia.
    replace (yoe + era * 400 + 1 - 1) with (yoe + era * 400) by lia.
    replace ((yoe + era * 400) / 400) with era by zdiv.
    replace ((yoe + era * 400) mod 400) with yoe by zdiv.
    unfold doy in *. lia.
Qed.

(* ================================================================== *)
(** * Decimal text of numbers *)


Lemma isDigit_digitChar (d : Z) : 0 <= d <= 9 -> isDigit (digitChar d) = true.
Proof.
  intros H. unfold isDigit, digitChar.
  apply andb_true_intro. split; apply N.leb_le; lia.
Qed.

Lemma digitVal_digitChar (d : Z) : 0 <= d -> digitVal (digitChar d) = d.
Proof. intros H. unfold digitVal, digitChar. lia. Qed.

Lemma log2_ge (a n : Z) : 0 < a -> a <= n -> Z.log2 a <= Z.log2 n.
Proof. intros. now apply Z.log2_le_mono. Qed.

Lemma digitsOf_1 (n : Z) : 0 <= n < 10 -> digitsOf n = [digitChar n].
Proof.
  intros H. unfold digitsOf. cbn [digitsFuel].
  replace (n <? 10) with true by (symmetry; apply Z.ltb_lt; lia).
  now rewrite Z.mod_small by lia.
Qed.

Lemma digitsOf_2 (n : Z) :
  10 <= n < 100 -> digitsOf n = [digitChar (n / 10); digitChar (n mod 10)].
Proof.
  intros H. unfold digitsOf.
  pose proof (log2_ge 10 n ltac:(lia) ltac:(lia)) as Hl.
  change (Z.log2 10) with 3 in Hl.
  destruct (Z.to_nat (Z.log2 n)) as [|f] eqn:E; [lia|].
  cbn [digitsFuel].
  replace (n <? 10) with false by (symmetry; apply Z.ltb_ge; lia).
  replace (n / 10 <? 10) with true by (symmetry; apply Z.ltb_lt; zdiv).
  f_equal. f_equal. zdiv.
Qed.

Lemma digitsOf_4 (n : Z) :
  1000 <= n < 10000 ->
  digitsOf n = [digitChar (n / 1000); digitChar (n / 100 mod 10);
                digitChar (n / 10 mod 10); digitChar (n mod 10)].
Proof.
  intros H. unfold digitsOf.
  pose proof (log2_ge 1000 n ltac:(lia) ltac:(lia)) as Hl.
  change (Z.log2 1000) with 9 in Hl.
  destruct (Z.to_nat (Z.log2 n)) as [|[|[|f]]] eqn:E; try lia.
  cbn [digitsFuel].
  replace (n <? 10) with false by (symmetry; apply Z.ltb_ge; lia).
  replace (n / 10 <? 10) with false by (symmetry; apply Z.ltb_ge; zdiv).
  replace (n / 10 / 10 <? 10) with false by (symmetry; apply Z.ltb_ge; zdiv).
  replace (n / 10 / 10 / 10 <? 10) with true by (symmetry; apply Z.ltb_lt; zdiv).
  replace (n / 10 / 10 / 10 mod 10) with (n / 1000) by zdiv.
  replace (n / 10 / 10 mod 10) with (n / 100 mod 10) by zdiv.
  reflexivity.
Qed.

Lemma pad2_digits (n : Z) :
  0 <= n < 100 -> pad2 n = [digitChar (n / 10); digitChar (n mod 10)].
Proof.
  intros H. unfold pad2, numToString.
  replace (n <? 0) with false by (symmetry; apply Z.ltb_ge; lia).
  destruct (Z_lt_ge_dec n 10) as [Hs|Hb].
  - rewrite digitsOf_1 by lia. unfold padStart. simpl.
    rewrite Z.div_small by lia. now rewrite Z.mod_small by lia.
  - rewrite digitsOf_2 by lia. reflexivity.
Qed.

Lemma numToString_year (y : Z) :
  1000 <= y < 10000 ->
  numToString y = [digitChar (y / 1000); digitChar (y / 100 mod 10);
                   digitChar (y / 10 mod 10); digitChar (y mod 10)].
Proof.
  intros H. unfold numToString.
  replace (y <? 0) with false by (symmetry; apply Z.ltb_ge; lia).
  now apply digitsOf_4.
Qed.

Lemma parseInt_2 (a b : Z) :
  0 <= a -> 0 <= b -> parseInt [digitChar a; digitChar b] = 10 * a + b.
Proof. intros. unfold parseInt. cbn [fold_left]. rewrite !digitVal_digitChar by lia. lia. Qed.

Lemma parseInt_4 (a b c d : Z) :
  0 <= a -> 0 <= b -> 0 <= c -> 0 <= d ->
  parseInt [digitChar a; digitChar b; digitChar c; digitChar d]
  = 1000 * a + 100 * b + 10 * c + d.
Proof. intros. unfold parseInt. cbn [fold_left]. rewrite !digitVal_digitChar by lia. lia. Qed.

Lemma parseInt_pad2 (n : Z) : 0 <= n < 100 -> parseInt (pad2 n) = n.
Proof.
  intros H. rewrite pad2_digits by exact H. rewrite parseInt_2 by zdiv. zdiv.
Qed.

Lemma parseInt_year (y : Z) : 1000 <= y < 10000 -> parseInt (numToString y) = y.
Proof.
  intros H. rewrite numToString_year by exact H. rewrite parseInt_4 by zdiv. zdiv.
Qed.

(* ================================================================== *)
(** * The matcher on strings of a known shape *)

Lemma rep_exact {A} (p : N -> bool) (ds : jsstring) :
  forall pv rest' i cp (k : cursor -> option A),
    forallb p ds = true ->
    rep p (List.length ds) (Some (List.length ds)) pv (ds ++ rest') i cp k
    = k (mkCursor (fold_left (fun _ x => Some x) ds pv) rest' (i + List.length ds) cp).
Proof.
  induction ds as [|c t IH]; intros pv rest' i cp k Hp.
  - simpl. rewrite Nat.add_0_r. destruct rest'; reflexivity.
  - simpl in Hp. apply andb_prop in Hp as [Hc Ht].
    cbn [List.length app rep Nat.pred option_map]. rewrite Hc. cbn [andb].
    rewrite IH by exact Ht. cbn [fold_left].
    replace (i + S (List.length t))%nat with (S i + List.length t)%nat by lia.
    now destruct (k _).
Qed.

Lemma run_digits_exact {A} (n : nat) (ds rest' : jsstring) (c : cursor)
      (k : cursor -> option A) :
  rest c = ds ++ rest' -> List.length ds = n -> forallb isDigit ds = true ->
  run (digits n n) c k = k (after c ds rest').
Proof.
  intros Hr Hn Hd. unfold digits. cbn [run]. rewrite Hr. subst n.
  now rewrite rep_exact.
Qed.

Lemma run_group_digits {A} (i n : nat) (ds rest' : jsstring) (c : cursor)
      (k : cursor -> option A) :
  rest c = ds ++ rest' -> List.length ds = n -> forallb isDigit ds = true ->
  run (Grp i (digits n n)) c k
  = k (mkCursor (fold_left (fun _ x => Some x) ds (prev c)) rest'
                (pos c + n) ((i, ds) :: caps c)).
Proof.
  intros Hr Hn Hd. cbn [run]. rewrite (run_digits_exact n ds rest') by assumption.
  unfold capture, after. cbn [prev rest pos caps]. rewrite Hn.
  replace (pos c + n - pos c)%nat with (List.length ds) by lia.
  rewrite Hr. rewrite firstn_app, Nat.sub_diag, firstn_all. simpl. now rewrite app_nil_r.
Qed.

Lemma run_Cat {A} (a b : regex) (c : cursor) (k : cursor -> option A) :
  run (Cat a b) c k = run a c (fun c' => run b c' k).
Proof. reflexivity. Qed.

Lemma run_Chr_hit {A} (x : N) (r : jsstring) (c : cursor) (k : cursor -> option A) :
  rest c = x :: r -> run (Chr x) c k = k (mkCursor (Some x) r (S (pos c)) (caps c)).
Proof. intros H. cbn [run]. rewrite H. now rewrite N.eqb_refl. Qed.

Lemma run_Bos_start {A} (c : cursor) (k : cursor -> option A) :
  prev c = None -> run Bos c k = k c.
Proof. intros H. cbn [run]. now rewrite H. Qed.

Lemma run_Eos_end {A} (c : cursor) (k : cursor -> option A) :
  rest c = [] -> run Eos c k = k c.
Proof. intros H. cbn [run]. now rewrite H. Qed.

Lemma run_Eps {A} (c : cursor) (k : cursor -> option A) : run Eps c k = k c.
Proof. reflexivity. Qed.

Lemma searchFrom_hit (r : regex) pv s i m :
  matchAt r pv s i = Some m -> searchFrom r pv s i = Some m.
Proof. intros H. destruct s; simpl; now rewrite H. Qed.

Ltac tidy := cbv beta; cbn [prev rest pos caps List.length Nat.add fold_left app].

Ltac eat_group i n ds :=
  rewrite run_Cat;
  match goal with
  | |- context [run (Grp i (digits n n)) ?c _] =>
      let r := eval cbn [rest] in (rest c) in
      match r with
      | ds ++ ?r' =>
          rewrite (run_group_digits i n ds r') by (try reflexivity; assumption)
      end
  end; tidy.

Ltac eat_char x :=
  rewrite run_Cat;
  match goal with
  | |- context [run (Chr x) ?c _] =>
      let r := eval cbn [rest app] in (rest c) in
      match r with
      | x :: ?r' => rewrite (run_Chr_hit x r') by reflexivity
      end
  end; tidy.

(** The expression of [parseLocalPlainToDate] on a string of the canonical
    shape: it matches, and the groups are the six fields. *)
Lemma exec_localPlain (Y Mo D H Mi S : jsstring) :
  List.length Y = 4%nat -> List.length Mo = 2%nat -> List.length D = 2%nat ->
  List.length H = 2%nat -> List.length Mi = 2%nat -> List.length S = 2%nat ->
  forallb isDigit Y = true -> forallb isDigit Mo = true -> forallb isDigit D = true ->
  forallb isDigit H = true -> forallb isDigit Mi = true -> forallb isDigit S = true ->
  exists m,
    exec re_localPlain
         (Y ++ js "-" ++ Mo ++ js "-" ++ D ++ js "T" ++ H ++ js ":" ++ Mi ++ js ":" ++ S)
    = Some m
    /\ grp m 1 = Y /\ grp m 2 = Mo /\ grp m 3 = D /\ grp m 4 = H /\ grp m 5 = Mi.
Proof.
  intros LY LMo LD LH LMi LS DY DMo DD DH DMi DS.
  unfold exec.
  change (js "-") with [45%N]. change (js "T") with [84%N]. change (js ":") with [58%N].
  set (s := Y ++ _).
  assert (E : exists m, matchAt re_localPlain None s 0 = Some m
                        /\ grp m 1 = Y /\ grp m 2 = Mo /\ grp m 3 = D /\ grp m 4 = H
                        /\ grp m 5 = Mi).
  { unfold matchAt, re_localPlain, cats. cbn [fold_right].
    change (js "-") with [45%N]. change (js "T") with [84%N]. change (js ":") with [58%N].
    cbn [lit]. unfold s.
    rewrite run_Cat, run_Bos_start by reflexivity.
    eat_group 1%nat 4%nat Y. eat_char 45%N.
    eat_group 2%nat 2%nat Mo. eat_char 45%N.
    eat_group 3%nat 2%nat D. eat_char 84%N.
    eat_group 4%nat 2%nat H. eat_char 58%N.
    eat_group 5%nat 2%nat Mi. eat_char 58%N.
    rewrite run_Cat.
    rewrite (run_group_digits 6 2 S [])
      by (try assumption; cbn [rest]; now rewrite app_nil_r).
    tidy.
    rewrite run_Cat, run_Eos_end, run_Eps by reflexivity.
    eexists. split; [reflexivity|]. unfold grp, group. cbn [mcaps assoc Nat.eqb].
    repeat split. }
  destruct E as (m & Em & G). exists m. split; [|exact G].
  now apply searchFrom_hit.
Qed.

(* ================================================================== *)
(** * The zone projection and its inverse *)


Lemma MakeDay_civil (y m d : Z) :
  1 <= m <= 12 -> MakeDay y (m - 1) d = daysFromCivil y m d.
Proof.
  intros H. unfold MakeDay.
  rewrite Z.div_small, Z.mod_small by lia.
  replace (y + 0) with y by lia. replace (m - 1 + 1) with m by lia.
  unfold daysFromCivil. lia.
Qed.

(** The fields [civilAt] reads are a date and a time of day, and put back
    together they are the local second they were read from. *)
Lemma civilAt_fields (off t : Z) :
  let p := civilAt off t in
  let L := t / 1000 + off in
  1 <= month p <= 12 /\ 1 <= day p <= 31
  /\ 0 <= hour p <= 23 /\ 0 <= minute p <= 59 /\ 0 <= second p <= 59
  /\ daysFromCivil (year p) (month p) (day p) = L / 86400
  /\ hour p * 3600 + minute p * 60 + second p = L mod 86400
  /\ ((L / 86400 + 719468) / 146097) * 400 <= year p
     <= ((L / 86400 + 719468) / 146097) * 400 + 400.
Proof.
  cbv zeta. unfold civilAt.
  set (L := t / 1000 + off).
  pose proof (civilFromDays_fields (L / 86400)) as Hc.
  destruct (civilFromDays (L / 86400)) as [[y m] d].
  destruct Hc as (Hm & Hd & Hdays & Hy).
  cbn [year month day hour minute second].
  assert (0 <= L mod 86400 < 86400) by (apply Z.mod_pos_bound; lia).
  repeat split; try lia; try zdiv.
Qed.

Lemma Date_UTC_of_civilAt (off g : Z) :
  let p := civilAt off g in
  (year p < 0 \/ 99 < year p) ->
  Date_UTC (year p) (month p - 1) (day p) (hour p) (minute p) (second p) 0
  = (g / 1000 + off) * 1000
  /\ Date_UTC (year p) (month p - 1) (day p) (hour p) (minute p) 0 0
     = 60000 * ((g / 1000 + off) / 60).
Proof.
  intros p Hy.
  destruct (civilAt_fields off g) as (Hm & Hd & Hh & Hmi & Hs & Hdays & Htime & _).
  fold p in Hm, Hd, Hh, Hmi, Hs, Hdays, Htime.
  unfold Date_UTC.
  replace ((0 <=? year p) && (year p <=? 99)) with false
    by (symmetry; apply andb_false_iff; rewrite Z.leb_gt, Z.leb_gt; lia).
  rewrite MakeDay_civil by exact Hm. rewrite Hdays. unfold msPerDay.
  set (L := g / 1000 + off) in *.
  split; zdiv.
Qed.

Lemma roundDiv_minutes (o r : Z) :
  0 <= r < 1000 -> roundDiv (60000 * o - r) 60000 = o.
Proof. intros H. unfold roundDiv. zdiv. Qed.

Section ZoneFacts.
Variable rt : Runtime.

(** Where the zone is [o] minutes from UTC, [getTzOffsetMinutes] says so
    (for a local year that [Date.UTC] takes as it is). *)
Lemma getTzOffsetMinutes_const (g o : Z) :
  zoneOffset rt g = 60 * o ->
  146097 <= (g / 1000 + 60 * o) / 86400 + 719468 ->
  getTzOffsetMinutes rt g = o.
Proof.
  intros Hz Hera. unfold getTzOffsetMinutes, getTzParts. rewrite Hz. cbv zeta.
  destruct (civilAt_fields (60 * o) g) as (_ & _ & _ & _ & _ & _ & _ & Hy).
  destruct (Date_UTC_of_civilAt (60 * o) g) as [E _].
  { right. assert (1 <= ((g / 1000 + 60 * o) / 86400 + 719468) / 146097) by zdiv. lia. }
  rewrite E.
  replace ((g / 1000 + 60 * o) * 1000 - g) with (60000 * o - g mod 1000) by zdiv.
  apply roundDiv_minutes. apply Z.mod_pos_bound. lia.
Qed.

(** Away from a change of offset, [zonedDateTimeToUTCISO] undoes
    [getTzParts], up to the seconds that it is not given. *)
Lemma zonedDateTimeToUTC_of_parts (t o : Z) :
  Z.abs o <= 1440 ->
  (forall u, Z.abs (u - t) <= 60000 * Z.abs o + 60000 -> zoneOffset rt u = 60 * o) ->
  1000 <= year (getTzParts rt t) ->
  let p := getTzParts rt t in
  zonedDateTimeToUTC rt (year p) (month p) (day p) (hour p) (minute p)
  = 60000 * (t / 60000).
Proof.
  intros Ho Hwin Hyear p.
  assert (Hzt : zoneOffset rt t = 60 * o) by (apply Hwin; lia).
  unfold p, getTzParts in *. rewrite Hzt in *.
  destruct (civilAt_fields (60 * o) t) as (_ & _ & _ & _ & _ & _ & _ & Hy).
  set (q := civilAt (60 * o) t) in *.
  assert (Hera : 292194 <= (t / 1000 + 60 * o) / 86400 + 719468).
  { assert (2 <= ((t / 1000 + 60 * o) / 86400 + 719468) / 146097) by lia. zdiv. }
  destruct (Date_UTC_of_civilAt (60 * o) t) as [_ E0]; [right; fold q; lia|].
  fold q in E0.
  assert (EG : 60000 * ((t / 1000 + 60 * o) / 60) = 60000 * (t / 60000) + 60000 * o)
    by zdiv.
  unfold zonedDateTimeToUTC, refineGuess. rewrite E0, EG.
  set (T := 60000 * (t / 60000)).
  assert (HT : 0 <= t - T < 60000) by (unfold T; zdiv).
  rewrite (getTzOffsetMinutes_const (T + 60000 * o) o).
  - replace (T + 60000 * o - o * 60000) with T by lia.
    destruct (Z.abs (T - (T + 60000 * o)) <? 60000); [reflexivity|].
    cbn [fst]. rewrite (getTzOffsetMinutes_const T o).
    + lia.
    + apply Hwin. lia.
    + zdiv.
  - apply Hwin. lia.
  - zdiv.
Qed.

End ZoneFacts.

Lemma pad2_shape (n : Z) :
  0 <= n < 100 -> List.length (pad2 n) = 2%nat /\ forallb isDigit (pad2 n) = true.
Proof.
  intros H. rewrite pad2_digits by exact H. split; [reflexivity|].
  cbn [forallb]. rewrite !isDigit_digitChar by zdiv. reflexivity.
Qed.

Lemma year_shape (y : Z) :
  1000 <= y < 10000 ->
  List.length (numToString y) = 4%nat /\ forallb isDigit (numToString y) = true.
Proof.
  intros H. rewrite numToString_year by exact H. split; [reflexivity|].
  cbn [forallb]. rewrite !isDigit_digitChar by zdiv. reflexivity.
Qed.

(** C3.  Round trip of the zone projection: for an instant [t] around which
    the zone keeps one offset of [o] whole minutes (no change of offset
    within [|o|] plus one minute of [t]: away from a transition), in a year
    the canonical string writes with four digits, formatting [t] as a
    canonical local string and parsing that string back yields [t] again
    within the tolerance of one minute that the offsets are computed to:
    the instant that comes back is [t] cut to the minute (the seconds of the
    string are not used), so [t] itself when [t] is a whole minute. *)
Theorem local_string_round_trip (rt : Runtime) (t o : Z) :
  Z.abs o <= 1440 ->
  (forall u, Z.abs (u - t) <= 60000 * Z.abs o + 60000 -> zoneOffset rt u = 60 * o) ->
  1000 <= year (getTzParts rt t) <= 9999 ->
  parseLocalPlainToDate rt (formatLocalPlain rt t) = Some (60000 * (t / 60000))
  /\ 0 <= t - 60000 * (t / 60000) < 60000
  /\ (t mod 60000 = 0 -> parseLocalPlainToDate rt (formatLocalPlain rt t) = Some t).
Proof.
  intros Ho Hwin Hyear.
  assert (E : parseLocalPlainToDate rt (formatLocalPlain rt t) = Some (60000 * (t / 60000))).
  { pose proof (zonedDateTimeToUTC_of_parts rt t o Ho Hwin ltac:(lia)) as Hz.
    cbv zeta in Hz. unfold parseLocalPlainToDate, formatLocalPlain. cbv zeta.
    set (p := getTzParts rt t) in *.
    destruct (civilAt_fields (zoneOffset rt t) t) as (Hm & Hd & Hh & Hmi & Hs & _).
    change (civilAt (zoneOffset rt t) t) with p in Hm, Hd, Hh, Hmi, Hs.
    destruct (year_shape (year p)) as [LY DY]; [lia|].
    destruct (pad2_shape (month p)) as [LMo DMo]; [lia|].
    destruct (pad2_shape (day p)) as [LD DD]; [lia|].
    destruct (pad2_shape (hour p)) as [LH DH]; [lia|].
    destruct (pad2_shape (minute p)) as [LMi DMi]; [lia|].
    destruct (pad2_shape (second p)) as [LS DS]; [lia|].
    destruct (exec_localPlain _ _ _ _ _ _ LY LMo LD LH LMi LS DY DMo DD DH DMi DS)
      as (m & Em & G1 & G2 & G3 & G4 & G5).
    rewrite Em, G1, G2, G3, G4, G5.
    rewrite parseInt_year by lia. rewrite !parseInt_pad2 by lia.
    now rewrite Hz. }
  split; [exact E|]. split; [zdiv|].
  intros H0. rewrite E. f_equal. zdiv.
Qed.

Lemma local_string_round_trip_witness :
  parseLocalPlainToDate omskRuntime (formatLocalPlain omskRuntime (saturdayNight + 42123))
  = Some (60000 * ((saturdayNight + 42123) / 60000)).
Proof.
  refine (proj1 (local_string_round_trip omskRuntime (saturdayNight + 42123) 360 _ _ _)).
  - apply Z.leb_le. by_computation.
  - intros u _. reflexivity.
  - split; apply Z.leb_le; by_computation.
Defined.

(* ================================================================== *)
(** * What a match of the numeric date expression looks like *)

(** What a successful greedy repetition consumed. *)
Lemma rep_inv {A} (p : N -> bool) (s : jsstring) :
  forall lo hi pv i cp (k : cursor -> option A) a,
    rep p lo hi pv s i cp k = Some a ->
    exists ds r',
      s = ds ++ r' /\ forallb p ds = true /\ (lo <= List.length ds)%nat
      /\ match hi with Some h => (List.length ds <= h)%nat | None => True end
      /\ k (mkCursor (fold_left (fun _ x => Some x) ds pv) r' (i + List.length ds) cp)
         = Some a.
Proof.
  induction s as [|c t IH]; intros lo hi pv i cp k a H.
  - simpl in H. destruct lo; [|discriminate].
    exists [], []. simpl. rewrite Nat.add_0_r. repeat split; auto.
    destruct hi; [lia | exact I].
  - assert (Hstop : match lo with
                    | O => k (mkCursor pv (c :: t) i cp)
                    | S _ => None
                    end = Some a ->
                    exists ds r',
                      c :: t = ds ++ r' /\ forallb p ds = true
                      /\ (lo <= List.length ds)%nat
                      /\ match hi with
                         | Some h => (List.length ds <= h)%nat
                         | None => True
                         end
                      /\ k (mkCursor (fold_left (fun _ x => Some x) ds pv) r'
                                     (i + List.length ds) cp) = Some a).
    { destruct lo; [|discriminate]. intros Hk.
      exists [], (c :: t). simpl. rewrite Nat.add_0_r. repeat split; auto.
      destruct hi; [lia | exact I]. }
    cbn [rep] in H.
    destruct (match hi with Some 0%nat => false | _ => true end && p c) eqn:Hgo;
      [|now apply Hstop].
    apply andb_prop in Hgo as [Hmore Hc].
    destruct (rep p (Nat.pred lo) (option_map Nat.pred hi) (Some c) t (S i) cp k)
      as [a'|] eqn:Hrec; [|now apply Hstop].
    injection H as <-.
    apply IH in Hrec as (ds & r' & Ht & Hp & Hlo & Hhi & Hk).
    exists (c :: ds), r'. cbn [app forallb List.length fold_left].
    rewrite Hc, Hp, Ht.
    replace (i + S (List.length ds))%nat with (S i + List.length ds)%nat by lia.
    repeat split; auto; try lia.
    destruct hi as [[|h]|]; simpl in *; try discriminate; try lia; exact I.
Qed.

Lemma run_group_rep_inv {A} (g : nat) (p : N -> bool) (lo hi : nat) (c : cursor)
      (k : cursor -> option A) a :
  run (Grp g (Rep p lo (Some hi))) c k = Some a ->
  exists ds r',
    rest c = ds ++ r' /\ forallb p ds = true
    /\ (lo <= List.length ds <= hi)%nat
    /\ k (mkCursor (fold_left (fun _ x => Some x) ds (prev c)) r'
                   (pos c + List.length ds) ((g, ds) :: caps c)) = Some a.
Proof.
  cbn [run]. intros H. apply rep_inv in H as (ds & r' & Hr & Hp & Hlo & Hhi & Hk).
  exists ds, r'. repeat split; auto.
  unfold capture in Hk. cbn [prev rest pos caps] in Hk.
  replace (pos c + List.length ds - pos c)%nat with (List.length ds) in Hk by lia.
  rewrite Hr in Hk. rewrite firstn_app, Nat.sub_diag, firstn_all in Hk.
  simpl in Hk. now rewrite app_nil_r in Hk.
Qed.

Lemma run_dot_inv {A} (c : cursor) (k : cursor -> option A) a :
  run dot c k = Some a ->
  exists r', rest c = 46%N :: r'
             /\ k (mkCursor (Some 46%N) r' (S (pos c)) (caps c)) = Some a.
Proof.
  unfold dot. cbn [run]. destruct (rest c) as [|y t]; [discriminate|].
  unfold oneOf. change (js ".") with [46%N]. cbn [existsb]. rewrite orb_false_r.
  destruct (N.eqb_spec y 46); [|discriminate]. subst y. intros H. now exists t.
Qed.

Lemma searchFrom_inv (r : regex) (s : jsstring) :
  forall pv i m,
    searchFrom r pv s i = Some m ->
    exists pre suf pv',
      s = pre ++ suf /\ matchAt r pv' suf (i + List.length pre) = Some m.
Proof.
  induction s as [|c t IH]; intros pv i m H.
  - simpl in H. destruct (matchAt r pv [] i) eqn:E; [|discriminate].
    injection H as <-. exists [], [], pv. simpl. now rewrite Nat.add_0_r.
  - simpl in H. destruct (matchAt r pv (c :: t) i) eqn:E.
    + injection H as <-. exists [], (c :: t), pv. simpl. now rewrite Nat.add_0_r.
    + apply IH in H as (pre & suf & pv' & Ht & Hm).
      exists (c :: pre), suf, pv'. simpl. rewrite Ht.
      replace (i + S (List.length pre))%nat with (S i + List.length pre)%nat by lia.
      now split.
Qed.

Lemma firstn_exact (a b : jsstring) (n : nat) :
  n = List.length a -> firstn n (a ++ b) = a.
Proof.
  intros ->. rewrite firstn_app, Nat.sub_diag, firstn_all. simpl. apply app_nil_r.
Qed.

Lemma run_WordB {A} (c : cursor) (k : cursor -> option A) :
  run WordB c k = if atBoundary c then k c else None.
Proof. reflexivity. Qed.

Lemma run_Opt {A} (r : regex) (c : cursor) (k : cursor -> option A) :
  run (Opt r) c k = match run r c k with Some a => Some a | None => k c end.
Proof. reflexivity. Qed.

Ltac proj_cursor :=
  repeat match goal with
         | |- context [pos (mkCursor ?a ?b ?c ?d)] =>
             change (pos (mkCursor a b c d)) with c
         | |- context [caps (mkCursor ?a ?b ?c ?d)] =>
             change (caps (mkCursor a b c d)) with d
         end.

Lemma matchAt_dm_inv pv s i m :
  matchAt re_dm pv s i = Some m ->
  isNumericDate m /\ index m = i /\ exists post, s = matched m ++ post.
Proof.
  unfold matchAt, re_dm, cats. cbn [fold_right].
  rewrite run_Cat, run_WordB. destruct (atBoundary _); [|discriminate].
  rewrite run_Cat. intros H.
  apply run_group_rep_inv in H as (D & r1 & Hr1 & HD & LD & H).
  rewrite run_Cat in H. apply run_dot_inv in H as (r2 & Hr2 & H).
  rewrite run_Cat in H. apply run_group_rep_inv in H as (M & r3 & Hr3 & HM & LM & H).
  cbn [rest] in Hr1, Hr2, Hr3.
  rewrite run_Cat, run_Opt in H.
  match type of H with
  | match ?inner with _ => _ end = _ => destruct inner as [a|] eqn:Hin
  end.
  - injection H as <-.
    rewrite run_Cat in Hin. apply run_dot_inv in Hin as (r4 & Hr4 & Hin).
    apply run_group_rep_inv in Hin as (Y & r5 & Hr5 & HY & LY & Hin).
    cbn [rest] in Hr4, Hr5.
    rewrite run_Cat, run_WordB in Hin.
    destruct (atBoundary _); [|discriminate]. rewrite run_Eps in Hin.
    injection Hin as <-.
    proj_cursor.
    assert (Es : s = (D ++ js "." ++ M ++ js "." ++ Y) ++ r5).
    { rewrite Hr1, Hr2, Hr3, Hr4, Hr5. change (js ".") with [46%N].
      rewrite <- !app_assoc. reflexivity. }
    assert (Em : firstn (i + List.length D + 1 + List.length M + 1 + List.length Y - i) s
                 = D ++ js "." ++ M ++ js "." ++ Y).
    { rewrite Es. apply firstn_exact. change (js ".") with [46%N].
      rewrite !length_app. cbn [List.length]. lia. }
    match goal with
    | |- context [firstn ?n s] =>
        replace n
          with (i + List.length D + 1 + List.length M + 1 + List.length Y - i)%nat
          by (destruct i as [|[|?]]; lia)
    end.
    rewrite Em. split; [|split; [reflexivity|]].
    + exists D, M. unfold group. cbn [mcaps assoc Nat.eqb matched].
      repeat split; auto; try lia. right. exists Y. repeat split; auto. lia.
    + exists r5. exact Es.
  - rewrite run_Cat, run_WordB in H.
    destruct (atBoundary _); [|discriminate]. rewrite run_Eps in H.
    injection H as <-.
    proj_cursor.
    assert (Es : s = (D ++ js "." ++ M) ++ r3).
    { rewrite Hr1, Hr2, Hr3. change (js ".") with [46%N].
      rewrite <- !app_assoc. reflexivity. }
    assert (Em : firstn (i + List.length D + 1 + List.length M - i) s
                 = D ++ js "." ++ M).
    { rewrite Es. apply firstn_exact. change (js ".") with [46%N].
      rewrite !length_app. cbn [List.length]. lia. }
    match goal with
    | |- context [firstn ?n s] =>
        replace n with (i + List.length D + 1 + List.length M - i)%nat
          by (destruct i as [|[|?]]; lia)
    end.
    rewrite Em. split; [|split; [reflexivity|]].
    + exists D, M. unfold group. cbn [mcaps assoc Nat.eqb matched].
      repeat split; auto; try lia.
    + exists r3. exact Es.
Qed.

Lemma stripPrefix_app (p r : jsstring) : stripPrefix p (p ++ r) = Some r.
Proof.
  induction p as [|a p IH]; simpl; [now destruct r|]. now rewrite N.eqb_refl.
Qed.

(** Where the text found is the first occurrence of its own text, the
    replacement takes its place. *)
Lemma replaceFirst_at (pat rep : jsstring) (pre post : jsstring) :
  indexOf pat (pre ++ pat ++ post) = Some (List.length pre) ->
  replaceFirst pat rep (pre ++ pat ++ post) = pre ++ rep ++ post.
Proof.
  induction pre as [|c pre IH]; intros H.
  - simpl. destruct (pat ++ post) eqn:E; simpl;
      rewrite <- ?E, stripPrefix_app; reflexivity.
  - cbn [app List.length] in *. cbn [indexOf replaceFirst] in *.
    destruct (stripPrefix pat (c :: pre ++ pat ++ post)); [discriminate|].
    destruct (indexOf pat (pre ++ pat ++ post)) as [n|]; [|discriminate].
    simpl in H. injection H as ->. now rewrite IH.
Qed.

Lemma exec_dm_inv (lower : jsstring) (dm : MatchResult) :
  exec re_dm lower = Some dm ->
  isNumericDate dm
  /\ exists pre post,
      lower = pre ++ matched dm ++ post /\ index dm = List.length pre.
Proof.
  unfold exec. intros H. apply searchFrom_inv in H as (pre & suf & pv & Hs & Hm).
  apply matchAt_dm_inv in Hm as (Hn & Hi & post & Hp).
  split; [exact Hn|]. exists pre, post. split; [now rewrite Hs, Hp | exact Hi].
Qed.

Section NumericFacts.
Variable rt : Runtime.

Lemma normalizeAt_numeric (now : Z) (input : jsstring) (dm : MatchResult) :
  let lower := toLowerCase (trim input) in
  firstWeekday weekdayDefs lower = None ->
  test re_poslezavtra lower = false ->
  test re_zavtra lower = false ->
  test re_segodnya lower = false ->
  exec re_dm lower = Some dm ->
  normalizeAt rt now input = numericBranch rt (getTzParts rt now) lower dm.
Proof.
  intros lower Hw H2 H1 H0 Hdm. unfold normalizeAt.
  fold lower. now rewrite Hw, H2, H1, H0, Hdm.
Qed.

End NumericFacts.

(** What the numeric date rule does with a match.  When the text reaches
    the rule (no weekday or relative rule matched it before) and holds a
    date D.M or D.M.YYYY -- one or two
    digits for the day and for the month, and an optional year of four
    digits -- the resolver takes day, month and year from the match, the year
    of now when there is none, scans for a clock time the remainder only,
    which is the text with the date taken out ([replace] puts a space in the
    place of the first occurrence of the date's text, and that is the match
    itself unless the same text stands earlier), takes 12:00 when
    [extractTime] finds no time in it, and writes the canonical local string
    from these.  For every now, "25.12.2025 в 18:30" gives
    "2025-12-25T18:30:00".  (What [extractTime] finds and what it misses is
    the matter of the next theorem.) *)
Theorem numeric_date_rule (rt : Runtime) (now : Z) :
  (forall (input : jsstring) (dm : MatchResult),
      let lower := toLowerCase (trim input) in
      firstWeekday weekdayDefs lower = None ->
      test re_poslezavtra lower = false ->
      test re_zavtra lower = false ->
      test re_segodnya lower = false ->
      exec re_dm lower = Some dm ->
      let t := extractTime (replaceFirst (matched dm) (js " ") lower) in
      let y := match group dm 3 with
               | Some Y => parseInt Y
               | None => year (getTzParts rt now)
               end in
      isNumericDate dm
      /\ (exists pre post,
            lower = pre ++ matched dm ++ post /\ index dm = List.length pre
            /\ (indexOf (matched dm) lower = Some (index dm) ->
                replaceFirst (matched dm) (js " ") lower = pre ++ js " " ++ post))
      /\ localPlain (normalizeAt rt now input)
         = canonical y (parseInt (grp dm 2)) (parseInt (grp dm 1))
                     (if found t then t_h t else 12) (if found t then t_m t else 0)
      /\ (found t = false ->
          localPlain (normalizeAt rt now input)
          = canonical y (parseInt (grp dm 2)) (parseInt (grp dm 1)) 12 0))
  /\ localPlain (normalizeAt rt now (js "25.12.2025 в 18:30")) = js "2025-12-25T18:30:00".
Proof.
  assert (General :
    forall (input : jsstring) (dm : MatchResult),
      let lower := toLowerCase (trim input) in
      firstWeekday weekdayDefs lower = None ->
      test re_poslezavtra lower = false ->
      test re_zavtra lower = false ->
      test re_segodnya lower = false ->
      exec re_dm lower = Some dm ->
      localPlain (normalizeAt rt now input)
      = canonical (match group dm 3 with
                   | Some Y => parseInt Y
                   | None => year (getTzParts rt now)
                   end)
                  (parseInt (grp dm 2)) (parseInt (grp dm 1))
                  (if found (extractTime (replaceFirst (matched dm) (js " ") lower))
                   then t_h (extractTime (replaceFirst (matched dm) (js " ") lower))
                   else 12)
                  (if found (extractTime (replaceFirst (matched dm) (js " ") lower))
                   then t_m (extractTime (replaceFirst (matched dm) (js " ") lower))
                   else 0)).
  { intros input dm lower Hw H2 H1 H0 Hdm.
    rewrite (normalizeAt_numeric rt now input dm) by assumption. reflexivity. }
  split.
  - intros input dm lower Hw H2 H1 H0 Hdm t y.
    destruct (exec_dm_inv lower dm Hdm) as [Hshape (pre & post & Hw1 & Hw2)].
    split; [exact Hshape|]. split.
    { exists pre, post. split; [exact Hw1|]. split; [exact Hw2|].
      intros Hfirst. rewrite Hw2 in Hfirst. rewrite Hw1 in Hfirst |- *.
      now apply replaceFirst_at. }
    pose proof (General input dm Hw H2 H1 H0 Hdm) as E. fold lower in E. fold t in E.
    split; [exact E|]. intros Hf. rewrite E. now rewrite Hf.
  - pose (dm := mkMatch 0 (js "25.12.2025")
                        [(3%nat, js "2025"); (2%nat, js "12"); (1%nat, js "25")]).
    rewrite (General (js "25.12.2025 в 18:30") dm); try by_computation.
Qed.

Lemma numeric_date_rule_witness :
  localPlain (normalizeAt omskRuntime saturdayMorning (js "Запишите на 7.11, часов в 18:30"))
  = js "2025-11-07T18:30:00".
Proof.
  pose (dm := mkMatch 12 (js "7.11") [(2%nat, js "11"); (1%nat, js "7")]).
  pose proof (proj1 (numeric_date_rule omskRuntime saturdayMorning)
                    (js "Запишите на 7.11, часов в 18:30") dm
                    ltac:(by_computation) ltac:(by_computation) ltac:(by_computation)
                    ltac:(by_computation) ltac:(by_computation)) as H.
  cbv zeta in H. destruct H as (_ & _ & H & _).
  rewrite H. by_computation.
Defined.

(* ================================================================== *)
(** * The hour after the preposition *)

(** [/\bв\s*(\d{1,2})(?::(\d{2}))?\b/] starts at a word boundary and with
    the Cyrillic preposition, which is no word character for [\b]: it can
    start only right after an ASCII letter, digit or underscore. *)
Lemma matchAt_timeAt_needs_word (pv : option N) (s : jsstring) (i : nat) :
  isWordOpt pv && match s with c :: _ => (c =? 1074)%N | [] => false end = false ->
  matchAt re_timeAt pv s i = None.
Proof.
  intros H. unfold matchAt, re_timeAt, cats. cbn [fold_right].
  rewrite run_Cat, run_WordB, run_Cat.
  change (lit (js "в")) with (Chr 1074%N).
  unfold atBoundary. cbn [prev rest run].
  destruct s as [|c t]; [now destruct (xorb _ _)|].
  destruct (N.eqb_spec 1074 c) as [<-|Hne]; [|now destruct (xorb _ _)].
  rewrite N.eqb_refl, andb_true_r in H. rewrite H. reflexivity.
Qed.

Lemma searchFrom_timeAt_needs_word (s : jsstring) : forall pv i,
  prepositionAfterWord pv s = false -> searchFrom re_timeAt pv s i = None.
Proof.
  induction s as [|c t IH]; intros pv i H; cbn [searchFrom].
  - rewrite matchAt_timeAt_needs_word; [reflexivity | apply andb_false_r].
  - cbn [prepositionAfterWord] in H. apply orb_false_elim in H as [H1 H2].
    rewrite (matchAt_timeAt_needs_word pv (c :: t) i H1). now apply IH.
Qed.

Lemma extractTime_without_preposition (source : jsstring) :
  prepositionAfterWord None source = false ->
  exec re_timeAt source = None
  /\ (exec re_timeColon source = None -> extractTime source = mkTime false 12 0).
Proof.
  intros H.
  assert (E : exec re_timeAt source = None)
    by (apply searchFrom_timeAt_needs_word; exact H).
  split; [exact E|]. intros Hc. unfold extractTime. now rewrite E, Hc.
Qed.

(** C5 (the code at the failing inputs).  After a numeric date, an hour
    written with the preposition, as in "25.12.2025 в 18", is not read: the
    expression for it starts with [\b] before a Cyrillic letter, so it
    matches only where an ASCII letter, digit or underscore stands right
    before the preposition, and never after a space or at the start of the
    remainder.  Such a text gets 12:00, for every clock and zone, although
    an explicit clock time stands in the remainder.  A time written H:MM is
    read by the second expression (so "25.12.2025 в 18:30" gives 18:30), and
    where an ASCII character touches the preposition the first expression
    does read the hour. *)
Theorem hour_after_the_preposition_is_not_read :
  (forall source,
      prepositionAfterWord None source = false ->
      exec re_timeAt source = None
      /\ (exec re_timeColon source = None -> extractTime source = mkTime false 12 0))
  /\ (forall (rt : Runtime) (now : Z) (input : jsstring) (dm : MatchResult),
        let lower := toLowerCase (trim input) in
        let remainder := replaceFirst (matched dm) (js " ") lower in
        firstWeekday weekdayDefs lower = None ->
        test re_poslezavtra lower = false ->
        test re_zavtra lower = false ->
        test re_segodnya lower = false ->
        exec re_dm lower = Some dm ->
        prepositionAfterWord None remainder = false ->
        exec re_timeColon remainder = None ->
        localPlain (normalizeAt rt now input)
        = canonical (match group dm 3 with
                     | Some Y => parseInt Y
                     | None => year (getTzParts rt now)
                     end)
                    (parseInt (grp dm 2)) (parseInt (grp dm 1)) 12 0)
  /\ (forall (rt : Runtime) (now : Z),
        localPlain (normalizeAt rt now (js "25.12.2025 в 18")) = js "2025-12-25T12:00:00"
        /\ localPlain (normalizeAt rt now (js "25.12.2025 в 9")) = js "2025-12-25T12:00:00"
        /\ localPlain (normalizeAt rt now (js "в 18 25.12.2025")) = js "2025-12-25T12:00:00"
        /\ localPlain (normalizeAt rt now (js "25.12.2025 в 18:30"))
           = js "2025-12-25T18:30:00"
        /\ localPlain (normalizeAt rt now (js "25.12.2025 xв 18"))
           = js "2025-12-25T18:00:00").
Proof.
  split; [exact extractTime_without_preposition|]. split.
  - intros rt now input dm lower remainder Hw H2 H1 H0 Hdm Hprep Hcolon.
    rewrite (normalizeAt_numeric rt now input dm Hw H2 H1 H0 Hdm).
    unfold numericBranch, build. cbn [localPlain]. fold lower. fold remainder.
    destruct (extractTime_without_preposition remainder Hprep) as [_ E].
    now rewrite (E Hcolon).
  - intros rt now.
    assert (Read : forall input dm,
               firstWeekday weekdayDefs (toLowerCase (trim input)) = None ->
               test re_poslezavtra (toLowerCase (trim input)) = false ->
               test re_zavtra (toLowerCase (trim input)) = false ->
               test re_segodnya (toLowerCase (trim input)) = false ->
               exec re_dm (toLowerCase (trim input)) = Some dm ->
               localPlain (normalizeAt rt now input)
               = localPlain (numericBranch rt (getTzParts rt now)
                                           (toLowerCase (trim input)) dm)).
    { intros input dm Hw H2 H1 H0 Hdm.
      now rewrite (normalizeAt_numeric rt now input dm Hw H2 H1 H0 Hdm). }
    split_all.
    + rewrite (Read _ (mkMatch 0 (js "25.12.2025")
                        [(3%nat, js "2025"); (2%nat, js "12"); (1%nat, js "25")]));
        by_computation.
    + rewrite (Read _ (mkMatch 0 (js "25.12.2025")
                        [(3%nat, js "2025"); (2%nat, js "12"); (1%nat, js "25")]));
        by_computation.
    + rewrite (Read _ (mkMatch 5 (js "25.12.2025")
                        [(3%nat, js "2025"); (2%nat, js "12"); (1%nat, js "25")]));
        by_computation.
    + rewrite (Read _ (mkMatch 0 (js "25.12.2025")
                        [(3%nat, js "2025"); (2%nat, js "12"); (1%nat, js "25")]));
        by_computation.
    + rewrite (Read _ (mkMatch 0 (js "25.12.2025")
                        [(3%nat, js "2025"); (2%nat, js "12"); (1%nat, js "25")]));
        by_computation.
Qed.

(* ================================================================== *)
(** * The resolver in a zone of constant offset *)

Lemma clamp_bounds (lo hi n : Z) : lo <= hi -> lo <= clamp lo hi n <= hi.
Proof. unfold clamp. lia. Qed.

Lemma extractTime_bounds (source : jsstring) :
  0 <= t_h (extractTime source) <= 23 /\ 0 <= t_m (extractTime source) <= 59.
Proof.
  unfold extractTime.
  destruct (exec re_timeAt source) as [m1|].
  - cbn [t_h t_m]. split; [apply clamp_bounds; lia|].
    destruct (group m1 2); [apply clamp_bounds|]; lia.
  - destruct (exec re_timeColon source) as [m2|]; cbn [t_h t_m];
      [split; apply clamp_bounds|]; lia.
Qed.

Lemma hourOf_bounds (text : jsstring) : 0 <= hourOf text <= 23.
Proof.
  unfold hourOf. destruct (found _); [apply extractTime_bounds | lia].
Qed.

Lemma minuteOf_bounds (text : jsstring) : 0 <= minuteOf text <= 59.
Proof.
  unfold minuteOf. destruct (found _); [apply extractTime_bounds | lia].
Qed.

Lemma Date_UTC_of_date (z y mo d h mi : Z) :
  civilFromDays z = (y, mo, d) -> 0 <= z ->
  Date_UTC y (mo - 1) d h mi 0 0 = z * 86400000 + h * 3600000 + mi * 60000.
Proof.
  intros E Hz. pose proof (civilFromDays_fields z) as H. rewrite E in H.
  destruct H as (Hm & Hd & Hdays & Hy).
  assert (4 <= (z + 719468) / 146097) by zdiv.
  unfold Date_UTC.
  replace ((0 <=? y) && (y <=? 99)) with false
    by (symmetry; apply andb_false_iff; rewrite Z.leb_gt, Z.leb_gt; lia).
  rewrite MakeDay_civil by exact Hm. rewrite Hdays. unfold msPerDay. lia.
Qed.

Lemma Date_UTC_whole_minute (y mo d h mi : Z) :
  Date_UTC y mo d h mi 0 0 mod 60000 = 0.
Proof.
  unfold Date_UTC, msPerDay.
  match goal with
  | |- (?a * 86400000 + ?b * 3600000 + ?c * 60000 + 0 * 1000 + 0) mod _ = _ =>
      replace (a * 86400000 + b * 3600000 + c * 60000 + 0 * 1000 + 0)
        with ((a * 1440 + b * 60 + c) * 60000) by lia
  end.
  apply Z.mod_mul. lia.
Qed.

Lemma localDay_nonneg (o now : Z) :
  Z.abs o <= 1440 -> 86400000 <= now -> 0 <= localDay o now.
Proof. intros Ho H. unfold localDay. zdiv. Qed.

Section ConstantZone.
Variable rt : Runtime.
Variable o : Z.
Hypothesis Hzone : constantZone rt o.
Hypothesis Ho : Z.abs o <= 1440.

Lemma zonedDateTimeToUTC_const (y mo d h mi : Z) :
  0 <= Date_UTC y (mo - 1) d h mi 0 0 ->
  zonedDateTimeToUTC rt y mo d h mi = Date_UTC y (mo - 1) d h mi 0 0 - 60000 * o.
Proof using Hzone Ho.
  intros HG. unfold zonedDateTimeToUTC, refineGuess.
  pose proof (Date_UTC_whole_minute y (mo - 1) d h mi) as HGm.
  set (G := Date_UTC y (mo - 1) d h mi 0 0) in *.
  rewrite (getTzOffsetMinutes_const rt G o (Hzone G)) by zdiv.
  replace (G - o * 60000) with (G - 60000 * o) by lia.
  destruct (Z.abs (G - 60000 * o - G) <? 60000); [reflexivity|].
  cbn [fst]. rewrite (getTzOffsetMinutes_const rt (G - 60000 * o) o (Hzone _)) by zdiv.
  lia.
Qed.

Lemma zonedDateTimeToUTC_of_date (z y mo d h mi : Z) :
  civilFromDays z = (y, mo, d) -> 0 <= z -> 0 <= h -> 0 <= mi ->
  zonedDateTimeToUTC rt y mo d h mi = instantAt o z h mi.
Proof using Hzone Ho.
  intros E Hz Hh Hmi. rewrite zonedDateTimeToUTC_const;
    rewrite (Date_UTC_of_date z y mo d h mi E Hz); unfold instantAt; lia.
Qed.

Lemma getTzParts_instantAt (z y mo d h mi : Z) :
  civilFromDays z = (y, mo, d) -> 0 <= h <= 23 -> 0 <= mi <= 59 ->
  getTzParts rt (instantAt o z h mi) = mkParts y mo d h mi 0.
Proof using Hzone.
  intros E Hh Hmi. unfold getTzParts. rewrite Hzone. unfold civilAt, instantAt.
  replace (((z * 86400 + h * 3600 + mi * 60) * 1000 - 60000 * o) / 1000 + 60 * o)
    with (z * 86400 + h * 3600 + mi * 60) by zdiv.
  replace ((z * 86400 + h * 3600 + mi * 60) / 86400) with z by zdiv.
  rewrite E.
  replace ((z * 86400 + h * 3600 + mi * 60) mod 86400) with (h * 3600 + mi * 60) by zdiv.
  f_equal; zdiv.
Qed.

Lemma addDaysLocalParts_const (z y mo d h mi s N : Z) :
  civilFromDays z = (y, mo, d) -> 0 <= z -> 0 <= h <= 23 -> 0 <= mi <= 59 ->
  addDaysLocalParts rt (mkParts y mo d h mi s) N
  = let '(y', mo', d') := civilFromDays (z + N) in mkParts y' mo' d' h mi 0.
Proof using Hzone Ho.
  intros E Hz Hh Hmi. unfold addDaysLocalParts. cbn [year month day hour minute].
  rewrite (zonedDateTimeToUTC_of_date z y mo d h mi E Hz) by lia.
  replace (instantAt o z h mi + N * 24 * 60 * 60 * 1000) with (instantAt o (z + N) h mi)
    by (unfold instantAt; lia).
  destruct (civilFromDays (z + N)) as [[y' mo'] d'] eqn:E'.
  now rewrite (getTzParts_instantAt (z + N) y' mo' d' h mi E').
Qed.

(** The parts of now are the date of its local day. *)
Lemma nowParts_date (now : Z) :
  civilFromDays (localDay o now)
  = (year (getTzParts rt now), month (getTzParts rt now), day (getTzParts rt now)).
Proof using Hzone.
  unfold getTzParts. rewrite Hzone. unfold civilAt, localDay.
  now destruct (civilFromDays ((now / 1000 + 60 * o) / 86400)) as [[y m] d].
Qed.

(** The instant [zonedDateTimeToUTCISO] gives back for the parts of now is
    now cut to the minute. *)
Lemma nowDate_minute (now : Z) :
  86400000 <= now ->
  let p := getTzParts rt now in
  zonedDateTimeToUTC rt (year p) (month p) (day p) (hour p) (minute p)
  = instantAt o (localDay o now) (hour p) (minute p)
  /\ instantAt o (localDay o now) (hour p) (minute p) <= now
     < instantAt o (localDay o now) (hour p) (minute p) + 60000
  /\ 0 <= hour p <= 23 /\ 0 <= minute p <= 59.
Proof using Hzone Ho.
  intros Hnow p.
  pose proof (nowParts_date now) as E. fold p in E.
  pose proof (localDay_nonneg o now Ho Hnow) as Hz.
  destruct (civilAt_fields (60 * o) now) as (_ & _ & Hh & Hmi & Hs & _ & Htime & _).
  assert (Ep : civilAt (60 * o) now = p) by (unfold p, getTzParts; now rewrite Hzone).
  rewrite Ep in Hh, Hmi, Hs, Htime.
  split; [apply (zonedDateTimeToUTC_of_date _ _ _ _ _ _ E Hz); lia|].
  split; [|split; assumption].
  unfold instantAt, localDay in *. zdiv.
Qed.

End ConstantZone.

(* ================================================================== *)
(** * The pair [build] returns *)

Lemma parseLocalPlainToDate_canonical (rt : Runtime) (y mo d h mi : Z) :
  1000 <= y < 10000 -> 0 <= mo < 100 -> 0 <= d < 100 -> 0 <= h < 100 ->
  0 <= mi < 100 ->
  parseLocalPlainToDate rt (canonical y mo d h mi)
  = Some (zonedDateTimeToUTC rt y mo d h mi).
Proof.
  intros Hy Hmo Hd Hh Hmi.
  destruct (year_shape y Hy) as [LY DY].
  destruct (pad2_shape mo Hmo) as [LMo DMo]. destruct (pad2_shape d Hd) as [LD DD].
  destruct (pad2_shape h Hh) as [LH DH]. destruct (pad2_shape mi Hmi) as [LMi DMi].
  destruct (exec_localPlain (numToString y) (pad2 mo) (pad2 d) (pad2 h) (pad2 mi)
                            (js "00") LY LMo LD LH LMi eq_refl DY DMo DD DH DMi eq_refl)
    as (m & Em & G1 & G2 & G3 & G4 & G5).
  unfold parseLocalPlainToDate, canonical.
  change (js ":00") with (js ":" ++ js "00").
  rewrite Em, G1, G2, G3, G4, G5.
  now rewrite parseInt_year, !parseInt_pad2 by assumption.
Qed.

(** X1.  The two strings of a pair that [build] returns name one instant:
    for a four-digit year and fields of at most two digits, the canonical
    local string, read back by [parseLocalPlainToDate], is the instant whose
    ISO text is the other string.  This holds in every zone. *)
Theorem built_pair_names_one_instant (rt : Runtime) (y mo d h mi : Z) :
  1000 <= y < 10000 -> 0 <= mo < 100 -> 0 <= d < 100 -> 0 <= h < 100 ->
  0 <= mi < 100 ->
  exists t,
    parseLocalPlainToDate rt (localPlain (build rt y mo d h mi)) = Some t
    /\ utcISO (build rt y mo d h mi) = toISOString t.
Proof.
  intros Hy Hmo Hd Hh Hmi. exists (zonedDateTimeToUTC rt y mo d h mi).
  split; [|reflexivity].
  now apply parseLocalPlainToDate_canonical.
Qed.

Lemma built_pair_names_one_instant_witness :
  exists t,
    parseLocalPlainToDate omskRuntime (localPlain (build omskRuntime 2025 10 5 18 30))
    = Some t
    /\ utcISO (build omskRuntime 2025 10 5 18 30) = toISOString t.
Proof. apply built_pair_names_one_instant; lia. Defined.

(* ================================================================== *)
(** * Zones of constant offset: the theorems *)

Lemma date_fields_small (z y mo d : Z) :
  civilFromDays z = (y, mo, d) -> 0 <= mo < 100 /\ 0 <= d < 100.
Proof.
  intros E. pose proof (civilFromDays_fields z) as H. rewrite E in H. lia.
Qed.

Lemma date_year_range (z y mo d : Z) :
  civilFromDays z = (y, mo, d) -> 0 <= z < 2786860 -> 1000 <= y < 10000.
Proof.
  intros E Hz. pose proof (civilFromDays_fields z) as H. rewrite E in H.
  destruct H as (_ & _ & _ & Hy).
  assert (4 <= (z + 719468) / 146097 <= 23) by zdiv. lia.
Qed.

(** X2.  In a zone that keeps the offset of [o] minutes,
    [zonedDateTimeToUTCISO] gives the fields read as UTC, less the offset,
    and [getTzParts] of that instant gives the fields back: for the date
    [y]-[mo]-[d] of any day [z] from 1970 on and a time of day [h]:[mi],
    the instant is [instantAt o z h mi] and it projects onto the same
    date and time, with no seconds. *)
Theorem zoned_conversion_inverts_projection
  (rt : Runtime) (o z y mo d h mi : Z) :
  constantZone rt o -> Z.abs o <= 1440 ->
  civilFromDays z = (y, mo, d) -> 0 <= z -> 0 <= h <= 23 -> 0 <= mi <= 59 ->
  zonedDateTimeToUTC rt y mo d h mi = Date_UTC y (mo - 1) d h mi 0 0 - 60000 * o
  /\ zonedDateTimeToUTCISO rt y mo d h mi = toISOString (instantAt o z h mi)
  /\ getTzParts rt (zonedDateTimeToUTC rt y mo d h mi) = mkParts y mo d h mi 0.
Proof.
  intros Hzone Ho E Hz Hh Hmi.
  pose proof (zonedDateTimeToUTC_of_date rt o Hzone Ho z y mo d h mi E Hz
                                         (proj1 Hh) (proj1 Hmi)) as Ht.
  split_all.
  - rewrite Ht, (Date_UTC_of_date z y mo d h mi E Hz). unfold instantAt. lia.
  - unfold zonedDateTimeToUTCISO. now rewrite Ht.
  - rewrite Ht. now apply getTzParts_instantAt.
Qed.

Lemma zoned_conversion_inverts_projection_witness :
  zonedDateTimeToUTC omskRuntime 2025 10 5 18 30
  = Date_UTC 2025 (10 - 1) 5 18 30 0 0 - 60000 * 360
  /\ zonedDateTimeToUTCISO omskRuntime 2025 10 5 18 30
     = toISOString (instantAt 360 20366 18 30)
  /\ getTzParts omskRuntime (zonedDateTimeToUTC omskRuntime 2025 10 5 18 30)
     = mkParts 2025 10 5 18 30 0.
Proof.
  apply (zoned_conversion_inverts_projection omskRuntime 360 20366 2025 10 5 18 30);
    try lia; try reflexivity.
  intros u. reflexivity.
Defined.

(** X3.  [addDaysLocalParts] adds whole calendar days in a zone of constant
    offset: from the date of day [z] it gives the date of day [z + N], in
    the next month or year when the days run over, and keeps the hour and
    the minute it was given. *)
Theorem addDaysLocalParts_adds_calendar_days
  (rt : Runtime) (o z y mo d h mi s N : Z) :
  constantZone rt o -> Z.abs o <= 1440 ->
  civilFromDays z = (y, mo, d) -> 0 <= z -> 0 <= h <= 23 -> 0 <= mi <= 59 ->
  let p := addDaysLocalParts rt (mkParts y mo d h mi s) N in
  civilFromDays (z + N) = (year p, month p, day p)
  /\ hour p = h /\ minute p = mi.
Proof.
  intros Hzone Ho E Hz Hh Hmi p. unfold p.
  rewrite (addDaysLocalParts_const rt o Hzone Ho z y mo d h mi s N E Hz Hh Hmi).
  destruct (civilFromDays (z + N)) as [[y' mo'] d']. now split_all.
Qed.

Lemma addDaysLocalParts_adds_calendar_days_witness :
  let p := addDaysLocalParts omskRuntime (mkParts 2025 12 31 18 30 7) 1 in
  civilFromDays (20453 + 1) = (year p, month p, day p)
  /\ hour p = 18 /\ minute p = 30.
Proof.
  apply (addDaysLocalParts_adds_calendar_days omskRuntime 360 20453 2025 12 31 18 30 7 1);
    try lia; try reflexivity.
  intros u. reflexivity.
Defined.

(** The text of a date of at most two digits a field and a four-digit year
    comes back from [formatDateDDMMYYYY] and from [humanDate]. *)
Lemma formatDateDDMMYYYY_canonical (rt : Runtime) (o z y mo d h mi : Z) :
  constantZone rt o -> Z.abs o <= 1440 ->
  civilFromDays z = (y, mo, d) -> 0 <= z < 2786860 -> 0 <= h <= 23 -> 0 <= mi <= 59 ->
  formatDateDDMMYYYY rt (canonical y mo d h mi)
  = pad2 d ++ js "." ++ pad2 mo ++ js "." ++ numToString y
  /\ humanDate rt (canonical y mo d h mi)
     = pad2 d ++ js "." ++ pad2 mo ++ js "." ++ numToString y.
Proof.
  intros Hzone Ho E Hz Hh Hmi.
  destruct (date_fields_small z y mo d E) as [Hmo Hd].
  pose proof (date_year_range z y mo d E Hz) as Hy.
  unfold formatDateDDMMYYYY, humanDate.
  rewrite parseLocalPlainToDate_canonical by lia.
  rewrite (zonedDateTimeToUTC_of_date rt o Hzone Ho z y mo d h mi E) by lia.
  rewrite (getTzParts_instantAt rt o Hzone z y mo d h mi E Hh Hmi).
  split; reflexivity.
Qed.

(** X4.  The date shown to the user is the date that was stored: in a zone
    of constant offset, for the canonical local string of a date from 1970
    to 9599, [formatDateDDMMYYYY] (the late-night prompt) and the date of the
    answers ([toLocaleDateString] in [ru-RU]) both give DD.MM.YYYY of that
    very date, whatever the time of day in the string. *)
Theorem shown_date_is_the_stored_date (rt : Runtime) (o z y mo d h mi : Z) :
  constantZone rt o -> Z.abs o <= 1440 ->
  civilFromDays z = (y, mo, d) -> 0 <= z < 2786860 -> 0 <= h <= 23 -> 0 <= mi <= 59 ->
  formatDateDDMMYYYY rt (canonical y mo d h mi)
  = pad2 d ++ js "." ++ pad2 mo ++ js "." ++ numToString y
  /\ humanDate rt (canonical y mo d h mi)
     = formatDateDDMMYYYY rt (canonical y mo d h mi).
Proof.
  intros Hzone Ho E Hz Hh Hmi.
  destruct (formatDateDDMMYYYY_canonical rt o z y mo d h mi Hzone Ho E Hz Hh Hmi)
    as [E1 E2].
  split; congruence.
Qed.

Lemma shown_date_is_the_stored_date_witness :
  formatDateDDMMYYYY omskRuntime (canonical 2025 10 5 23 59)
  = pad2 5 ++ js "." ++ pad2 10 ++ js "." ++ numToString 2025
  /\ humanDate omskRuntime (canonical 2025 10 5 23 59)
     = formatDateDDMMYYYY omskRuntime (canonical 2025 10 5 23 59).
Proof.
  apply (shown_date_is_the_stored_date omskRuntime 360 20366 2025 10 5 23 59);
    try lia; try reflexivity.
  intros u. reflexivity.
Defined.

(* ================================================================== *)
(** * The relative words *)

Section RelativeFacts.
Variable rt : Runtime.
Variable o : Z.
Hypothesis Hzone : constantZone rt o.
Hypothesis Ho : Z.abs o <= 1440.

Lemma build_of_day (z y mo d h mi : Z) :
  civilFromDays z = (y, mo, d) -> 0 <= z -> 0 <= h <= 23 -> 0 <= mi <= 59 ->
  build rt y mo d h mi = mkPair (toISOString (instantAt o z h mi)) (canonical y mo d h mi).
Proof using Hzone Ho.
  intros E Hz Hh Hmi. unfold build, zonedDateTimeToUTCISO.
  now rewrite (zonedDateTimeToUTC_of_date rt o Hzone Ho z y mo d h mi E Hz) by lia.
Qed.

Lemma relativeBranch_const (now : Z) (lower : jsstring) (N : Z) :
  86400000 <= now -> 0 <= N ->
  relativeBranch rt (getTzParts rt now) lower N
  = let '(y, mo, d) := civilFromDays (localDay o now + N) in
    mkPair (toISOString (instantAt o (localDay o now + N) (hourOf lower) (minuteOf lower)))
           (canonical y mo d (hourOf lower) (minuteOf lower)).
Proof using Hzone Ho.
  intros Hnow HN. unfold relativeBranch. fold (hourOf lower) (minuteOf lower).
  pose proof (hourOf_bounds lower) as Hh. pose proof (minuteOf_bounds lower) as Hmi.
  pose proof (localDay_nonneg o now Ho Hnow) as Hz.
  cbv zeta.
  rewrite (addDaysLocalParts_const rt o Hzone Ho (localDay o now) _ _ _ _ _ _ N
             (nowParts_date rt o Hzone now) Hz Hh Hmi).
  destruct (civilFromDays (localDay o now + N)) as [[y mo] d] eqn:E.
  cbn [year month day].
  apply build_of_day; [exact E | lia | exact Hh | exact Hmi].
Qed.

Lemma todayBranch_const (now : Z) (lower : jsstring) :
  86400000 <= now ->
  todayBranch rt (getTzParts rt now) lower
  = let '(y, mo, d) := civilFromDays (localDay o now + 0) in
    mkPair (toISOString (instantAt o (localDay o now + 0) (hourOf lower) (minuteOf lower)))
           (canonical y mo d (hourOf lower) (minuteOf lower)).
Proof using Hzone Ho.
  intros Hnow. unfold todayBranch. fold (hourOf lower) (minuteOf lower).
  pose proof (hourOf_bounds lower) as Hh. pose proof (minuteOf_bounds lower) as Hmi.
  pose proof (localDay_nonneg o now Ho Hnow) as Hz.
  cbv zeta. rewrite Z.add_0_r.
  pose proof (nowParts_date rt o Hzone now) as E. rewrite E.
  now apply build_of_day.
Qed.

Lemma normalizeAt_relative (now : Z) (input : jsstring) (N : Z) :
  86400000 <= now ->
  firstWeekday weekdayDefs (toLowerCase (trim input)) = None ->
  relativeDays (toLowerCase (trim input)) = Some N ->
  normalizeAt rt now input
  = let lower := toLowerCase (trim input) in
    let '(y, mo, d) := civilFromDays (localDay o now + N) in
    mkPair (toISOString (instantAt o (localDay o now + N) (hourOf lower) (minuteOf lower)))
           (canonical y mo d (hourOf lower) (minuteOf lower)).
Proof using Hzone Ho.
  intros Hnow Hw HN. unfold normalizeAt. cbv zeta. rewrite Hw.
  unfold relativeDays in HN.
  destruct (test re_poslezavtra _).
  { injection HN as <-. now apply relativeBranch_const. }
  destruct (test re_zavtra _).
  { injection HN as <-. now apply relativeBranch_const. }
  destruct (test re_segodnya _); [|discriminate].
  injection HN as <-. now apply todayBranch_const.
Qed.

End RelativeFacts.

(** X5.  The relative words in a zone of constant offset: a text that
    holds "послезавтра", "завтра" or "сегодня" (the first of them in this
    order decides; no weekday line matches) resolves to the local date of
    now plus 2, 1 or 0 calendar days, at the time found in the text or at
    12:00.  The canonical string is that date and time, and the instant
    string is the instant at which the zone reads them. *)
Theorem relative_words_add_calendar_days
  (rt : Runtime) (o now : Z) (input : jsstring) (N : Z) :
  constantZone rt o -> Z.abs o <= 1440 -> 86400000 <= now ->
  firstWeekday weekdayDefs (toLowerCase (trim input)) = None ->
  relativeDays (toLowerCase (trim input)) = Some N ->
  let lower := toLowerCase (trim input) in
  let day := localDay o now + N in
  exists y mo d,
    civilFromDays day = (y, mo, d)
    /\ localPlain (normalizeAt rt now input)
       = canonical y mo d (hourOf lower) (minuteOf lower)
    /\ utcISO (normalizeAt rt now input)
       = toISOString (instantAt o day (hourOf lower) (minuteOf lower)).
Proof.
  intros Hzone Ho Hnow Hw HN lower day.
  rewrite (normalizeAt_relative rt o Hzone Ho now input N Hnow Hw HN). cbv zeta.
  fold lower day. destruct (civilFromDays day) as [[y mo] d].
  exists y, mo, d. now split_all.
Qed.

Lemma relative_words_add_calendar_days_witness :
  let lower := toLowerCase (trim (js "Послезавтра в 18:30")) in
  let day := localDay 360 saturdayNight + 2 in
  exists y mo d,
    civilFromDays day = (y, mo, d)
    /\ localPlain (normalizeAt omskRuntime saturdayNight (js "Послезавтра в 18:30"))
       = canonical y mo d (hourOf lower) (minuteOf lower)
    /\ utcISO (normalizeAt omskRuntime saturdayNight (js "Послезавтра в 18:30"))
       = toISOString (instantAt 360 day (hourOf lower) (minuteOf lower)).
Proof.
  apply (relative_words_add_calendar_days omskRuntime 360 saturdayNight
           (js "Послезавтра в 18:30") 2).
  - intros u. reflexivity.
  - lia.
  - apply Z.leb_le. by_computation.
  - by_computation.
  - by_computation.
Defined.

(* ================================================================== *)
(** * The relative words and the late-night check *)

Lemma eat_prefix (w : jsstring) : forall c,
  isSome (eat w c) = true <-> exists r, rest c = w ++ r.
Proof.
  induction w as [|x w IH]; intros c; simpl.
  - split; [eauto | reflexivity].
  - destruct (rest c) as [|y t] eqn:E.
    + split; [discriminate | intros (r & Hr); discriminate].
    + destruct (N.eqb_spec x y) as [->|Hne].
      * rewrite IH. simpl. split; intros (r & Hr); exists r; congruence.
      * split; [discriminate | intros (r & Hr); congruence].
Qed.

Lemma accepts_lit (w : jsstring) pv s :
  accepts (lit w) pv s = true <-> exists r, s = w ++ r.
Proof.
  unfold accepts, matchAt. rewrite run_lit.
  rewrite <- (eat_prefix w (mkCursor pv s 0 [])).
  now destruct (eat w _).
Qed.

Lemma anyFrom_lit (w : jsstring) : forall s pv,
  anyFrom (lit w) pv s = true <-> exists a b, s = a ++ w ++ b.
Proof.
  induction s as [|c t IH]; intros pv; simpl; rewrite orb_true_iff, accepts_lit.
  - split.
    + intros [(r & Hr)|H]; [exists [], r; exact Hr | discriminate].
    + intros (a & b & H). left. destruct a; [exists b; exact H | discriminate].
  - rewrite IH. split.
    + intros [(r & Hr)|(a & b & H)]; [exists [], r; exact Hr|].
      exists (c :: a), b. simpl. now rewrite H.
    + intros (a & b & H). destruct a as [|x a]; [left; exists b; exact H|].
      right. exists a, b. simpl in H. congruence.
Qed.

Lemma test_lit_group (i : nat) (w s : jsstring) :
  test (Grp i (lit w)) s = true <-> exists a b, s = a ++ w ++ b.
Proof. now rewrite test_anyFrom, anyFrom_Grp, anyFrom_lit. Qed.

Lemma dropWhile_suffix (p : N -> bool) (s : jsstring) :
  exists a, s = a ++ dropWhile p s.
Proof.
  induction s as [|c t (a & IH)]; simpl; [now exists []|].
  destruct (p c); [|now exists []].
  exists (c :: a). simpl. now rewrite <- IH.
Qed.

Lemma trim_infix (s : jsstring) : exists a b, s = a ++ trim s ++ b.
Proof.
  unfold trim.
  destruct (dropWhile_suffix isSpace s) as (a & Ha).
  destruct (dropWhile_suffix isSpace (rev (dropWhile isSpace s))) as (b & Hb).
  exists a, (rev b).
  rewrite <- rev_app_distr, <- Hb, rev_involutive. exact Ha.
Qed.

Lemma infix_of_trimmed (w input : jsstring) :
  (exists a b, toLowerCase (trim input) = a ++ w ++ b) ->
  exists a b, toLowerCase input = a ++ w ++ b.
Proof.
  intros (a & b & H). destruct (trim_infix input) as (u & v & Hin).
  exists (toLowerCase u ++ a), (b ++ toLowerCase v).
  rewrite Hin at 1. unfold toLowerCase in *. rewrite !map_app, H.
  now rewrite <- !app_assoc.
Qed.

Lemma relative_rule_noticed (input : jsstring) (N : Z) :
  relativeDays (toLowerCase (trim input)) = Some N ->
  containsRelativeOrWeekday input = true.
Proof.
  intros H. unfold containsRelativeOrWeekday. cbv zeta.
  assert (E : test re_relative (toLowerCase input) = true); [|now rewrite E].
  unfold re_relative. rewrite test_anyFrom, anyFrom_Grp. cbn [alts].
  rewrite !anyFrom_Alt, !orb_true_iff, !anyFrom_lit.
  unfold relativeDays in H.
  destruct (test re_poslezavtra _) eqn:E2.
  { right. right. apply infix_of_trimmed. now apply (test_lit_group 1). }
  destruct (test re_zavtra _) eqn:E1.
  { right. left. apply infix_of_trimmed. now apply (test_lit_group 1). }
  destruct (test re_segodnya _) eqn:E0; [|discriminate].
  left. apply infix_of_trimmed. now apply (test_lit_group 1).
Qed.

(** X6.  The parser and the late-night check agree on the relative words:
    every text in which [normalizeWhenLocalPair] finds "послезавтра",
    "завтра" or "сегодня" (it looks in the trimmed text) is a text that
    [containsRelativeOrWeekday] (which looks in the whole text) says holds a
    relative word. *)
Theorem relative_word_of_the_parser_is_noticed (input : jsstring) :
  let lower := toLowerCase (trim input) in
  test re_poslezavtra lower = true \/ test re_zavtra lower = true
  \/ test re_segodnya lower = true ->
  containsRelativeOrWeekday input = true.
Proof.
  intros lower H.
  assert (E : exists N, relativeDays lower = Some N).
  { unfold relativeDays.
    destruct (test re_poslezavtra lower); [eauto|].
    destruct (test re_zavtra lower); [eauto|].
    destruct (test re_segodnya lower); [eauto|].
    destruct H as [H|[H|H]]; discriminate. }
  destruct E as (N & E). exact (relative_rule_noticed input N E).
Qed.

Lemma relative_word_of_the_parser_is_noticed_witness :
  containsRelativeOrWeekday (js "  давайте ЗАВТРА в 10:00 ") = true.
Proof.
  apply relative_word_of_the_parser_is_noticed. right. left. by_computation.
Defined.

(* ================================================================== *)
(** * The prompt of the late-night branch *)

(** X7.  What the late-night branch of [book_trial] asks, in a zone of
    constant offset: for a text with a relative word and no explicit date,
    when the clock read by the check is in the late-night window, the answer
    is the prompt with the date DD.MM.YYYY of the local day of the second
    clock reading (the one of the resolver) plus the days of the word, and
    nothing is stored or sent. *)
Theorem late_night_prompt_shows_the_resolved_day
  (rt : Runtime) (uid o : Z) (reqName reqPhone text : jsstring) (N : Z) (w : World) :
  constantZone rt o -> Z.abs o <= 1440 ->
  firstWeekday weekdayDefs (toLowerCase (trim text)) = None ->
  relativeDays (toLowerCase (trim text)) = Some N ->
  hasExplicitCalendarDate text = false ->
  isLateNightAt rt (clock w (reads w)) = true ->
  let now := clock w (S (reads w)) in
  86400000 <= now < 240000000000000 ->
  exists y mo d,
    civilFromDays (localDay o now + N) = (y, mo, d)
    /\ fst (book_trial rt uid reqName reqPhone text w)
       = ClarifyDate (pad2 d ++ js "." ++ pad2 mo ++ js "." ++ numToString y)
    /\ sameStore w (snd (book_trial rt uid reqName reqPhone text w)).
Proof.
  intros Hzone Ho Hw HN Hexp Hlate now Hnow.
  pose proof (relative_rule_noticed text N HN) as Hrel.
  assert (HN' : 0 <= N <= 2).
  { unfold relativeDays in HN.
    destruct (test re_poslezavtra _); [injection HN as <-; lia|].
    destruct (test re_zavtra _); [injection HN as <-; lia|].
    destruct (test re_segodnya _); [injection HN as <-; lia | discriminate]. }
  assert (Hcheck : lateNightCheck rt text w
                   = (true, mkWorld (clock w) (S (reads w)) (bookings w) (adminInbox w))).
  { unfold lateNightCheck. rewrite Hrel, Hexp. cbn [negb andb].
    unfold isLateNightLocal, bind. rewrite newDate_run. unfold timeNow, ret.
    now rewrite Hlate. }
  rewrite book_trial_late by now rewrite Hcheck.
  rewrite Hcheck. cbn [snd].
  set (w1 := mkWorld _ _ _ _).
  pose proof (clarify_value rt text w1) as Hv.
  pose proof (clarify_store rt text w1) as Hs.
  change (timeNow w1) with now in Hv.
  unfold candidateDate in Hv.
  rewrite (normalizeAt_relative rt o Hzone Ho now text N (proj1 Hnow) Hw HN) in Hv.
  cbv zeta in Hv.
  pose proof (localDay_nonneg o now Ho (proj1 Hnow)) as Hz.
  assert (Hz' : 0 <= localDay o now + N < 2786860) by (unfold localDay in *; zdiv).
  destruct (civilFromDays (localDay o now + N)) as [[y mo] d] eqn:E.
  cbn [localPlain] in Hv.
  destruct (formatDateDDMMYYYY_canonical rt o _ y mo d
              (hourOf (toLowerCase (trim text))) (minuteOf (toLowerCase (trim text)))
              Hzone Ho E Hz' (hourOf_bounds _) (minuteOf_bounds _)) as [Ef _].
  rewrite Ef in Hv.
  exists y, mo, d. split_all; [reflexivity | | ].
  - rewrite Hv. destruct (pad2 d ++ _) eqn:Ed; [|reflexivity].
    destruct (pad2_shape d) as [L _];
      [pose proof (date_fields_small _ _ _ _ E); lia|].
    destruct (pad2 d); discriminate.
  - destruct Hs as (a & b & c). repeat split; assumption.
Qed.

Lemma late_night_prompt_shows_the_resolved_day_witness :
  exists y mo d,
    civilFromDays (localDay 360 saturdayNight + 1) = (y, mo, d)
    /\ fst (book_trial omskRuntime 42 (js "Иван") (js "+7 999 123-45-67")
                       (js "завтра") (worldAt saturdayNight []))
       = ClarifyDate (pad2 d ++ js "." ++ pad2 mo ++ js "." ++ numToString y)
    /\ sameStore (worldAt saturdayNight [])
                 (snd (book_trial omskRuntime 42 (js "Иван") (js "+7 999 123-45-67")
                                  (js "завтра") (worldAt saturdayNight []))).
Proof.
  apply (late_night_prompt_shows_the_resolved_day omskRuntime 42 360 (js "Иван")
           (js "+7 999 123-45-67") (js "завтра") 1 (worldAt saturdayNight [])).
  - intros u. reflexivity.
  - lia.
  - by_computation.
  - by_computation.
  - by_computation.
  - by_computation.
  - split; [apply Z.leb_le | apply Z.ltb_lt]; by_computation.
Defined.

(* ================================================================== *)
(** * The weekday branch, where it is reached *)

Lemma firstWeekday_range (lower : jsstring) (idx : Z) :
  firstWeekday weekdayDefs lower = Some idx -> 0 <= idx <= 6.
Proof.
  unfold weekdayDefs. cbn [firstWeekday].
  repeat match goal with
         | |- (if ?b then _ else _) = _ -> _ => destruct b; [intros [= <-]; lia|]
         end.
  discriminate.
Qed.

Lemma instantAt_mono (o z z' h mi h' mi' : Z) :
  0 <= h <= 23 -> 0 <= mi <= 59 -> 0 <= h' <= 23 -> 0 <= mi' <= 59 ->
  z < z' -> instantAt o z h mi + 60000 <= instantAt o z' h' mi'.
Proof. unfold instantAt. lia. Qed.

Section WeekdayFacts.
Variable rt : Runtime.
Variable o : Z.
Hypothesis Hzone : constantZone rt o.
Hypothesis Hsys : constantSystemZone rt o.
Hypothesis Ho : Z.abs o <= 1440.

Lemma getDay_instantAt (z h mi : Z) :
  0 <= h <= 23 -> 0 <= mi <= 59 -> getDay rt (instantAt o z h mi) = (z + 4) mod 7.
Proof using Hsys.
  intros Hh Hmi. unfold getDay. rewrite Hsys. unfold instantAt.
  replace (((z * 86400 + h * 3600 + mi * 60) * 1000 - 60000 * o) / 1000 + 60 * o)
    with (z * 86400 + h * 3600 + mi * 60) by zdiv.
  replace ((z * 86400 + h * 3600 + mi * 60) / 86400) with z by zdiv.
  reflexivity.
Qed.

Lemma weekdayBranch_const (now : Z) (lower : jsstring) (idx : Z) :
  86400000 <= now -> 0 <= idx <= 6 ->
  exists z y mo d,
    civilFromDays z = (y, mo, d)
    /\ weekdayBranch rt (getTzParts rt now) lower idx
       = mkPair (toISOString (instantAt o z (hourOf lower) (minuteOf lower)))
                (canonical y mo d (hourOf lower) (minuteOf lower))
    /\ (z + 4) mod 7 = idx
    /\ now < instantAt o z (hourOf lower) (minuteOf lower)
    /\ instantAt o (z - 7) (hourOf lower) (minuteOf lower) <= now
    /\ localDay o now <= z.
Proof using Hzone Hsys Ho.
  intros Hnow Hidx. unfold weekdayBranch. fold (hourOf lower) (minuteOf lower).
  pose proof (hourOf_bounds lower) as Hh. pose proof (minuteOf_bounds lower) as Hmi.
  set (h := hourOf lower) in *. set (m := minuteOf lower) in *.
  pose proof (localDay_nonneg o now Ho Hnow) as Hz.
  destruct (nowDate_minute rt o Hzone Ho now Hnow) as (ET & HT & Hhp & Hmp).
  pose proof (nowParts_date rt o Hzone now) as Ep.
  set (p := getTzParts rt now) in *. set (z0 := localDay o now) in *.
  cbv zeta. rewrite ET.
  rewrite (getDay_instantAt z0 (hour p) (minute p) Hhp Hmp).
  set (T := instantAt o z0 (hour p) (minute p)) in *.
  set (dow := (z0 + 4) mod 7).
  assert (Hdow : 0 <= dow <= 6) by (unfold dow; zdiv).
  set (delta := if idx - dow <? 0 then idx - dow + 7 else idx - dow).
  assert (Hdelta : 0 <= delta <= 6 /\ (z0 + delta + 4) mod 7 = idx).
  { unfold delta. destruct (Z.ltb_spec (idx - dow) 0); unfold dow in *; zdiv. }
  rewrite (addDaysLocalParts_const rt o Hzone Ho z0 _ _ _ h m (second p) delta Ep Hz Hh Hmi).
  destruct (civilFromDays (z0 + delta)) as [[y1 mo1] d1] eqn:E1.
  cbn [year month day].
  rewrite (zonedDateTimeToUTC_of_date rt o Hzone Ho (z0 + delta) y1 mo1 d1 h m E1) by lia.
  assert (HT0 : instantAt o z0 0 0 <= T) by (unfold T, instantAt; lia).
  assert (HT1 : T + 60000 <= instantAt o (z0 + 1) 0 0) by (unfold T, instantAt; lia).
  destruct (Z.leb_spec (instantAt o (z0 + delta) h m) T) as [Hle|Hgt].
  - rewrite (addDaysLocalParts_const rt o Hzone Ho (z0 + delta) y1 mo1 d1 h m 0 7 E1)
      by lia.
    destruct (civilFromDays (z0 + delta + 7)) as [[y2 mo2] d2] eqn:E2.
    cbn [year month day].
    exists (z0 + delta + 7), y2, mo2, d2. split_all.
    + exact E2.
    + apply (build_of_day rt o Hzone Ho); [exact E2 | lia | exact Hh | exact Hmi].
    + replace (z0 + delta + 7 + 4) with (z0 + delta + 4 + 1 * 7) by lia.
      rewrite Z.mod_add by lia. apply Hdelta.
    + unfold T, instantAt in *. lia.
    + replace (z0 + delta + 7 - 7) with (z0 + delta) by lia. lia.
    + lia.
  - exists (z0 + delta), y1, mo1, d1. split_all.
    + exact E1.
    + apply (build_of_day rt o Hzone Ho); [exact E1 | lia | exact Hh | exact Hmi].
    + apply Hdelta.
    + assert (T mod 60000 = 0) by (unfold T, instantAt; zdiv).
      assert (instantAt o (z0 + delta) h m mod 60000 = 0) by (unfold instantAt; zdiv).
      clear - H H0 Hgt HT. zdiv.
    + unfold T, instantAt in *. lia.
    + lia.
Qed.

End WeekdayFacts.

(** X8.  The weekday branch, where it is reached and the process runs at
    the offset of the configured zone (kept all year): the text resolves to
    a day of the weekday of the matching line, at the time found in the
    text or at 12:00; that time of that day is after now, and the same time
    a week earlier is not: it is the next occurrence strictly after now,
    today when the time is still to come, a week from today when it has
    passed. *)
Theorem weekday_branch_gives_the_next_occurrence
  (rt : Runtime) (o now : Z) (input : jsstring) (idx : Z) :
  constantZone rt o -> constantSystemZone rt o -> Z.abs o <= 1440 ->
  86400000 <= now ->
  firstWeekday weekdayDefs (toLowerCase (trim input)) = Some idx ->
  let lower := toLowerCase (trim input) in
  let h := hourOf lower in
  let m := minuteOf lower in
  exists z y mo d,
    civilFromDays z = (y, mo, d)
    /\ localPlain (normalizeAt rt now input) = canonical y mo d h m
    /\ utcISO (normalizeAt rt now input) = toISOString (instantAt o z h m)
    /\ getDay rt (instantAt o z h m) = idx
    /\ now < instantAt o z h m
    /\ instantAt o (z - 7) h m <= now.
Proof.
  intros Hzone Hsys Ho Hnow Hw lower h m.
  pose proof (firstWeekday_range _ _ Hw) as Hidx.
  destruct (weekdayBranch_const rt o Hzone Hsys Ho now lower idx Hnow Hidx)
    as (z & y & mo & d & E & Eb & Hday & Hafter & Hbefore & _).
  exists z, y, mo, d.
  assert (En : normalizeAt rt now input = weekdayBranch rt (getTzParts rt now) lower idx).
  { unfold normalizeAt. cbv zeta. now rewrite Hw. }
  rewrite En, Eb. cbn [localPlain utcISO].
  rewrite (getDay_instantAt rt o Hsys z h m (hourOf_bounds _) (minuteOf_bounds _)).
  now split_all.
Qed.

Lemma weekday_branch_gives_the_next_occurrence_witness :
  let rt := mkRuntime omsk omsk (isoParse 21600) None in
  let input := js "1субботу1 18:30" in
  let lower := toLowerCase (trim input) in
  let h := hourOf lower in
  let m := minuteOf lower in
  exists z y mo d,
    civilFromDays z = (y, mo, d)
    /\ localPlain (normalizeAt rt saturdayNight input) = canonical y mo d h m
    /\ utcISO (normalizeAt rt saturdayNight input) = toISOString (instantAt 360 z h m)
    /\ getDay rt (instantAt 360 z h m) = 6
    /\ saturdayNight < instantAt 360 z h m
    /\ instantAt 360 (z - 7) h m <= saturdayNight.
Proof.
  apply (weekday_branch_gives_the_next_occurrence
           (mkRuntime omsk omsk (isoParse 21600) None) 360 saturdayNight
           (js "1субботу1 18:30") 6).
  - intros u. reflexivity.
  - intros u. reflexivity.
  - lia.
  - apply Z.leb_le. by_computation.
  - by_computation.
Defined.

(* ================================================================== *)
(** * What the tools do to the store *)

Lemma nth_error_updateAt_same {A} (f : A -> A) : forall (l : list A) i b,
  nth_error l i = Some b -> nth_error (updateAt i f l) i = Some (f b).
Proof.
  induction l as [|x l IH]; intros [|i] b H; simpl in *; try discriminate.
  - now injection H as ->.
  - now apply IH.
Qed.

Lemma nth_error_updateAt_other {A} (f : A -> A) : forall (l : list A) i j,
  j <> i -> nth_error (updateAt i f l) j = nth_error l j.
Proof.
  induction l as [|x l IH]; intros [|i] [|j] H; simpl; try reflexivity; try congruence.
  apply IH. congruence.
Qed.

Lemma length_updateAt {A} (f : A -> A) : forall (l : list A) i,
  List.length (updateAt i f l) = List.length l.
Proof. induction l as [|x l IH]; intros [|i]; simpl; auto. Qed.

Section EffectFacts.
Variable rt : Runtime.
Variable uid : Z.

Lemma geTime_refl (a : option Z) : a <> None -> geTime a a = true.
Proof. destruct a; [intros _; apply Z.leb_refl | congruence]. Qed.

Lemma geTime_trans (a b c : option Z) :
  geTime a b = true -> geTime b c = true -> geTime a c = true.
Proof.
  destruct a, b, c; simpl; try discriminate. rewrite !Z.leb_le. lia.
Qed.

Lemma geTime_total (a b : option Z) :
  a <> None -> b <> None -> geTime a b = false -> geTime b a = true.
Proof.
  destruct a, b; simpl; try congruence. rewrite Z.leb_gt, Z.leb_le. lia.
Qed.

(** The booking [reduce] settles on is a candidate, and, when every
    creation time is a date, none was created after it. *)
Lemma freshest_fold (others : list (nat * Booking)%type) : forall acc,
  let r := freshest rt acc others in
  (r = acc \/ In r others)
  /\ (createdTime rt (snd acc) <> None ->
      (forall c, In c others -> createdTime rt (snd c) <> None) ->
      geTime (createdTime rt (snd r)) (createdTime rt (snd acc)) = true
      /\ forall c, In c others ->
                   geTime (createdTime rt (snd r)) (createdTime rt (snd c)) = true).
Proof.
  unfold freshest.
  induction others as [|x others IH]; intros acc; cbn [fold_left].
  - split; [now left|]. intros Ha _. split; [now apply geTime_refl | intros c []].
  - destruct (geTime (createdTime rt (snd x)) (createdTime rt (snd acc))) eqn:G.
    + destruct (IH x) as [Hin Hmax]. split.
      * destruct Hin as [->|Hin]; right; [now left | now right].
      * intros Ha Hall.
        destruct (Hmax (Hall x (or_introl eq_refl))
                       (fun c Hc => Hall c (or_intror Hc))) as [Hx Hrest].
        split; [exact (geTime_trans _ _ _ Hx G)|].
        intros c [<-|Hc]; [exact Hx | now apply Hrest].
    + destruct (IH acc) as [Hin Hmax]. split.
      * destruct Hin as [->|Hin]; [now left | right; now right].
      * intros Ha Hall.
        destruct (Hmax Ha (fun c Hc => Hall c (or_intror Hc))) as [Hacc Hrest].
        split; [exact Hacc|].
        intros c [<-|Hc]; [|now apply Hrest].
        apply (geTime_trans _ _ _ Hacc).
        apply geTime_total; [apply Hall; now left | exact Ha | exact G].
Qed.

Lemma freshest_spec (others : list (nat * Booking)%type) (first : nat * Booking) :
  In (freshest rt first others) (first :: others)
  /\ ((forall c, In c (first :: others) -> createdTime rt (snd c) <> None) ->
      forall c, In c (first :: others) ->
                geTime (createdTime rt (snd (freshest rt first others)))
                       (createdTime rt (snd c)) = true).
Proof.
  destruct (freshest_fold others first) as [Hin Hmax]. split.
  - destruct Hin as [->|Hin]; [now left | now right].
  - intros Hall.
    destruct (Hmax (Hall first (or_introl eq_refl))
                   (fun c Hc => Hall c (or_intror Hc))) as [Hf Hrest].
    intros c [<-|Hc]; [exact Hf | now apply Hrest].
Qed.

Lemma reschedule_trial_run text w first others :
  candidatesOf uid (bookings w) = first :: others ->
  fst (lateNightCheck rt text w) = false ->
  let w1 := snd (lateNightCheck rt text w) in
  let target := freshest rt first others in
  let newWhen := localPlain (normalizeAt rt (timeNow w1) text) in
  let stamp := toISOString (clock w1 (S (reads w1))) in
  fst (reschedule_trial rt uid text w)
  = Rescheduled (humanDate rt (when (snd target))) (humanDate rt newWhen)
  /\ bookings (snd (reschedule_trial rt uid text w))
     = updateAt (fst target) (moved newWhen stamp) (bookings w)
  /\ adminInbox (snd (reschedule_trial rt uid text w))
     = adminInbox w
       ++ match ADMIN_CHAT_ID rt with
          | Some _ => [adminLines "Перенос пробной тренировки:"
                                  (moved newWhen stamp (snd target))
                                  [js "Было: " ++ when (snd target);
                                   js "Стало: " ++ newWhen]]
          | None => []
          end.
Proof.
  intros Hc H. unfold reschedule_trial, bind, loadBookings. rewrite Hc.
  pose proof (lateNightCheck_store rt text w) as (Hb & Ha & _).
  destruct (lateNightCheck rt text w) as [late w1]. simpl in H, Hb, Ha. subst late.
  cbn [snd]. rewrite normalizeWhenLocalPair_run, newDate_run.
  unfold notifyAdminReschedule, whenAdmin, sendAdmin, saveBookings, ret, timeNow.
  cbn [clock reads bookings adminInbox fst snd].
  destruct (ADMIN_CHAT_ID rt); cbn [fst snd bookings adminInbox]; rewrite Ha;
    split_all; try reflexivity.
  now rewrite app_nil_r.
Qed.

(** What is left of [cancel_trial] once it has answered that it canceled. *)
Lemma cancel_trial_canceled text w r w' :
  cancel_trial rt uid text w = (r, w') -> reportsChange r = true ->
  exists t dt,
    findTarget rt (candidatesOf uid (bookings w))
               (localPlain (normalizeAt rt (timeNow w) text)) = Some t
    /\ Date_parse rt (when (snd t)) = Some dt
    /\ clock w (S (reads w)) < dt
    /\ r = Canceled (humanDate rt (when (snd t)))
    /\ bookings w'
       = updateAt (fst t)
                  (canceledAtStamp (toISOString (clock w (S (S (reads w))))))
                  (bookings w)
    /\ adminInbox w'
       = adminInbox w
         ++ match ADMIN_CHAT_ID rt with
            | Some _ => [adminLines "Отмена пробной тренировки:" (snd t)
                                    [js "Когда: " ++ when (snd t)]]
            | None => []
            end.
Proof.
  unfold cancel_trial, bind, loadBookings.
  destruct (candidatesOf uid (bookings w)) as [|c cs] eqn:E;
    [intros [= <- <-]; discriminate|].
  rewrite normalizeWhenLocalPair_run.
  destruct (findTarget rt (c :: cs) _) as [t|] eqn:Hf;
    [|intros [= <- <-]; discriminate].
  unfold isFutureDate, parseWhenToDate.
  destruct (Date_parse rt (when (snd t))) as [dt|] eqn:Hd;
    [|intros [= <- <-]; discriminate].
  unfold bind. rewrite newDate_run. unfold timeNow, ret. cbn [clock reads].
  destruct (Z.ltb_spec (clock w (S (reads w))) dt) as [Hlt|Hge];
    [|intros [= <- <-]; discriminate].
  cbn [negb]. rewrite newDate_run.
  unfold whenAdmin, sendAdmin, saveBookings, ret, timeNow.
  cbn [clock reads bookings adminInbox].
  destruct (ADMIN_CHAT_ID rt); intros [= <- <-] _; exists t, dt;
    cbn [bookings adminInbox]; split_all; try reflexivity; try assumption.
  now rewrite app_nil_r.
Qed.

End EffectFacts.

(** X9.  [reschedule_trial] moves one booking and touches nothing else:
    when the user has a booking that is not canceled and the late-night
    branch does not fire, the list keeps its length, one booking of the user
    that was not canceled gets the resolved string as its [when] and the
    time of the call as its [updatedAt], with every other field as it was,
    and every other booking stays as it was.  When every creation time of
    the user's bookings is a date, the one moved is one created last. *)
Theorem reschedule_trial_moves_one_booking
  (rt : Runtime) (uid : Z) (text : jsstring) (w : World) :
  candidatesOf uid (bookings w) <> [] ->
  fst (lateNightCheck rt text w) = false ->
  let w1 := snd (lateNightCheck rt text w) in
  let newWhen := localPlain (normalizeAt rt (timeNow w1) text) in
  let stamp := toISOString (clock w1 (S (reads w1))) in
  let w' := snd (reschedule_trial rt uid text w) in
  exists i b,
    nth_error (bookings w) i = Some b /\ userId b = uid /\ status b <> canceled
    /\ fst (reschedule_trial rt uid text w)
       = Rescheduled (humanDate rt (when b)) (humanDate rt newWhen)
    /\ nth_error (bookings w') i = Some (moved newWhen stamp b)
    /\ (forall j, j <> i -> nth_error (bookings w') j = nth_error (bookings w) j)
    /\ List.length (bookings w') = List.length (bookings w)
    /\ ((forall j c, In (j, c) (candidatesOf uid (bookings w)) ->
                     createdTime rt c <> None) ->
        forall j c, In (j, c) (candidatesOf uid (bookings w)) ->
                    geTime (createdTime rt b) (createdTime rt c) = true).
Proof.
  intros Hc Hl w1 newWhen stamp w'.
  destruct (candidatesOf uid (bookings w)) as [|first others] eqn:E; [congruence|].
  destruct (reschedule_trial_run rt uid text w first others E Hl) as (Hr & Hb & _).
  destruct (freshest_spec rt others first) as [Hin Hmax].
  set (target := freshest rt first others) in *.
  destruct target as [i b] eqn:Et. cbn [fst snd] in *.
  rewrite <- E in Hin. apply candidatesOf_spec in Hin as (Hn & Hu & Hs).
  exists i, b. unfold w'. rewrite Hb. fold w1 newWhen stamp.
  split_all; try assumption.
  - now apply nth_error_updateAt_same.
  - intros j Hj. now apply nth_error_updateAt_other.
  - apply length_updateAt.
  - intros Hall j c Hjc.
    apply (Hmax (fun c0 H0 => Hall (fst c0) (snd c0)
                                   ltac:(now destruct c0)) (j, c) Hjc).
Qed.

Lemma reschedule_trial_moves_one_booking_witness :
  let rt := omskRuntime in
  let w := worldAt saturdayMorning [annaBooking; ivanBooking] in
  let text := js "12.10.2025 18:30" in
  let w1 := snd (lateNightCheck rt text w) in
  let newWhen := localPlain (normalizeAt rt (timeNow w1) text) in
  let stamp := toISOString (clock w1 (S (reads w1))) in
  let w' := snd (reschedule_trial rt 42 text w) in
  exists i b,
    nth_error (bookings w) i = Some b /\ userId b = 42 /\ status b <> canceled
    /\ fst (reschedule_trial rt 42 text w)
       = Rescheduled (humanDate rt (when b)) (humanDate rt newWhen)
    /\ nth_error (bookings w') i = Some (moved newWhen stamp b)
    /\ (forall j, j <> i -> nth_error (bookings w') j = nth_error (bookings w) j)
    /\ List.length (bookings w') = List.length (bookings w)
    /\ ((forall j c, In (j, c) (candidatesOf 42 (bookings w)) ->
                     createdTime rt c <> None) ->
        forall j c, In (j, c) (candidatesOf 42 (bookings w)) ->
                    geTime (createdTime rt b) (createdTime rt c) = true).
Proof.
  apply (reschedule_trial_moves_one_booking omskRuntime 42 (js "12.10.2025 18:30")
           (worldAt saturdayMorning [annaBooking; ivanBooking])).
  - differ.
  - by_computation.
Defined.

(** X10.  [cancel_trial] cancels one booking and touches nothing else: when
    it answers that the booking is canceled, one booking of the user that
    was not canceled and that the requested moment refers to has got the
    status [canceled] and the time of the call as [canceledAt], with every
    other field as it was; every other booking stays as it was; the canceled
    one is no longer among the user's candidates, and it no longer stands in
    the way of a new booking. *)
Theorem cancel_trial_cancels_one_booking
  (rt : Runtime) (uid : Z) (text h : jsstring) (w w' : World) :
  cancel_trial rt uid text w = (Canceled h, w') ->
  let stamp := toISOString (clock w (S (S (reads w)))) in
  exists i b,
    nth_error (bookings w) i = Some b /\ userId b = uid /\ status b <> canceled
    /\ refersTo rt (localPlain (normalizeAt rt (timeNow w) text)) b
    /\ h = humanDate rt (when b)
    /\ nth_error (bookings w') i = Some (canceledAtStamp stamp b)
    /\ (forall j, j <> i -> nth_error (bookings w') j = nth_error (bookings w) j)
    /\ List.length (bookings w') = List.length (bookings w)
    /\ (forall j c, In (j, c) (candidatesOf uid (bookings w'))
                    <-> j <> i /\ In (j, c) (candidatesOf uid (bookings w)))
    /\ (forall phoneNorm, blocksBooking uid phoneNorm (canceledAtStamp stamp b) = false).
Proof.
  intros Hrun stamp.
  destruct (cancel_trial_canceled rt uid text w _ w' Hrun eq_refl)
    as ([i b] & dt & Hf & _ & _ & Hh & Hb & _).
  cbn [fst snd] in *. injection Hh as Hh.
  destruct (findTarget_sound rt _ _ _ Hf) as [Hin Href].
  apply candidatesOf_spec in Hin as (Hn & Hu & Hs). cbn [snd] in Href.
  assert (Hsame : nth_error (bookings w') i = Some (canceledAtStamp stamp b))
    by (rewrite Hb; now apply nth_error_updateAt_same).
  assert (Hother : forall j, j <> i -> nth_error (bookings w') j = nth_error (bookings w) j)
    by (intros j Hj; rewrite Hb; now apply nth_error_updateAt_other).
  exists i, b. split_all; try assumption.
  - rewrite Hb. apply length_updateAt.
  - intros j c. rewrite !candidatesOf_spec. split.
    + intros (Hj & Hcu & Hcs). destruct (Nat.eq_dec j i) as [->|Hne].
      * rewrite Hsame in Hj. injection Hj as <-. now contradiction Hcs.
      * rewrite (Hother j Hne) in Hj. auto.
    + intros (Hne & Hj & Hcu & Hcs). rewrite (Hother j Hne). auto.
  - intros pn. unfold blocksBooking, notCanceled, canceledAtStamp. cbn [status].
    rewrite jsstring_eqb_refl. apply andb_false_r.
Qed.

Lemma cancel_trial_cancels_one_booking_witness :
  let rt := omskRuntime in
  let w := worldAt saturdayNight [annaBooking; ivanBooking] in
  let text := js "10.10.2025" in
  let w' := snd (cancel_trial rt 42 text w) in
  let stamp := toISOString (clock w (S (S (reads w)))) in
  exists i b,
    nth_error (bookings w) i = Some b /\ userId b = 42 /\ status b <> canceled
    /\ refersTo rt (localPlain (normalizeAt rt (timeNow w) text)) b
    /\ js "10.10.2025" = humanDate rt (when b)
    /\ nth_error (bookings w') i = Some (canceledAtStamp stamp b)
    /\ (forall j, j <> i -> nth_error (bookings w') j = nth_error (bookings w) j)
    /\ List.length (bookings w') = List.length (bookings w)
    /\ (forall j c, In (j, c) (candidatesOf 42 (bookings w'))
                    <-> j <> i /\ In (j, c) (candidatesOf 42 (bookings w)))
    /\ (forall phoneNorm, blocksBooking 42 phoneNorm (canceledAtStamp stamp b) = false).
Proof.
  apply (cancel_trial_cancels_one_booking omskRuntime 42 (js "10.10.2025")
           (js "10.10.2025") (worldAt saturdayNight [annaBooking; ivanBooking])).
  by_computation.
Defined.

(* ================================================================== *)
(** * Phone numbers *)

Lemma forallb_stripNonDigits (s : jsstring) : forallb isDigit (stripNonDigits s) = true.
Proof.
  unfold stripNonDigits. induction s as [|c t IH]; simpl; [reflexivity|].
  destruct (isDigit c) eqn:E; simpl; [now rewrite E|exact IH].
Qed.

Lemma normalizePhone_strip (p : jsstring) :
  normalizePhone (stripNonDigits p) = normalizePhone p.
Proof.
  unfold normalizePhone.
  rewrite (normalizePhone_digits _ (forallb_stripNonDigits p)).
  destruct p as [|c t]; [reflexivity|]. cbn [truthy negb].
  destruct (stripNonDigits (c :: t)) as [|x ds] eqn:E; reflexivity.
Qed.

Lemma forallb_normalizePhone (p : jsstring) : forallb isDigit (normalizePhone p) = true.
Proof.
  unfold normalizePhone. pose proof (forallb_stripNonDigits p) as H.
  destruct (negb (truthy p)); [reflexivity|].
  destruct (stripNonDigits p) as [|x ds]; [reflexivity|].
  cbv zeta. cbn [tl]. simpl in H. apply andb_prop in H as [Hx Hds].
  destruct (_ && _); [simpl; exact Hds|].
  destruct (Nat.eqb _ 10); simpl; now rewrite ?Hx, ?Hds.
Qed.

Lemma normalizePhone_of_digits (D : jsstring) :
  forallb isDigit D = true ->
  normalizePhone D
  = if Nat.eqb (List.length D) 11
       && match D with
          | c :: _ => (c =? 56)%N || (c =? 55)%N
          | [] => false
          end
    then 55%N :: tl D
    else if Nat.eqb (List.length D) 10 then 55%N :: D else D.
Proof.
  intros H. unfold normalizePhone. rewrite (normalizePhone_digits D H).
  now destruct D.
Qed.

Lemma normalizePhone_idem (p : jsstring) :
  normalizePhone (normalizePhone p) = normalizePhone p.
Proof.
  rewrite <- (normalizePhone_strip p).
  pose proof (forallb_stripNonDigits p) as H.
  set (D := stripNonDigits p) in *. clearbody D.
  rewrite (normalizePhone_of_digits D H).
  destruct D as [|x ds]; [reflexivity|]. cbn [tl].
  simpl in H. apply andb_prop in H as [Hx Hds].
  destruct (Nat.eqb (List.length (x :: ds)) 11 && ((x =? 56)%N || (x =? 55)%N)) eqn:E11.
  - apply andb_prop in E11 as [EL _]. apply Nat.eqb_eq in EL.
    rewrite normalizePhone_of_digits by (simpl; exact Hds).
    cbn [List.length] in *. rewrite (proj2 (Nat.eqb_eq _ _) EL). reflexivity.
  - destruct (Nat.eqb (List.length (x :: ds)) 10) eqn:E10.
    + apply Nat.eqb_eq in E10.
      rewrite normalizePhone_of_digits by (simpl; now rewrite Hx, Hds).
      cbn [List.length] in *. rewrite E10. reflexivity.
    + rewrite normalizePhone_of_digits by (simpl; now rewrite Hx, Hds).
      now rewrite E11, E10.
Qed.

(** X11.  [normalizePhone] gives a canonical form: its result holds digits
    only, it depends on the digits of the number only (spaces, brackets, the
    plus sign and any other sign change nothing), and normalizing a
    normalized number changes nothing, so the number stored in
    [phoneNormalized] and normalized again by [book_trial] is compared as it
    was stored. *)
Theorem normalizePhone_is_canonical (p : jsstring) :
  forallb isDigit (normalizePhone p) = true
  /\ normalizePhone (stripNonDigits p) = normalizePhone p
  /\ normalizePhone (normalizePhone p) = normalizePhone p.
Proof.
  split_all;
    [apply forallb_normalizePhone | apply normalizePhone_strip | apply normalizePhone_idem].
Qed.

(* ================================================================== *)
(** * Calls one after the other *)

Section SequenceFacts.
Variable rt : Runtime.

(** A call of [book_trial] that finds a blocking record stores nothing. *)
Lemma book_trial_refused (uid : Z) (reqName reqPhone text : jsstring) (w : World) :
  existsb (blocksBooking uid (normalizePhone reqPhone)) (bookings w) = true ->
  let res := book_trial rt uid reqName reqPhone text w in
  (fst res = AlreadyBooked \/ isClarification (fst res) = true)
  /\ bookings (snd res) = bookings w /\ adminInbox (snd res) = adminInbox w.
Proof.
  intros Hex res. unfold res.
  pose proof (lateNightCheck_store rt text w) as (Hb & Ha & _).
  destruct (fst (lateNightCheck rt text w)) eqn:Hl.
  - rewrite (book_trial_late rt uid reqName reqPhone text w Hl).
    pose proof (clarify_store rt text (snd (lateNightCheck rt text w))) as (Hb' & Ha' & _).
    split_all; [right; apply clarify_isClarification | congruence | congruence].
  - rewrite (book_trial_blocked rt uid reqName reqPhone text w Hl Hex).
    split_all; [now left | exact Hb | exact Ha].
Qed.

(** What a call of [book_trial] that answers [Created] has stored. *)
Lemma book_trial_created (uid : Z) (reqName reqPhone text : jsstring) (w : World)
      (r : Reply) :
  fst (book_trial rt uid reqName reqPhone text w) = r -> reportsChange r = true ->
  exists record,
    bookings (snd (book_trial rt uid reqName reqPhone text w)) = bookings w ++ [record]
    /\ userId record = uid /\ name record = reqName /\ phone record = reqPhone
    /\ phoneNormalized record = normalizePhone reqPhone /\ status record = []
    /\ when record
       = localPlain (normalizeAt rt (timeNow (snd (lateNightCheck rt text w))) text)
    /\ r = Created reqName reqPhone (humanDate rt (when record))
    /\ adminInbox (snd (book_trial rt uid reqName reqPhone text w))
       = adminInbox w
         ++ match ADMIN_CHAT_ID rt with
            | Some _ => [adminLines "Новая запись на пробное занятие:" record
                                    [js "Когда: " ++ when record]]
            | None => []
            end.
Proof.
  intros Hr Hc.
  destruct (fst (lateNightCheck rt text w)) eqn:Hl.
  { rewrite (book_trial_late rt uid reqName reqPhone text w Hl) in Hr.
    pose proof (clarify_isClarification rt text (snd (lateNightCheck rt text w))) as Hi.
    rewrite Hr in Hi. destruct r; discriminate. }
  destruct (existsb (blocksBooking uid (normalizePhone reqPhone)) (bookings w)) eqn:Hex.
  { rewrite (book_trial_blocked rt uid reqName reqPhone text w Hl Hex) in Hr.
    simpl in Hr. subst r. discriminate. }
  revert Hr. unfold book_trial, bind.
  pose proof (lateNightCheck_store rt text w) as (Hb & Ha & _).
  destruct (lateNightCheck rt text w) as [late w1]. simpl in Hl, Hb, Ha. subst late.
  unfold loadBookings. rewrite Hb, Hex.
  rewrite normalizeWhenLocalPair_run, newDate_run.
  unfold notifyAdmin, whenAdmin, sendAdmin, appendBooking, ret, timeNow.
  cbn [clock reads bookings adminInbox snd].
  destruct (ADMIN_CHAT_ID rt); cbn [fst snd bookings adminInbox]; intros <-;
    eexists; rewrite Hb, Ha; split_all; try reflexivity.
  now rewrite app_nil_r.
Qed.

End SequenceFacts.

(** X12.  Booking twice creates one booking: after a call of [book_trial]
    that answered that the booking is created, the record it appended
    carries the user, the name, the phone, its normalized form and the
    resolved local string, and is not canceled; so a second call of
    [book_trial] by the same user, whatever it asks for, and a call by any
    other user who gives a phone with the same normalized, non-empty form,
    answer that a booking exists (or ask for the date, at night) and leave
    the bookings as they are. *)
Theorem book_trial_twice_creates_one_booking
  (rt : Runtime) (uid : Z) (reqName reqPhone text human : jsstring) (w : World) :
  fst (book_trial rt uid reqName reqPhone text w) = Created reqName reqPhone human ->
  let w' := snd (book_trial rt uid reqName reqPhone text w) in
  (exists record,
      bookings w' = bookings w ++ [record]
      /\ userId record = uid /\ name record = reqName /\ phone record = reqPhone
      /\ phoneNormalized record = normalizePhone reqPhone /\ status record <> canceled
      /\ human = humanDate rt (when record))
  /\ (forall name2 phone2 text2,
        let res := book_trial rt uid name2 phone2 text2 w' in
        (fst res = AlreadyBooked \/ isClarification (fst res) = true)
        /\ bookings (snd res) = bookings w')
  /\ (forall uid2 name2 phone2 text2,
        normalizePhone phone2 = normalizePhone reqPhone ->
        normalizePhone reqPhone <> [] ->
        let res := book_trial rt uid2 name2 phone2 text2 w' in
        (fst res = AlreadyBooked \/ isClarification (fst res) = true)
        /\ bookings (snd res) = bookings w').
Proof.
  intros Hr w'.
  destruct (book_trial_created rt uid reqName reqPhone text w _ Hr eq_refl)
    as (record & Hb & Hu & Hn & Hp & Hpn & Hs & _ & Hh & _).
  fold w' in Hb.
  assert (Hnc : status record <> canceled) by (rewrite Hs; discriminate).
  split_all.
  - exists record. injection Hh as ->. now split_all.
  - intros name2 phone2 text2 res.
    destruct (book_trial_refused rt uid name2 phone2 text2 w') as (H1 & H2 & _).
    + apply existsb_exists. exists record. split.
      * rewrite Hb. apply in_or_app. right. now left.
      * now apply blocksBooking_same_user.
    + now split.
  - intros uid2 name2 phone2 text2 Hsame Hne res.
    destruct (book_trial_refused rt uid2 name2 phone2 text2 w') as (H1 & H2 & _).
    + apply existsb_exists. exists record. split.
      * rewrite Hb. apply in_or_app. right. now left.
      * apply blocksBooking_same_phone; [|congruence|exact Hnc].
        rewrite Hpn, Hsame. unfold orElse.
        destruct (normalizePhone reqPhone) eqn:E; [congruence|]. cbn [truthy].
        rewrite <- E. apply normalizePhone_idem.
    + now split.
Qed.

Lemma book_trial_twice_creates_one_booking_witness :
  let rt := omskRuntime in
  let w := worldAt saturdayMorning [] in
  let w' := snd (book_trial rt 42 (js "Иван") (js "8 (999) 123-45-67")
                            (js "завтра") w) in
  (exists record,
      bookings w' = bookings w ++ [record]
      /\ userId record = 42 /\ name record = js "Иван"
      /\ phone record = js "8 (999) 123-45-67"
      /\ phoneNormalized record = normalizePhone (js "8 (999) 123-45-67")
      /\ status record <> canceled
      /\ js "05.10.2025" = humanDate rt (when record))
  /\ (forall name2 phone2 text2,
        let res := book_trial rt 42 name2 phone2 text2 w' in
        (fst res = AlreadyBooked \/ isClarification (fst res) = true)
        /\ bookings (snd res) = bookings w')
  /\ (forall uid2 name2 phone2 text2,
        normalizePhone phone2 = normalizePhone (js "8 (999) 123-45-67") ->
        normalizePhone (js "8 (999) 123-45-67") <> [] ->
        let res := book_trial rt uid2 name2 phone2 text2 w' in
        (fst res = AlreadyBooked \/ isClarification (fst res) = true)
        /\ bookings (snd res) = bookings w').
Proof.
  apply (book_trial_twice_creates_one_booking omskRuntime 42 (js "Иван")
           (js "8 (999) 123-45-67") (js "завтра") (js "05.10.2025")
           (worldAt saturdayMorning [])).
  by_computation.
Defined.

(** X13.  The tools tell the administrator of every change, and of nothing
    else: whatever the arguments and the state, a call of [book_trial],
    [reschedule_trial] or [cancel_trial] that answers without reporting a
    change has left the bookings and the messages as they were, and one that
    reports a change has sent exactly one message when an administrator chat
    is configured, and none when it is not. *)
Theorem tools_notify_exactly_on_a_change
  (rt : Runtime) (uid : Z) (reqName reqPhone text : jsstring) (w : World) :
  notifiesOnChange rt w (book_trial rt uid reqName reqPhone text w)
  /\ notifiesOnChange rt w (reschedule_trial rt uid text w)
  /\ notifiesOnChange rt w (cancel_trial rt uid text w).
Proof.
  unfold notifiesOnChange. split_all.
  - intros Hno.
    destruct (fst (lateNightCheck rt text w)) eqn:Hl.
    + pose proof (lateNightCheck_store rt text w) as (Hb & Ha & _).
      rewrite (book_trial_late rt uid reqName reqPhone text w Hl).
      pose proof (clarify_store rt text (snd (lateNightCheck rt text w)))
        as (Hb' & Ha' & _).
      split; congruence.
    + destruct (existsb (blocksBooking uid (normalizePhone reqPhone)) (bookings w))
        eqn:Hex.
      * pose proof (lateNightCheck_store rt text w) as (Hb & Ha & _).
        rewrite (book_trial_blocked rt uid reqName reqPhone text w Hl Hex).
        now split.
      * destruct (book_trial_free rt uid reqName reqPhone text w Hl Hex)
          as (rec & human & w2 & E & _).
        rewrite E in Hno. discriminate.
  - intros Hyes.
    destruct (book_trial_created rt uid reqName reqPhone text w _ eq_refl Hyes)
      as (record & _ & _ & _ & _ & _ & _ & _ & _ & Ha).
    eexists. exact Ha.
  - intros Hno.
    destruct (candidatesOf uid (bookings w)) as [|first others] eqn:E.
    + rewrite (reschedule_trial_none rt uid text w E). now split.
    + assert (Hne : candidatesOf uid (bookings w) <> []) by (rewrite E; discriminate).
      destruct (fst (lateNightCheck rt text w)) eqn:Hl.
      * pose proof (lateNightCheck_store rt text w) as (Hb & Ha & _).
        rewrite (reschedule_trial_late rt uid text w Hne Hl).
        pose proof (clarify_store rt text (snd (lateNightCheck rt text w)))
          as (Hb' & Ha' & _).
        split; congruence.
      * destruct (reschedule_trial_run rt uid text w first others E Hl) as (Hr & _).
        rewrite Hr in Hno. discriminate.
  - intros Hyes.
    destruct (candidatesOf uid (bookings w)) as [|first others] eqn:E.
    + rewrite (reschedule_trial_none rt uid text w E) in Hyes. discriminate.
    + assert (Hne : candidatesOf uid (bookings w) <> []) by (rewrite E; discriminate).
      destruct (fst (lateNightCheck rt text w)) eqn:Hl.
      * rewrite (reschedule_trial_late rt uid text w Hne Hl) in Hyes.
        pose proof (clarify_isClarification rt text (snd (lateNightCheck rt text w)))
          as Hi.
        destruct (fst (clarify rt text _)); discriminate.
      * destruct (reschedule_trial_run rt uid text w first others E Hl) as (_ & _ & Ha).
        eexists. exact Ha.
  - intros Hno.
    destruct (cancel_trial rt uid text w) as [r w2] eqn:Erun. cbn [fst snd] in *.
    revert Erun. unfold cancel_trial, bind, loadBookings.
    destruct (candidatesOf uid (bookings w)) as [|c cs]; [now intros [= <- <-]|].
    rewrite normalizeWhenLocalPair_run.
    destruct (findTarget rt (c :: cs) _) as [t|]; [|now intros [= <- <-]].
    unfold isFutureDate, parseWhenToDate.
    destruct (Date_parse rt (when (snd t))) as [dt|]; [|now intros [= <- <-]].
    unfold bind. rewrite newDate_run. unfold timeNow, ret. cbn [clock reads].
    destruct (clock w (S (reads w)) <? dt); cbn [negb]; [|now intros [= <- <-]].
    rewrite newDate_run. unfold whenAdmin, sendAdmin, saveBookings, ret.
    destruct (ADMIN_CHAT_ID rt); intros [= <- <-]; discriminate.
  - intros Hyes.
    destruct (cancel_trial rt uid text w) as [r w2] eqn:Erun. cbn [fst snd] in *.
    destruct (cancel_trial_canceled rt uid text w _ _ Erun Hyes)
      as (t & dt & _ & _ & _ & _ & _ & Ha).
    eexists. exact Ha.
Qed.

(* ================================================================== *)
(** * [get_upcoming_trial] *)

Lemma In_insertByTime (x y : Booking * Z) (s : list (Booking * Z)%type) :
  In y (insertByTime x s) <-> y = x \/ In y s.
Proof.
  induction s as [|z s IH]; simpl; [intuition congruence|].
  destruct (snd x <=? snd z); simpl; [intuition congruence|].
  rewrite IH. intuition congruence.
Qed.

Lemma In_sortByTime (y : Booking * Z) (l : list (Booking * Z)%type) :
  In y (sortByTime l) <-> In y l.
Proof.
  unfold sortByTime. induction l as [|x l IH]; simpl; [tauto|].
  rewrite In_insertByTime, IH. intuition congruence.
Qed.

(** The first of the sorted candidates is an earliest one. *)
Lemma sortByTime_head (l : list (Booking * Z)%type) (x : Booking * Z)
      (more : list (Booking * Z)%type) :
  sortByTime l = x :: more -> forall y, In y l -> snd x <= snd y.
Proof.
  unfold sortByTime. revert x more.
  induction l as [|a l IH]; intros x more; simpl; [discriminate|].
  destruct (fold_right insertByTime [] l) as [|z s] eqn:E.
  - destruct l as [|b l']; [|exfalso].
    + simpl. intros [= <- <-] y [<-|[]]. lia.
    + assert (Hb : In b (sortByTime (b :: l')))
        by (apply In_sortByTime; now left).
      unfold sortByTime in Hb. rewrite E in Hb. exact Hb.
  - specialize (IH z s eq_refl). simpl.
    destruct (Z.leb_spec (snd a) (snd z)) as [Hle|Hgt].
    + intros [= <- <-] y [<-|Hy]; [lia|]. specialize (IH y Hy). lia.
    + intros [= <- <-] y [<-|Hy]; [lia|]. now apply IH.
Qed.

Section UpcomingFacts.
Variable rt : Runtime.
Variable uid : Z.
Variable now : Z.

(** The bookings kept by the second filter when the clock stands at [now]
    during the call. *)
Lemma keepFuture_frozen (l : list Booking) : forall w,
  (forall n, clock w n = now) ->
  (forall b t, In (b, t) (fst (keepFuture rt l w))
               <-> In b l /\ parseWhenToDate rt (when b) = Some t /\ now < t)
  /\ sameStore w (snd (keepFuture rt l w)).
Proof.
  induction l as [|a l IH]; intros w Hclock.
  - split; [|apply sameStore_refl]. intros b t. simpl. tauto.
  - cbn [keepFuture]. unfold bind.
    destruct (isFutureDate (parseWhenToDate rt (when a)) w) as [future w1] eqn:Ef.
    assert (Hw1 : sameStore w w1
                  /\ forall t, parseWhenToDate rt (when a) = Some t ->
                               future = (now <? t)).
    { revert Ef. unfold isFutureDate.
      destruct (parseWhenToDate rt (when a)) as [t|].
      - unfold bind. rewrite newDate_run. unfold ret, timeNow. rewrite Hclock.
        intros [= <- <-]. split; [repeat split|]. now intros t' [= <-].
      - unfold ret. intros [= <- <-]. split; [apply sameStore_refl | discriminate]. }
    destruct Hw1 as [Hs1 Hfut].
    assert (Hclock1 : forall n, clock w1 n = now)
      by (intros n; destruct Hs1 as (_ & _ & ->); apply Hclock).
    destruct (IH w1 Hclock1) as [Hin Hs2].
    destruct (keepFuture rt l w1) as [kept w2]. cbn [fst snd] in *. unfold ret.
    cbn [fst snd]. split; [|exact (sameStore_trans _ _ _ Hs1 Hs2)].
    intros b t.
    destruct (parseWhenToDate rt (when a)) as [ta|] eqn:Ea.
    + rewrite (Hfut ta eq_refl).
      destruct (Z.ltb_spec now ta) as [Hlt|Hge]; simpl; rewrite Hin.
      * split.
        -- intros [[= <- <-]|(H1 & H2 & H3)]; split_all; auto.
        -- intros ([<-|H1] & H2 & H3); [left; congruence | right; split_all; auto].
      * split.
        -- intros (H1 & H2 & H3). split_all; auto.
        -- intros ([<-|H1] & H2 & H3); [|split_all; auto]. rewrite Ea in H2.
           injection H2 as <-. lia.
    + rewrite Hin. cbn [In]. split.
      * intros (H1 & H2 & H3). split_all; auto.
      * intros ([<-|H1] & H2 & H3); [congruence | split_all; auto].
Qed.

Lemma In_candidates_bookings (stored : list Booking) (b : Booking) :
  In b (map snd (candidatesOf uid stored))
  <-> In b stored /\ userId b = uid /\ status b <> canceled.
Proof.
  rewrite in_map_iff. split.
  - intros ([i c] & <- & Hin). apply candidatesOf_spec in Hin as (Hn & Hu & Hs).
    cbn [snd]. split_all; auto. eapply nth_error_In; eauto.
  - intros (Hin & Hu & Hs). apply In_nth_error in Hin as (i & Hn).
    exists (i, b). split; [reflexivity|]. now apply candidatesOf_spec.
Qed.

End UpcomingFacts.

(** X14.  [get_upcoming_trial] shows the earliest booking to come: for a
    call during which the clock reads [now], the answer is that no booking
    was found exactly when the user has no booking that is not canceled and
    whose [when] reads as a date after [now]; otherwise it shows the date of
    such a booking, none of the others being earlier.  The call stores and
    sends nothing. *)
Theorem get_upcoming_trial_shows_the_earliest
  (rt : Runtime) (uid : Z) (w : World) (now : Z) :
  (forall n, clock w n = now) ->
  let res := get_upcoming_trial rt uid w in
  sameStore w (snd res)
  /\ (fst res = NoUpcoming <-> forall b t, ~ upcomingOf rt uid w now b t)
  /\ (forall human, fst res = Upcoming human ->
        exists b t,
          upcomingOf rt uid w now b t /\ human = humanDate rt (when b)
          /\ forall c u, upcomingOf rt uid w now c u -> t <= u).
Proof.
  intros Hclock res. unfold res, get_upcoming_trial, bind, loadBookings.
  destruct (keepFuture_frozen rt now (map snd (candidatesOf uid (bookings w))) w Hclock)
    as [Hin Hs].
  destruct (keepFuture rt _ w) as [kept w1]. cbn [fst snd] in *.
  assert (Hup : forall b t, In (b, t) kept <-> upcomingOf rt uid w now b t).
  { intros b t. rewrite Hin, (In_candidates_bookings uid). unfold upcomingOf. tauto. }
  destruct (sortByTime kept) as [|[b t] more] eqn:Esort; unfold ret; cbn [fst snd].
  - split_all; [exact Hs | | discriminate].
    split; [intros _ b t Hb | reflexivity].
    apply Hup, In_sortByTime in Hb. rewrite Esort in Hb. exact Hb.
  - assert (Hhead : In (b, t) kept)
      by (apply In_sortByTime; rewrite Esort; now left).
    split_all; [exact Hs | | ].
    + split; [discriminate|]. intros Hnone. exfalso.
      exact (Hnone b t (proj1 (Hup b t) Hhead)).
    + intros human [= <-]. exists b, t. split_all.
      * now apply Hup.
      * reflexivity.
      * intros c u Hc. apply Hup in Hc.
        exact (sortByTime_head kept (b, t) more Esort (c, u) Hc).
Qed.

Lemma get_upcoming_trial_shows_the_earliest_witness :
  let rt := omskRuntime in
  let w := worldAt saturdayMorning [annaBooking; ivanBooking] in
  let res := get_upcoming_trial rt 42 w in
  sameStore w (snd res)
  /\ (fst res = NoUpcoming <-> forall b t, ~ upcomingOf rt 42 w saturdayMorning b t)
  /\ (forall human, fst res = Upcoming human ->
        exists b t,
          upcomingOf rt 42 w saturdayMorning b t /\ human = humanDate rt (when b)
          /\ forall c u, upcomingOf rt 42 w saturdayMorning c u -> t <= u).
Proof.
  apply (get_upcoming_trial_shows_the_earliest omskRuntime 42
           (worldAt saturdayMorning [annaBooking; ivanBooking]) saturdayMorning).
  intros n. reflexivity.
Defined.

(* ================================================================== *)
(** * The answer sent to the chat *)

Lemma dropWhile_head (p : N -> bool) (s : jsstring) :
  p (hd 0%N s) = false -> dropWhile p s = s.
Proof. destruct s as [|c t]; simpl; [reflexivity|]. now intros ->. Qed.

Lemma hd_rev (s : jsstring) : hd 0%N (rev s) = last s 0%N.
Proof.
  induction s as [|c t _] using rev_ind; [reflexivity|].
  now rewrite rev_app_distr, last_last.
Qed.

Lemma trim_id (s : jsstring) :
  isSpace (hd 0%N s) = false -> isSpace (last s 0%N) = false -> trim s = s.
Proof.
  intros Hh Hl. unfold trim. rewrite (dropWhile_head _ s Hh).
  rewrite dropWhile_head by now rewrite hd_rev. apply rev_involutive.
Qed.

Lemma last_app_nonempty (a b : jsstring) (d : N) : b <> [] -> last (a ++ b) d = last b d.
Proof.
  intros Hb. destruct b as [|x b] using rev_ind; [congruence|].
  now rewrite app_assoc, !last_last.
Qed.

Ltac keeps_its_ends :=
  apply trim_id;
  [ vm_compute; reflexivity
  | rewrite ?app_assoc; rewrite last_app_nonempty by (vm_compute; discriminate);
    vm_compute; reflexivity ].

Lemma trim_render (r : Reply) : trim (render r) = render r.
Proof. destruct r; cbn [render]; first [by_computation | keeps_its_ends]. Qed.

Lemma truthy_render (r : Reply) : truthy (render r) = true.
Proof. destruct r; by_computation. Qed.

Lemma trim_renderUpcoming (r : UpcomingReply) : trim (renderUpcoming r) = renderUpcoming r.
Proof. destruct r; cbn [renderUpcoming]; first [by_computation | keeps_its_ends]. Qed.

Lemma truthy_renderUpcoming (r : UpcomingReply) : truthy (renderUpcoming r) = true.
Proof. destruct r; by_computation. Qed.

Lemma chooseReply_one_answer (s text : jsstring) :
  truthy s = true -> trim s = s -> chooseReply (toolResultsToText [Some s]) text = s.
Proof.
  intros Ht Hs. unfold toolResultsToText. cbn [map filter]. rewrite Ht. cbn [join].
  unfold chooseReply. cbv zeta. rewrite Ht, Hs. unfold orElse. now rewrite Ht.
Qed.

Lemma truthy_join (sep : jsstring) (parts : list jsstring) :
  parts <> [] -> (forall s, In s parts -> truthy s = true) ->
  truthy (join sep parts) = true.
Proof.
  destruct parts as [|x more]; [congruence|]. intros _ H.
  assert (Hx : truthy x = true) by (apply H; now left).
  destruct x as [|c x]; [discriminate|]. now destruct more.
Qed.

(** X15.  What the chat gets after a turn of the model.  It is never empty.
    The output of the tools comes before the text of the model: when one
    tool answered, with any of the answers of [book_trial],
    [reschedule_trial], [cancel_trial] or [get_upcoming_trial], the chat gets
    that answer as it is, whatever the model wrote.  When no tool gave any
    output, the chat gets the text of the model, trimmed, or "Готово!" when
    that is blank.  The joined output of the tools is empty exactly when
    every result is. *)
Theorem chat_gets_the_tool_answer :
  (forall toolOut text, truthy (chooseReply toolOut text) = true)
  /\ (forall r text, chooseReply (toolResultsToText [Some (render r)]) text = render r)
  /\ (forall r text,
        chooseReply (toolResultsToText [Some (renderUpcoming r)]) text
        = renderUpcoming r)
  /\ (forall results text,
        (forall s, In (Some s) results -> s = []) ->
        chooseReply (toolResultsToText results) text
        = if truthy (trim text) then trim text else js "Готово!")
  /\ (forall results,
        toolResultsToText results = [] <-> forall s, In (Some s) results -> s = []).
Proof.
  assert (Hempty : forall results,
             toolResultsToText results = [] <-> forall s, In (Some s) results -> s = []).
  { intros results. unfold toolResultsToText.
    match goal with
    | |- join _ (filter truthy ?m) = [] <-> _ => remember m as outs eqn:Eouts
    end.
    split.
    - intros Hj s Hs.
      destruct s as [|c s]; [reflexivity|]. exfalso.
      assert (Hin : In (c :: s) (filter truthy outs)).
      { apply filter_In. split; [|reflexivity].
        rewrite Eouts. apply in_map_iff. exists (Some (c :: s)). now split. }
      assert (Ht : truthy (join [10%N] (filter truthy outs)) = true).
      { apply truthy_join.
        - intros E. rewrite E in Hin. exact Hin.
        - intros x Hx. now apply filter_In in Hx. }
      rewrite Hj in Ht. discriminate.
    - intros Hall.
      assert (E : filter truthy outs = []); [|now rewrite E].
      destruct (filter truthy outs) as [|x more] eqn:E; [reflexivity|]. exfalso.
      assert (Hx : In x (filter truthy outs)) by (rewrite E; now left).
      apply filter_In in Hx as [Hx Ht]. rewrite Eouts in Hx.
      apply in_map_iff in Hx as ([v|] & <- & Hv); [|discriminate].
      rewrite (Hall v Hv) in Ht. discriminate. }
  split_all.
  - intros toolOut text. unfold chooseReply, orElse. cbv zeta.
    destruct (truthy (if truthy toolOut then trim toolOut else toolOut)) eqn:E1;
      [exact E1|].
    destruct (truthy (if truthy text && truthy (trim text) then trim text else [])) eqn:E2;
      [exact E2 | reflexivity].
  - intros r text. apply chooseReply_one_answer; [apply truthy_render | apply trim_render].
  - intros r text.
    apply chooseReply_one_answer; [apply truthy_renderUpcoming | apply trim_renderUpcoming].
  - intros results text Hall. rewrite (proj2 (Hempty results) Hall).
    unfold chooseReply, orElse. cbv zeta. cbn [truthy].
    destruct text as [|c t]; [reflexivity|]. cbn [truthy andb].
    destruct (truthy (trim (c :: t))) eqn:E; [now rewrite E | reflexivity].
  - exact Hempty.
Qed.

(* ================================================================== *)
(** * The sheet *)

Lemma truthy_digitsFuel (fuel : nat) : forall n acc,
  truthy acc = true -> truthy (digitsFuel fuel n acc) = true.
Proof.
  induction fuel as [|f IH]; intros n acc H; cbn [digitsFuel]; [exact H|].
  destruct (n <? 10); [reflexivity | now apply IH].
Qed.

Lemma truthy_numToString (n : Z) : truthy (numToString n) = true.
Proof.
  unfold numToString. destruct (n <? 0); [reflexivity|].
  unfold digitsOf. cbn [digitsFuel].
  destruct (n <? 10); [reflexivity | now apply truthy_digitsFuel].
Qed.

Lemma fillObject_short (header : list jsstring) : forall row k obj,
  fillObject header (row ++ repeat [] k) obj = fillObject header row obj.
Proof.
  induction header as [|h header IH]; intros row k obj; [reflexivity|].
  destruct row as [|c row]; cbn [fillObject app hd tl].
  - destruct k as [|k]; cbn [repeat hd tl]; [reflexivity|].
    rewrite <- (IH [] k). reflexivity.
  - apply IH.
Qed.

Lemma rowToObject_recordToRow (toNumber : jsstring -> option Z) (b : Booking)
      (row : list jsstring) :
  toNumber (numToString (userId b)) = Some (userId b) ->
  rowOf b row ->
  rowToObject toNumber SHEET_HEADER row = objectOf b.
Proof.
  intros Hnum (k & Hrow). unfold rowToObject.
  assert (E : fillObject SHEET_HEADER row []
              = fillObject SHEET_HEADER (recordToRow b) [])
    by (rewrite Hrow; symmetry; apply fillObject_short).
  rewrite E. clear E Hrow.
  pose proof (truthy_numToString (userId b)) as Ht.
  destruct b as [uid n p pn wh cr up st ca]. cbn [userId] in *.
  unfold recordToRow, cellOf, objectOf.
  cbn [userId name phone phoneNormalized when createdAt updatedAt status canceledAt].
  revert Hnum Ht. generalize (numToString uid). intros cell Hnum Ht.
  assert (Efill : fillObject SHEET_HEADER
            (map (fun k0 =>
               if jsstring_eqb k0 (js "userId") then cell
               else if jsstring_eqb k0 (js "name") then n
               else if jsstring_eqb k0 (js "phone") then p
               else if jsstring_eqb k0 (js "phoneNormalized") then pn
               else if jsstring_eqb k0 (js "when") then wh
               else if jsstring_eqb k0 (js "createdAt") then cr
               else if jsstring_eqb k0 (js "updatedAt") then up
               else if jsstring_eqb k0 (js "status") then st
               else if jsstring_eqb k0 (js "canceledAt") then ca
               else []) SHEET_HEADER) []
          = [ (js "userId", VStr cell); (js "name", VStr n); (js "phone", VStr p);
              (js "phoneNormalized", VStr pn); (js "when", VStr wh);
              (js "createdAt", VStr cr); (js "updatedAt", VStr up);
              (js "status", VStr st); (js "canceledAt", VStr ca) ])
    by by_computation.
  rewrite Efill.
  match goal with
  | |- context [getProp ?key ?o] =>
      assert (Eget : getProp key o = Some (VStr cell)) by by_computation;
      rewrite Eget
  end.
  rewrite Ht, Hnum. by_computation.
Qed.

(** X16.  What was saved to the sheet is what is loaded from it: under the
    header [SHEET_HEADER], the rows that [sheetSaveBookings] and
    [sheetAppendBooking] write for a list of bookings, returned by the sheet
    as they were written or without the empty cells at the end of a row, are
    turned by [sheetLoadBookings] into the same bookings, in the same order,
    every column under its name and [userId] a number again, as long as
    [Number] reads back the decimal text of each id. *)
Theorem sheet_rows_round_trip
  (toNumber : jsstring -> option Z) (stored : list Booking)
  (rows : list (list jsstring)) :
  (forall b, In b stored -> toNumber (numToString (userId b)) = Some (userId b)) ->
  Forall2 rowOf stored rows ->
  rowsToObjects toNumber (SHEET_HEADER :: rows) = map objectOf stored.
Proof.
  intros Hnum Hrows. cbn [rowsToObjects].
  induction Hrows as [|b row stored rows Hrow _ IH]; [reflexivity|].
  cbn [map]. f_equal.
  - apply rowToObject_recordToRow; [apply Hnum; now left | exact Hrow].
  - apply IH. intros c Hc. apply Hnum. now right.
Qed.

Lemma sheet_rows_round_trip_witness :
  rowsToObjects decimalNumber
                (SHEET_HEADER :: [firstn 6 (recordToRow ivanBooking);
                                  recordToRow annaBooking])
  = map objectOf [ivanBooking; annaBooking].
Proof.
  apply (sheet_rows_round_trip decimalNumber [ivanBooking; annaBooking]).
  - intros b [<-|[<-|[]]]; by_computation.
  - constructor; [exists 3%nat; by_computation|].
    constructor; [exists 0%nat; by_computation|]. constructor.
Defined.

(* ================================================================== *)
(** * The time of day and the offset *)


(** X18.  [formatLocalRFC3339] writes the offset of the zone: at an instant
    of the epoch at which the zone is [o] minutes from UTC, the text is the
    local date and time of [formatLocalPlain] followed by the sign of [o]
    and its hours and minutes, two digits each. *)
Theorem formatLocalRFC3339_writes_the_zone_offset (rt : Runtime) (t o : Z) :
  zoneOffset rt t = 60 * o -> Z.abs o <= 1440 -> 0 <= t ->
  getTzOffsetMinutes rt t = o
  /\ formatLocalRFC3339 rt t
     = formatLocalPlain rt t ++ (if 0 <=? o then js "+" else js "-")
       ++ pad2 (Z.abs o / 60) ++ js ":" ++ pad2 (Z.abs o mod 60).
Proof.
  intros Hz Ho Ht.
  assert (E : getTzOffsetMinutes rt t = o)
    by (apply getTzOffsetMinutes_const; [exact Hz | zdiv]).
  split; [exact E|].
  unfold formatLocalRFC3339, formatLocalPlain. cbv zeta. rewrite E.
  now rewrite <- !app_assoc.
Qed.

Lemma formatLocalRFC3339_writes_the_zone_offset_witness :
  getTzOffsetMinutes omskRuntime saturdayNight = 360
  /\ formatLocalRFC3339 omskRuntime saturdayNight
     = formatLocalPlain omskRuntime saturdayNight ++ (if 0 <=? 360 then js "+" else js "-")
       ++ pad2 (Z.abs 360 / 60) ++ js ":" ++ pad2 (Z.abs 360 mod 60).
Proof.
  apply (formatLocalRFC3339_writes_the_zone_offset omskRuntime saturdayNight 360).
  - reflexivity.
  - lia.
  - apply Z.leb_le. by_computation.
Defined.

(* ================================================================== *)
(** * A text that is a timestamp *)

(** X19.  A text that no rule of the resolver reads and that [new Date]
    reads as a timestamp resolves to that instant cut to the minute: away
    from a change of offset (the zone keeps one offset of [o] minutes within
    [|o|] plus one minute of the instant), the instant string is the ISO
    text of the whole minute the timestamp lies in, and the canonical string
    is the date and time the zone reads at it, with the seconds as [00]. *)
Theorem timestamp_text_resolves_to_its_minute
  (rt : Runtime) (now : Z) (input : jsstring) (t o : Z) :
  firstWeekday weekdayDefs (toLowerCase (trim input)) = None ->
  relativeDays (toLowerCase (trim input)) = None ->
  exec re_dm (toLowerCase (trim input)) = None ->
  Date_parse rt (trim input) = Some t ->
  Z.abs o <= 1440 ->
  (forall u, Z.abs (u - t) <= 60000 * Z.abs o + 60000 -> zoneOffset rt u = 60 * o) ->
  1000 <= year (getTzParts rt t) ->
  let p := getTzParts rt t in
  utcISO (normalizeAt rt now input) = toISOString (60000 * (t / 60000))
  /\ localPlain (normalizeAt rt now input)
     = canonical (year p) (month p) (day p) (hour p) (minute p).
Proof.
  intros Hw Hrel Hdm Hparse Ho Hwin Hyear p.
  assert (E : normalizeAt rt now input = fallbackBranch rt (trim input)).
  { unfold relativeDays in Hrel.
    destruct (test re_poslezavtra _) eqn:E2; [discriminate|].
    destruct (test re_zavtra _) eqn:E1; [discriminate|].
    destruct (test re_segodnya _) eqn:E0; [discriminate|].
    now apply normalizeAt_fallback. }
  rewrite E. unfold fallbackBranch. rewrite Hparse. fold p.
  unfold build, zonedDateTimeToUTCISO. cbn [utcISO localPlain].
  split; [|reflexivity].
  pose proof (zonedDateTimeToUTC_of_parts rt t o Ho Hwin Hyear) as Hz.
  cbv zeta in Hz. fold p in Hz. now rewrite Hz.
Qed.

Lemma timestamp_text_resolves_to_its_minute_witness :
  let t := Date_UTC 2025 9 5 10 30 45 0 in
  let p := getTzParts omskRuntime t in
  utcISO (normalizeAt omskRuntime saturdayNight (js " 2025-10-05T10:30:45Z "))
  = toISOString (60000 * (t / 60000))
  /\ localPlain (normalizeAt omskRuntime saturdayNight (js " 2025-10-05T10:30:45Z "))
     = canonical (year p) (month p) (day p) (hour p) (minute p).
Proof.
  apply (timestamp_text_resolves_to_its_minute omskRuntime saturdayNight
           (js " 2025-10-05T10:30:45Z ") (Date_UTC 2025 9 5 10 30 45 0) 360).
  - by_computation.
  - by_computation.
  - by_computation.
  - by_computation.
  - lia.
  - intros u _. reflexivity.
  - apply Z.leb_le. by_computation.
Defined.

(* ================================================================== *)
(** * The numeric date and the late-night check *)

Lemma rep_complete {A} (p : N -> bool) (ds : jsstring) :
  forall lo hi pv r i cp (k : cursor -> option A),
    forallb p ds = true -> (lo <= List.length ds <= hi)%nat ->
    (forall j cq, isSome (k (mkCursor (prevAfter pv ds) r j cq)) = true) ->
    isSome (rep p lo (Some hi) pv (ds ++ r) i cp k) = true.
Proof.
  induction ds as [|c ds IH]; intros lo hi pv r i cp k Hp Hlen Hk.
  - simpl in Hlen. assert (lo = 0%nat) by lia. subst lo. cbn [app].
    destruct r as [|y t]; cbn [rep]; [apply Hk|].
    destruct ((match hi with 0%nat => false | S _ => true end) && p y); [|apply Hk].
    destruct (rep p _ _ _ t _ cp k); [reflexivity | apply Hk].
  - cbn [app rep]. cbn [forallb] in Hp. apply andb_prop in Hp as [Hc Hds].
    cbn [List.length] in Hlen. destruct hi as [|hi]; [lia|]. rewrite Hc. cbn [andb].
    assert (Hrec : isSome (rep p (Nat.pred lo) (option_map Nat.pred (Some (S hi)))
                               (Some c) (ds ++ r) (S i) cp k) = true).
    { cbn [option_map Nat.pred]. apply IH; [exact Hds | lia | exact Hk]. }
    destruct (rep p (Nat.pred lo) _ (Some c) (ds ++ r) (S i) cp k);
      [reflexivity | discriminate].
Qed.

Lemma prevAfter_app (pv : option N) (a b : jsstring) :
  prevAfter pv (a ++ b) = prevAfter (prevAfter pv a) b.
Proof. apply fold_left_app. Qed.

Lemma prevAfter_nonempty (pv pv' : option N) (s : jsstring) :
  s <> [] -> prevAfter pv s = prevAfter pv' s.
Proof.
  destruct s as [|c s]; [congruence|]. intros _. reflexivity.
Qed.

(** A match of the numeric date expression shows the shape. *)
Lemma accepts_dm_shape (pv : option N) (s : jsstring) :
  accepts re_dm pv s = true -> numericDateAt pv s.
Proof.
  unfold accepts, matchAt, re_dm, cats. cbn [fold_right].
  rewrite run_Cat, run_WordB.
  destruct (atBoundary (mkCursor pv s 0 [])) eqn:B0; [|discriminate].
  rewrite run_Cat.
  match goal with
  | |- isSome ?x = true -> _ => destruct x as [m|] eqn:H; [intros _|discriminate]
  end.
  split; [exact B0|].
  apply run_group_rep_inv in H as (D & r1 & Hr1 & HD & LD & H).
  rewrite run_Cat in H. apply run_dot_inv in H as (r2 & Hr2 & H).
  rewrite run_Cat in H. apply run_group_rep_inv in H as (M & r3 & Hr3 & HM & LM & H).
  cbn [rest prev] in Hr1, Hr2, Hr3, H.
  exists D, M, r3. split; [now rewrite Hr1, Hr2, Hr3|].
  split; [exact HD|]. split; [exact LD|]. split; [exact HM|]. split; [exact LM|].
  rewrite run_Cat, run_Opt in H.
  match type of H with
  | match ?inner with _ => _ end = _ => destruct inner as [a|] eqn:Hin
  end.
  - right. rewrite run_Cat in Hin. apply run_dot_inv in Hin as (r4 & Hr4 & Hin).
    apply run_group_rep_inv in Hin as (Y & r5 & Hr5 & HY & LY & Hin).
    cbn [rest prev] in Hr4, Hr5, Hin.
    rewrite run_Cat, run_WordB in Hin.
    match type of Hin with
    | (if atBoundary ?c then _ else _) = _ =>
        destruct (atBoundary c) eqn:B2; [|discriminate]
    end.
    exists Y, r5. split; [now rewrite Hr4, Hr5|]. split; [exact HY|].
    split; [lia | exact B2].
  - left. rewrite run_Cat, run_WordB in H.
    match type of H with
    | (if atBoundary ?c then _ else _) = _ =>
        destruct (atBoundary c) eqn:B1; [exact B1 | discriminate]
    end.
Qed.

(** The shape is enough for the expression of [hasExplicitCalendarDate]. *)
Lemma shape_accepts_dmLoose (pv : option N) (s : jsstring) :
  numericDateAt pv s -> accepts re_dmLoose pv s = true.
Proof.
  intros (B0 & D & M & r & -> & HD & LD & HM & LM & Hend).
  unfold accepts, matchAt, re_dmLoose, cats. cbn [fold_right].
  rewrite run_Cat, run_WordB.
  change (atBoundary (mkCursor pv (D ++ 46%N :: M ++ r) 0 []))
    with (boundaryAt pv (D ++ 46%N :: M ++ r)).
  rewrite B0. rewrite run_Cat. unfold digits at 1. cbn [run]. cbn [prev rest pos caps].
  apply rep_complete; [exact HD | exact LD|]. intros j cq.
  cbn [rest]. unfold dot at 1, oneOf. change (js ".") with [46%N].
  cbn [existsb N.eqb Pos.eqb orb]. cbn [prev rest pos caps].
  apply rep_complete; [exact HM | exact LM|]. intros j' cq'.
  match goal with
  | |- isSome (match ?inner with _ => _ end) = true => destruct inner eqn:Hin
  end; [reflexivity|].
  destruct Hend as [B1 | (Y & r' & -> & HY & LY & B2)].
  - cbn [prev rest]. change (atBoundary (mkCursor ?a ?b ?c ?d)) with (boundaryAt a b).
    now rewrite B1.
  - exfalso. revert Hin. cbn [rest prev pos caps]. unfold oneOf.
    cbn [existsb N.eqb Pos.eqb orb].
    match goal with
    | |- ?x = None -> False =>
        assert (Hs : isSome x = true); [|destruct x; [discriminate | discriminate Hs]]
    end.
    apply rep_complete; [exact HY | lia|]. intros j2 cq2.
    unfold capture. cbn [prev rest pos caps].
    change (atBoundary (mkCursor ?a ?b ?c ?d)) with (boundaryAt a b).
    now rewrite B2.
Qed.

Lemma anyFrom_split (r : regex) : forall s pv,
  anyFrom r pv s = true
  <-> exists pre suf, s = pre ++ suf /\ accepts r (prevAfter pv pre) suf = true.
Proof.
  induction s as [|c t IH]; intros pv; cbn [anyFrom]; rewrite orb_true_iff.
  - split.
    + intros [H|H]; [|discriminate]. now exists [], [].
    + intros (pre & suf & E & H). left.
      destruct pre; [|discriminate]. simpl in E. subst suf. exact H.
  - rewrite IH. split.
    + intros [H|(pre & suf & E & H)]; [now exists [], (c :: t)|].
      exists (c :: pre), suf. split; [simpl; now rewrite E | exact H].
    + intros (pre & suf & E & H). destruct pre as [|x pre].
      * left. simpl in E. subst suf. exact H.
      * right. simpl in E. injection E as <- ->. now exists pre, suf.
Qed.

Lemma isSpace_not_word (c : N) : isSpace c = true -> isWordChar c = false.
Proof.
  unfold isSpace, isWordChar, isDigit.
  rewrite !orb_true_iff, !andb_true_iff, !N.leb_le, !N.eqb_eq. intros H.
  repeat (apply orb_false_intro); try apply andb_false_iff;
    rewrite ?N.leb_gt, ?N.eqb_neq; lia.
Qed.

Lemma lowerChar_space (c : N) : isSpace c = true -> lowerChar c = c.
Proof.
  unfold isSpace, lowerChar.
  rewrite !orb_true_iff, !andb_true_iff, !N.leb_le, !N.eqb_eq. intros H.
  repeat match goal with
         | |- (if ?b then _ else _) = _ =>
             destruct b eqn:?; [exfalso|]
         end; try reflexivity;
    repeat match goal with
           | E : _ && _ = true |- _ => apply andb_prop in E as [? ?]
           | E : (_ <=? _)%N = true |- _ => apply N.leb_le in E
           end; lia.
Qed.

Lemma dropWhile_split (p : N -> bool) (s : jsstring) :
  exists a, s = a ++ dropWhile p s /\ forallb p a = true.
Proof.
  induction s as [|c t (a & IH & Ha)]; simpl; [now exists []|].
  destruct (p c) eqn:E; [|now exists []].
  exists (c :: a). simpl. rewrite E, Ha. now rewrite <- IH.
Qed.

Lemma trim_split (s : jsstring) :
  exists a b, s = a ++ trim s ++ b
              /\ forallb isSpace a = true /\ forallb isSpace b = true.
Proof.
  unfold trim.
  destruct (dropWhile_split isSpace s) as (a & Ha & Sa).
  destruct (dropWhile_split isSpace (rev (dropWhile isSpace s))) as (b & Hb & Sb).
  exists a, (rev b). split_all; [|exact Sa|].
  - rewrite <- rev_app_distr, <- Hb, rev_involutive. exact Ha.
  - rewrite forallb_forall in *. intros x Hx. apply Sb. now apply in_rev.
Qed.

Lemma toLowerCase_spaces (a : jsstring) :
  forallb isSpace a = true -> toLowerCase a = a.
Proof.
  unfold toLowerCase. induction a as [|c a IH]; simpl; [reflexivity|].
  intros H. apply andb_prop in H as [Hc Ha]. now rewrite IH, lowerChar_space.
Qed.

Lemma isWordOpt_prevAfter_spaces (a : jsstring) :
  forallb isSpace a = true -> isWordOpt (prevAfter None a) = false.
Proof.
  induction a as [|c a _] using rev_ind; [reflexivity|].
  rewrite forallb_app. intros H. apply andb_prop in H as [_ H].
  rewrite prevAfter_app. simpl in *. rewrite andb_true_r in H.
  now apply isSpace_not_word.
Qed.

Lemma isWordOpt_hd_spaces (b : jsstring) :
  forallb isSpace b = true -> isWordOpt (hd_error b) = false.
Proof.
  destruct b as [|c b]; [reflexivity|]. simpl. intros H.
  apply andb_prop in H as [H _]. now apply isSpace_not_word.
Qed.

(** White space around the text changes no boundary of the shape. *)
Lemma numericDateAt_padded (a pre suf b : jsstring) :
  forallb isSpace a = true -> forallb isSpace b = true ->
  numericDateAt (prevAfter None pre) suf ->
  numericDateAt (prevAfter None (a ++ pre)) (suf ++ b).
Proof.
  intros Sa Sb (B0 & D & M & r & -> & HD & LD & HM & LM & Hend).
  assert (Hpv : isWordOpt (prevAfter None (a ++ pre)) = isWordOpt (prevAfter None pre)).
  { destruct pre as [|x pre] using rev_ind.
    - rewrite app_nil_r. now rewrite isWordOpt_prevAfter_spaces.
    - now rewrite app_assoc, !prevAfter_app. }
  assert (Hpad : forall pv r0, boundaryAt pv r0 = true -> boundaryAt pv (r0 ++ b) = true).
  { intros pv0 r0. unfold boundaryAt. destruct r0 as [|y r0]; [|now simpl].
    simpl. now rewrite (isWordOpt_hd_spaces b Sb). }
  destruct D as [|d D]; [simpl in LD; lia|].
  split.
  - unfold boundaryAt in *. rewrite Hpv. exact B0.
  - exists (d :: D), M, (r ++ b).
    split; [cbn [app]; rewrite <- app_assoc; cbn [app]; now rewrite <- app_assoc|].
    split; [exact HD|]. split; [exact LD|]. split; [exact HM|]. split; [exact LM|].
    destruct Hend as [B1 | (Y & r' & -> & HY & LY & B2)].
    + left. now apply Hpad.
    + right. exists Y, (r' ++ b). split; [cbn [app]; now rewrite <- app_assoc|].
      split; [exact HY|]. split; [exact LY|]. now apply Hpad.
Qed.

Lemma numeric_rule_is_explicit (input : jsstring) :
  test re_dm (toLowerCase (trim input)) = true ->
  test re_dmLoose (toLowerCase input) = true.
Proof.
  rewrite !test_anyFrom, !anyFrom_split.
  intros (pre & suf & E & H). apply accepts_dm_shape in H.
  destruct (trim_split input) as (a & b & Ein & Sa & Sb).
  exists (a ++ pre), (suf ++ b). split.
  - rewrite Ein at 1. unfold toLowerCase in *. rewrite !map_app.
    fold (toLowerCase a) (toLowerCase b).
    rewrite (toLowerCase_spaces a Sa), (toLowerCase_spaces b Sb), E.
    now rewrite <- !app_assoc.
  - apply shape_accepts_dmLoose. now apply numericDateAt_padded.
Qed.

(** X20.  A numeric date is never asked about: every text in which the
    numeric date rule of [normalizeWhenLocalPair] finds a date (in the
    trimmed text) is a text that [hasExplicitCalendarDate] says holds an
    explicit date, so the late-night check is false without a look at the
    clock, and [book_trial] does not answer with the late-night prompt, at
    any hour. *)
Theorem numeric_date_is_never_asked_about (input : jsstring) :
  test re_dm (toLowerCase (trim input)) = true ->
  hasExplicitCalendarDate input = true
  /\ (forall rt w, lateNightCheck rt input w = (false, w))
  /\ (forall rt uid reqName reqPhone w,
        isClarification (fst (book_trial rt uid reqName reqPhone input w)) = false).
Proof.
  intros H.
  assert (E : hasExplicitCalendarDate input = true).
  { unfold hasExplicitCalendarDate. cbv zeta.
    rewrite (numeric_rule_is_explicit input H). now destruct (test re_isoDate _). }
  assert (L : forall rt w, lateNightCheck rt input w = (false, w)).
  { intros rt w. unfold lateNightCheck. rewrite E. now rewrite andb_false_r. }
  split_all; [exact E | exact L|].
  intros rt uid reqName reqPhone w.
  destruct (book_trial_reply_cases rt uid reqName reqPhone input w) as [[Hl _]|[_ Hr]].
  - rewrite L in Hl. discriminate.
  - destruct Hr as [->|(human & ->)]; reflexivity.
Qed.

Lemma numeric_date_is_never_asked_about_witness :
  hasExplicitCalendarDate (js "  завтра, 05.10 в 18:30 ") = true
  /\ (forall rt w, lateNightCheck rt (js "  завтра, 05.10 в 18:30 ") w = (false, w))
  /\ (forall rt uid reqName reqPhone w,
        isClarification
          (fst (book_trial rt uid reqName reqPhone (js "  завтра, 05.10 в 18:30 ") w))
        = false).
Proof.
  apply numeric_date_is_never_asked_about. by_computation.
Defined.

(* ================================================================== *)
(** * The stored time, read by [new Date] *)

(** X21.  Whether a booking is still to come is judged in the zone of the
    process, not in the configured zone.  The tools store the canonical
    local string, and [parseWhenToDate] hands it to [new Date], which reads
    a date and time without an offset as local time of the process.  So, in
    a configured zone of constant offset [o] and a process at [os] minutes
    from UTC, the instant that [isFutureDate] compares with now is the
    booked instant moved by [o - os] minutes: the two are the same only
    when the two offsets are. *)
Theorem booking_is_judged_in_the_process_zone
  (rt : Runtime) (o os z y mo d h mi : Z) :
  constantZone rt o -> Z.abs o <= 1440 ->
  civilFromDays z = (y, mo, d) -> 0 <= z < 2786860 -> 0 <= h <= 23 -> 0 <= mi <= 59 ->
  Date_parse rt (canonical y mo d h mi)
  = Some (Date_UTC y (mo - 1) d h mi 0 0 - 60000 * os) ->
  parseLocalPlainToDate rt (canonical y mo d h mi) = Some (instantAt o z h mi)
  /\ parseWhenToDate rt (canonical y mo d h mi)
     = Some (instantAt o z h mi + 60000 * (o - os))
  /\ (forall w,
        fst (isFutureDate (parseWhenToDate rt (canonical y mo d h mi)) w)
        = (timeNow w - 60000 * (o - os) <? instantAt o z h mi)).
Proof.
  intros Hzone Ho E Hz Hh Hmi Hparse.
  destruct (date_fields_small z y mo d E) as [Hmo Hd].
  pose proof (date_year_range z y mo d E Hz) as Hy.
  assert (Ew : parseWhenToDate rt (canonical y mo d h mi)
               = Some (instantAt o z h mi + 60000 * (o - os))).
  { unfold parseWhenToDate. rewrite Hparse.
    rewrite (Date_UTC_of_date z y mo d h mi E) by lia. unfold instantAt. f_equal. lia. }
  split_all.
  - rewrite parseLocalPlainToDate_canonical by lia.
    now rewrite (zonedDateTimeToUTC_of_date rt o Hzone Ho z y mo d h mi E) by lia.
  - exact Ew.
  - intros w. rewrite Ew. unfold isFutureDate, bind. rewrite newDate_run.
    unfold ret. cbn [fst].
    destruct (Z.ltb_spec (timeNow w) (instantAt o z h mi + 60000 * (o - os)));
      symmetry; [apply Z.ltb_lt | apply Z.ltb_ge]; lia.
Qed.

Lemma booking_is_judged_in_the_process_zone_witness :
  parseLocalPlainToDate omskRuntime (canonical 2025 10 10 12 0)
  = Some (instantAt 360 20371 12 0)
  /\ parseWhenToDate omskRuntime (canonical 2025 10 10 12 0)
     = Some (instantAt 360 20371 12 0 + 60000 * (360 - 0))
  /\ (forall w,
        fst (isFutureDate (parseWhenToDate omskRuntime (canonical 2025 10 10 12 0)) w)
        = (timeNow w - 60000 * (360 - 0) <? instantAt 360 20371 12 0)).
Proof.
  apply (booking_is_judged_in_the_process_zone omskRuntime 360 0 20371 2025 10 10 12 0);
    try lia; try reflexivity.
  intros u. reflexivity.
Defined.
